(** * nestjs-smart-docs: path assembly, category mapping, schema and
    parameter conversion, and the documentation service.

    A shallow embedding of
    - [src/generators/openapi-generator.ts]  (module [OpenApiGenerator]),
    - [src/generators/category-generator.ts] (module [CategoryGenerator]),
    - the route scanner's [combinePaths] and [buildParamMetadata]
      (module [RouteScanner]),
    - the service holding the published specification
      (module [AutoDocsService]),
    - the type resolver described in the design text, whose source file
      [dto-analyzer.ts] is not part of the tree (module [TypeResolver]).

    JavaScript strings are modelled as [string] over 8-bit characters, so
    the development speaks about ASCII text: [toLowerCase], [toUpperCase],
    [\s] and [\w] are the ASCII cases of the JavaScript operations.
    A plain JavaScript object used as a dictionary is modelled by its own
    properties together with what it inherits from [Object.prototype]
    (module [ObjectPrototype]): a read [o[k]] of a key that [o] does not
    own finds the inherited member.  [Object.prototype] is taken as the
    language defines it, changed by nothing but the writes of this
    program. *)

From Stdlib Require Import Ascii String ZArith Bool List Lia Sorted.
From stdpp Require Import base strings list gmap sets.

#[local] Set Warnings "-register-all".

(* ===================================================================== *)
(** ** JavaScript string primitives used by the sources                  *)
(* ===================================================================== *)

Module Js.

(** Truthiness of a string value: the empty string is falsy. *)
Definition truthy (s : string) : bool :=
  match s with EmptyString => false | String _ _ => true end.

(** Truthiness of an optional string ([undefined] is falsy). *)
Definition truthy_opt (o : option string) : bool :=
  match o with Some s => truthy s | None => false end.

(** [a || b] on an optional string with a string default. *)
Definition or_default (o : option string) (d : string) : string :=
  match o with
  | Some s => if truthy s then s else d
  | None => d
  end.

Definition is_slash (c : ascii) : bool := Ascii.eqb c "/"%char.
Definition is_colon (c : ascii) : bool := Ascii.eqb c ":"%char.

(** [\w] : letters, digits and underscore. *)
Definition is_word (c : ascii) : bool :=
  let n := nat_of_ascii c in
  ((48 <=? n) && (n <=? 57)) || ((65 <=? n) && (n <=? 90))
  || ((97 <=? n) && (n <=? 122)) || (n =? 95).

(** [\s] restricted to ASCII: TAB, LF, VT, FF, CR and space. *)
Definition is_space (c : ascii) : bool :=
  let n := nat_of_ascii c in
  ((9 <=? n) && (n <=? 13)) || (n =? 32).

Definition is_upper (c : ascii) : bool :=
  let n := nat_of_ascii c in (65 <=? n) && (n <=? 90).
Definition is_lower (c : ascii) : bool :=
  let n := nat_of_ascii c in (97 <=? n) && (n <=? 122).

Definition lower_char (c : ascii) : ascii :=
  if is_upper c then ascii_of_nat (nat_of_ascii c + 32) else c.
Definition upper_char (c : ascii) : ascii :=
  if is_lower c then ascii_of_nat (nat_of_ascii c - 32) else c.

Fixpoint map_chars (f : ascii -> ascii) (s : string) : string :=
  match s with
  | EmptyString => EmptyString
  | String c r => String (f c) (map_chars f r)
  end.

Definition toLowerCase : string -> string := map_chars lower_char.
Definition toUpperCase : string -> string := map_chars upper_char.

(** Removal of every character satisfying [p]; this is what
    [replace(/[...]+/g, '')] and [replace(/[...]/g, '')] both do. *)
Fixpoint remove_chars (p : ascii -> bool) (s : string) : string :=
  match s with
  | EmptyString => EmptyString
  | String c r => if p c then remove_chars p r else String c (remove_chars p r)
  end.

(** Leading characters satisfying [p] are dropped. *)
Fixpoint drop_leading (p : ascii -> bool) (s : string) : string :=
  match s with
  | EmptyString => EmptyString
  | String c r => if p c then drop_leading p r else s
  end.

(** Trailing characters satisfying [p] are dropped. *)
Fixpoint drop_trailing (p : ascii -> bool) (s : string) : string :=
  match s with
  | EmptyString => EmptyString
  | String c r =>
      match drop_trailing p r with
      | EmptyString => if p c then EmptyString else String c EmptyString
      | r' => String c r'
      end
  end.

(** [s.replace(/^\/+|\/+$/g, '')] *)
Definition strip_slashes (s : string) : string :=
  drop_trailing is_slash (drop_leading is_slash s).

(** [s.trim()] *)
Definition trim (s : string) : string :=
  drop_trailing is_space (drop_leading is_space s).

Definition starts_with (p : ascii -> bool) (s : string) : bool :=
  match s with EmptyString => false | String c _ => p c end.

(** The last character of a text satisfies [p]. *)
Fixpoint ends_with (p : ascii -> bool) (s : string) : bool :=
  match s with
  | EmptyString => false
  | String c EmptyString => p c
  | String _ r => ends_with p r
  end.

(** Some character of the text satisfies [p]. *)
Fixpoint has_char (p : ascii -> bool) (s : string) : bool :=
  match s with
  | EmptyString => false
  | String c r => p c || has_char p r
  end.

(** A non-empty text without a slash and without white space at either
    end. *)
Definition plain_segment (s : string) : bool :=
  truthy s && negb (has_char is_slash s)
  && negb (starts_with is_space s) && negb (ends_with is_space s).

(** A non-empty text that neither starts nor ends with a slash or with
    white space (it may have slashes inside). *)
Definition clean_segment (s : string) : bool :=
  truthy s
  && negb (starts_with is_slash s) && negb (ends_with is_slash s)
  && negb (starts_with is_space s) && negb (ends_with is_space s).

(** A run of [n] slashes. *)
Fixpoint slashes (n : nat) : string :=
  match n with
  | O => EmptyString
  | S n' => String "/" (slashes n')
  end.

(** [s.replace(/\/+/g, '/')] : every run of slashes becomes one slash
    (a slash is kept exactly when it is the last one of its run). *)
Fixpoint collapse_slashes (s : string) : string :=
  match s with
  | EmptyString => EmptyString
  | String c r =>
      if is_slash c && starts_with is_slash r
      then collapse_slashes r
      else String c (collapse_slashes r)
  end.

(** [s.replace(/:(\w+)/g, '{$1}')], as the scanner it is: outside a
    placeholder a colon directly followed by a word character opens a
    brace; inside a placeholder word characters are copied and the first
    other character (or the end of the text) closes the brace.  The
    equations [replace_params_token] and [replace_params_other] below
    relate this scanner to the regular expression. *)
Fixpoint replace_params_from (inside : bool) (s : string) : string :=
  match s with
  | EmptyString => if inside then String "}" EmptyString else EmptyString
  | String c r =>
      if inside && is_word c then String c (replace_params_from true r)
      else
        let next :=
          if is_colon c && starts_with is_word r
          then String "{" (replace_params_from true r)
          else String c (replace_params_from false r) in
        if inside then String "}" next else next
  end.

Definition replace_params : string -> string := replace_params_from false.

(** A colon directly followed by a word character occurs in the text. *)
Fixpoint has_colon_token (s : string) : bool :=
  match s with
  | EmptyString => false
  | String c r => (is_colon c && starts_with is_word r) || has_colon_token r
  end.

(** Every character of the text is a word character. *)
Fixpoint all_word (s : string) : bool :=
  match s with
  | EmptyString => true
  | String c r => is_word c && all_word r
  end.

(** [l.filter(Boolean)] on an array of strings. *)
Definition filter_truthy (l : list string) : list string :=
  List.filter truthy l.

(** [l.join(sep)] *)
Definition join (sep : string) (l : list string) : string :=
  String.concat sep l.

(** [s.startsWith(p)] *)
Definition startsWith (s p : string) : bool := String.prefix p s.

(** An object used as a dictionary with string keys, in property order:
    assignment to an existing key keeps its place, a new key goes last
    (keys that are array indices, which JavaScript lists first, are not
    treated apart). *)
Fixpoint obj_set {V : Type} (k : string) (v : V) (o : list (string * V))
  : list (string * V) :=
  match o with
  | [] => [(k, v)]
  | (k', v') :: o' =>
      if String.eqb k k' then (k, v) :: o' else (k', v') :: obj_set k v o'
  end.

Fixpoint obj_get {V : Type} (k : string) (o : list (string * V)) : option V :=
  match o with
  | [] => None
  | (k', v') :: o' => if String.eqb k k' then Some v' else obj_get k o'
  end.

(** [o[k] = v] on a plain object whose values are objects.  The key
    [__proto__] names the accessor inherited from [Object.prototype]:
    its setter replaces the prototype of [o] and adds no property. *)
Definition obj_assign {V : Type} (k : string) (v : V) (o : list (string * V))
  : list (string * V) :=
  if String.eqb k "__proto__" then o else obj_set k v o.

(** The object built by assigning the entries one after the other. *)
Definition obj_of_entries {V : Type} (es : list (string * V))
  : list (string * V) :=
  fold_left (fun o kv => obj_assign (fst kv) (snd kv) o) es [].

(** A [Set] of strings in insertion order. *)
Definition set_add (x : string) (l : list string) : list string :=
  if existsb (String.eqb x) l then l else l ++ [x].

(** [Array.prototype.sort] with a comparator returning a number: a stable
    insertion sort, [x] is placed before the first later element that
    does not come strictly before it. *)
Fixpoint sort_insert {A : Type} (cmp : A -> A -> Z) (x : A) (l : list A)
  : list A :=
  match l with
  | [] => [x]
  | y :: l' => if (cmp x y <=? 0)%Z then x :: l else y :: sort_insert cmp x l'
  end.

Definition sort_by {A : Type} (cmp : A -> A -> Z) (l : list A) : list A :=
  fold_right (sort_insert cmp) [] l.

(** The default comparator of [sort()] on strings (code unit order). *)
Definition compare_strings (a b : string) : Z :=
  match String.compare a b with Lt => (-1)%Z | Eq => 0%Z | Gt => 1%Z end.

End Js.

(* ===================================================================== *)
(** ** Metadata produced by the scanners ([../interfaces])               *)
(* ===================================================================== *)

Inductive HttpMethod := GET | POST | PUT | PATCH | DELETE | OPTIONS | HEAD.

Definition method_text (m : HttpMethod) : string :=
  match m with
  | GET => "GET" | POST => "POST" | PUT => "PUT" | PATCH => "PATCH"
  | DELETE => "DELETE" | OPTIONS => "OPTIONS" | HEAD => "HEAD"
  end.

(** The outcome of a call: a value, a raised [Error] (by its message), or
    a [TypeError] raised by the engine, whose message is the engine's. *)
Inductive Result (A : Type) :=
| Ok (a : A)
| Throw (message : string)
| TypeError.
Arguments Ok {A}.
Arguments Throw {A}.
Arguments TypeError {A}.

(* ===================================================================== *)
(** ** [Object.prototype], which every plain object inherits from        *)
(* ===================================================================== *)

Module ObjectPrototype.

(** The properties of [Object.prototype] as the language defines it.
    Each holds a function, except the accessor [__proto__], which
    returns [Object.prototype] itself; read through a plain object,
    every one of them is truthy. *)
Definition members : list string :=
  ["constructor"; "__defineGetter__"; "__defineSetter__"; "hasOwnProperty";
   "__lookupGetter__"; "__lookupSetter__"; "isPrototypeOf";
   "propertyIsEnumerable"; "toString"; "valueOf"; "__proto__";
   "toLocaleString"].

(** The name under which [generatePaths] stores the operation of a
    verb: [route.httpMethod.toLowerCase()]. *)
Definition verbKey (m : HttpMethod) : string := Js.toLowerCase (method_text m).

(** What this program has added to [Object.prototype]: the verbs under
    whose name [generatePaths] has stored an operation there (see
    [OpenApiGenerator.addRoute]).  Each such property holds an
    operation object. *)
Definition Added : Type := list HttpMethod.

(** [o[key]] finds a member on [Object.prototype] when the plain object
    [o] has no property [key] of its own; the member is truthy, is no
    string and has no [push] method. *)
Definition inherits (added : Added) (key : string) : bool :=
  existsb (String.eqb key) members
  || existsb (fun m => String.eqb key (verbKey m)) added.

End ObjectPrototype.

(** The [in] field of a parameter. *)
Inductive ParamLocation := InPath | InQuery | InHeader | InBody.

Definition location_eqb (a b : ParamLocation) : bool :=
  match a, b with
  | InPath, InPath | InQuery, InQuery | InHeader, InHeader | InBody, InBody => true
  | _, _ => false
  end.

(** The [constraints] object of a validator; numbers are carried through
    unchanged and are modelled by integers. *)
Record ValidatorConstraints := {
  vc_type : option string;
  vc_format : option string;
  vc_minLength : option Z;
  vc_maxLength : option Z;
  vc_pattern : option string;
  vc_minimum : option Z;
  vc_maximum : option Z;
  vc_minItems : option Z;
  vc_maxItems : option Z;
  vc_enum : option (list string);
  vc_required : option bool;
}.

Record ValidatorMetadata := {
  v_name : string;
  v_args : list string;
  v_constraints : option ValidatorConstraints;
}.

(** A property, over the type of type descriptors (the field [example] is
    never read by the generator and is left out). *)
Record PropertyOf (T : Type) := {
  p_name : string;
  p_type : option T;
  p_required : bool;
  p_description : option string;
  p_validators : option (list ValidatorMetadata);
}.
Arguments p_name {T}.
Arguments p_type {T}.
Arguments p_required {T}.
Arguments p_description {T}.
Arguments p_validators {T}.

Inductive TypeMetadata := {
  t_type : string;
  t_isPrimitive : bool;
  t_isArray : bool;
  t_isEnum : bool;
  t_isOptional : bool;
  t_format : option string;
  t_elementType : option TypeMetadata;
  t_enumValues : option (list string);
  t_properties : option (list (PropertyOf TypeMetadata));
}.

Definition PropertyMetadata : Type := PropertyOf TypeMetadata.

Record DtoMetadata := {
  dto_name : string;
  dto_properties : list PropertyMetadata;
  dto_description : option string;
}.

Record ParamMetadata := {
  pm_name : string;
  pm_in : ParamLocation;
  pm_type : option TypeMetadata;
  pm_required : bool;
  pm_description : option string;
}.

Record RouteMetadata := {
  r_name : string;
  r_httpMethod : HttpMethod;
  r_path : string;
  r_fullPath : string;
  r_description : option string;
  r_params : option (list ParamMetadata);
  r_requestBody : option DtoMetadata;
  r_responseType : option DtoMetadata;
  r_guards : list string;
  r_isPublic : bool;
}.

Record ControllerMetadata := {
  c_name : string;
  c_path : string;
  c_filePath : string;
  c_category : string;
  c_version : option string;
  c_description : option string;
  c_routes : list RouteMetadata;
  c_guards : list string;
}.

(* ===================================================================== *)
(** ** Configuration ([options.interface.ts], the fields that are read)  *)
(* ===================================================================== *)

Record VersioningConfig := {
  vg_enabled : bool;
  vg_prefix : option string;
  vg_fallback : option string;
}.

Record ServerConfig := {
  srv_url : string;
  srv_description : option string;
}.

Record Contact := {
  ct_name : option string;
  ct_email : option string;
  ct_url : option string;
}.

Record AutoDocsOptions := {
  o_title : string;
  o_version : string;
  o_description : option string;
  o_contact : option Contact;
  o_globalPrefix : option string;
  o_servers : option (list ServerConfig);
  o_categoryMapping : option (list (string * string));
  o_includeSecurity : option bool;
  o_versioning : option VersioningConfig;
  o_baseServerURL : option string;
}.

(** [options.versioning?.enabled] *)
Definition versioning_enabled (o : AutoDocsOptions) : bool :=
  match o_versioning o with Some v => vg_enabled v | None => false end.

(* ===================================================================== *)
(** ** The specification document ([openapi.interface])                  *)
(* ===================================================================== *)

Inductive SchemaObject := {
  s_type : option string;
  s_format : option string;
  s_items : option SchemaObject;
  s_enum : option (list string);
  s_properties : option (list (string * SchemaObject));
  s_required : option (list string);
  s_description : option string;
  s_minLength : option Z;
  s_maxLength : option Z;
  s_pattern : option string;
  s_minimum : option Z;
  s_maximum : option Z;
  s_minItems : option Z;
  s_maxItems : option Z;
}.

Definition empty_schema : SchemaObject :=
  {| s_type := None; s_format := None; s_items := None; s_enum := None;
     s_properties := None; s_required := None; s_description := None;
     s_minLength := None; s_maxLength := None; s_pattern := None;
     s_minimum := None; s_maximum := None; s_minItems := None;
     s_maxItems := None |}.

Record ParameterObject := {
  po_name : string;
  po_in : ParamLocation;
  po_required : bool;
  po_schema : SchemaObject;
  po_description : option string;
}.

(** A body or response content: media type to schema. *)
Record ResponseObject := {
  resp_description : string;
  resp_content : option (list (string * SchemaObject));
}.

Record RequestBodyObject := {
  rb_required : bool;
  rb_content : list (string * SchemaObject);
}.

Record OperationObject := {
  op_summary : string;
  op_description : option string;
  op_tags : option (list string);
  op_operationId : string;
  op_parameters : option (list ParameterObject);
  op_requestBody : option RequestBodyObject;
  op_responses : list (string * ResponseObject);
  op_security : option (list (list (string * list string)));
}.

Record PathItemObject := {
  pi_get : option OperationObject;
  pi_post : option OperationObject;
  pi_put : option OperationObject;
  pi_patch : option OperationObject;
  pi_delete : option OperationObject;
  pi_options : option OperationObject;
  pi_head : option OperationObject;
}.

Definition empty_path_item : PathItemObject :=
  {| pi_get := None; pi_post := None; pi_put := None; pi_patch := None;
     pi_delete := None; pi_options := None; pi_head := None |}.

Record TagObject := {
  tag_name : string;
  tag_description : string;
}.

Record SecurityScheme := {
  ss_type : string;
  ss_scheme : string;
  ss_bearerFormat : string;
  ss_description : string;
}.

Record InfoObject := {
  info_title : string;
  info_version : string;
  info_description : string;
  info_contact : option Contact;
}.

Record Components := {
  comp_schemas : list (string * SchemaObject);
  comp_securitySchemes : option (list (string * SecurityScheme));
}.

Record OpenApiSpec := {
  spec_openapi : string;
  spec_info : InfoObject;
  spec_servers : list ServerConfig;
  spec_tags : list TagObject;
  spec_paths : gmap string PathItemObject;
  spec_components : Components;
}.

(* ===================================================================== *)
(** ** [OpenApiGenerator]                                                *)
(* ===================================================================== *)

Module OpenApiGenerator.

(** What [generate] reads and writes: the two private maps of the
    generator object and, since [generatePaths] can write to it, what
    the program has added to [Object.prototype] (which belongs to the
    whole program; the generator is its only writer). *)
Record State := {
  schemas : list (string * SchemaObject);
  tags : list (string * TagObject);
  added : ObjectPrototype.Added;
}.

Definition initial : State := {| schemas := []; tags := []; added := [] |}.

(** [combinePaths(...segments)] *)
Definition combinePaths (segments : list string) : string :=
  Js.join "/"
    (Js.filter_truthy (map Js.strip_slashes (Js.filter_truthy segments))).

(** The path of one route, lines 85-101 of [generatePaths]: the three
    versioning branches, then the placeholder rewriting. *)
Definition routeSegments (options : AutoDocsOptions)
    (controller : ControllerMetadata) (route : RouteMetadata) : list string :=
  if versioning_enabled options && Js.truthy_opt (c_version controller) then
    let versionPrefix :=
      Js.or_default (o_versioning options ≫= vg_prefix) "/api" in
    [versionPrefix; default "" (c_version controller);
     c_path controller; r_path route]
  else if versioning_enabled options
          && Js.truthy_opt (o_versioning options ≫= vg_fallback) then
    [default "" (o_versioning options ≫= vg_fallback);
     c_path controller; r_path route]
  else
    [Js.or_default (o_globalPrefix options) "";
     c_path controller; r_path route].

Definition routeFullPath (options : AutoDocsOptions)
    (controller : ControllerMetadata) (route : RouteMetadata) : string :=
  Js.replace_params (combinePaths (routeSegments options controller route)).

(** The value of a field after an assignment from [b] that happens only
    when [b] has the field. *)
Definition or_else {A : Type} (b a : option A) : option A :=
  match b with Some _ => b | None => a end.

(** [Object.assign(a, b)] on schema objects, also the effect of a run of
    guarded field assignments [if (b.f) a.f = b.f]. *)
Definition assign (a b : SchemaObject) : SchemaObject :=
  {| s_type := or_else (s_type b) (s_type a);
     s_format := or_else (s_format b) (s_format a);
     s_items := or_else (s_items b) (s_items a);
     s_enum := or_else (s_enum b) (s_enum a);
     s_properties := or_else (s_properties b) (s_properties a);
     s_required := or_else (s_required b) (s_required a);
     s_description := or_else (s_description b) (s_description a);
     s_minLength := or_else (s_minLength b) (s_minLength a);
     s_maxLength := or_else (s_maxLength b) (s_maxLength a);
     s_pattern := or_else (s_pattern b) (s_pattern a);
     s_minimum := or_else (s_minimum b) (s_minimum a);
     s_maximum := or_else (s_maximum b) (s_maximum a);
     s_minItems := or_else (s_minItems b) (s_minItems a);
     s_maxItems := or_else (s_maxItems b) (s_maxItems a) |}.

(** A string field that is copied only when truthy. *)
Definition if_truthy (o : option string) : option string :=
  if Js.truthy_opt o then o else None.

(** [applyValidatorConstraints(schema, validator)] *)
Definition applyValidatorConstraints (schema : SchemaObject)
    (validator : ValidatorMetadata) : SchemaObject :=
  match v_constraints validator with
  | None => schema
  | Some c =>
      assign schema
        {| s_type := if_truthy (vc_type c);
           s_format := if_truthy (vc_format c);
           s_items := None;
           s_enum := vc_enum c;
           s_properties := None;
           s_required := None;
           s_description := None;
           s_minLength := vc_minLength c;
           s_maxLength := vc_maxLength c;
           s_pattern := if_truthy (vc_pattern c);
           s_minimum := vc_minimum c;
           s_maximum := vc_maximum c;
           s_minItems := vc_minItems c;
           s_maxItems := vc_maxItems c |}
  end.

(** [validators?.some(v => v.name === 'IsNotEmpty' ||
                           v.constraints?.required === true)] *)
Definition isRequired (prop : PropertyMetadata) : bool :=
  match p_validators prop with
  | None => false
  | Some vs =>
      existsb (fun v =>
        String.eqb (v_name v) "IsNotEmpty"
        || match v_constraints v ≫= vc_required with
           | Some true => true | _ => false end) vs
  end.

(** [validators?.some(v => v.name === 'IsOptional' ||
                           v.constraints?.required === false)] *)
Definition isOptional (prop : PropertyMetadata) : bool :=
  match p_validators prop with
  | None => false
  | Some vs =>
      existsb (fun v =>
        String.eqb (v_name v) "IsOptional"
        || match v_constraints v ≫= vc_required with
           | Some false => true | _ => false end) vs
  end.

(** The validator list contains a non-emptiness or required-type
    constraint. *)
Definition carriesRequired (prop : PropertyMetadata) : Prop :=
  exists vs v, p_validators prop = Some vs /\ In v vs
    /\ (v_name v = "IsNotEmpty"
        \/ v_constraints v ≫= vc_required = Some true).

(** The validator list contains an explicit optionality constraint. *)
Definition carriesOptional (prop : PropertyMetadata) : Prop :=
  exists vs v, p_validators prop = Some vs /\ In v vs
    /\ (v_name v = "IsOptional"
        \/ v_constraints v ≫= vc_required = Some false).

(** The name is listed in the [required] array of the schema. *)
Definition listedRequired (schema : SchemaObject) (name : string) : Prop :=
  exists required, s_required schema = Some required /\ In name required.

(** The descriptor reaches the object branch of [convertTypeToSchema]. *)
Definition objectBranch (t : TypeMetadata) : bool :=
  negb (t_isPrimitive t)
  && negb (t_isArray t && bool_decide (is_Some (t_elementType t)))
  && negb (t_isEnum t && bool_decide (is_Some (t_enumValues t))).

(** [convertPropertyToSchema(property)], over the converter of types. *)
Definition convertPropertyWith (conv : TypeMetadata -> SchemaObject)
    (property : PropertyMetadata) : SchemaObject :=
  let schema0 :=
    match p_type property with
    | Some t => assign empty_schema (conv t)
    | None => empty_schema
    end in
  let schema1 :=
    match p_validators property with
    | Some vs => fold_left applyValidatorConstraints vs schema0
    | None => schema0
    end in
  if Js.truthy_opt (p_description property)
  then assign schema1
         {| s_type := None; s_format := None; s_items := None;
            s_enum := None; s_properties := None; s_required := None;
            s_description := p_description property;
            s_minLength := None; s_maxLength := None; s_pattern := None;
            s_minimum := None; s_maximum := None; s_minItems := None;
            s_maxItems := None |}
  else schema1.

(** [required.length > 0 ? required : absent] *)
Definition nonempty_list {A : Type} (l : list A) : option (list A) :=
  match l with [] => None | _ => Some l end.

(** [convertTypeToSchema(typeMetadata)] for a defined argument. *)
Fixpoint convertDefinedType (typeMetadata : TypeMetadata) : SchemaObject :=
  if t_isPrimitive typeMetadata then
    {| s_type := Some (t_type typeMetadata);
       s_format := if_truthy (t_format typeMetadata);
       s_items := None; s_enum := None; s_properties := None;
       s_required := None; s_description := None; s_minLength := None;
       s_maxLength := None; s_pattern := None; s_minimum := None;
       s_maximum := None; s_minItems := None; s_maxItems := None |}
  else
    match t_isArray typeMetadata, t_elementType typeMetadata with
    | true, Some elementType =>
        {| s_type := Some "array"; s_format := None;
           s_items := Some (convertDefinedType elementType);
           s_enum := None; s_properties := None; s_required := None;
           s_description := None; s_minLength := None;
           s_maxLength := None; s_pattern := None; s_minimum := None;
           s_maximum := None; s_minItems := None; s_maxItems := None |}
    | _, _ =>
        match t_isEnum typeMetadata, t_enumValues typeMetadata with
        | true, Some enumValues =>
            {| s_type := Some "string"; s_format := None; s_items := None;
               s_enum := Some enumValues; s_properties := None;
               s_required := None; s_description := None;
               s_minLength := None; s_maxLength := None;
               s_pattern := None; s_minimum := None; s_maximum := None;
               s_minItems := None; s_maxItems := None |}
        | _, _ =>
            match t_properties typeMetadata with
            | Some props =>
                {| s_type := Some "object"; s_format := None;
                   s_items := None; s_enum := None;
                   s_properties :=
                     Some (Js.obj_of_entries
                             (map (fun prop =>
                                     (p_name prop,
                                      convertPropertyWith convertDefinedType prop))
                                  props));
                   s_required :=
                     nonempty_list
                       (map p_name
                          (List.filter
                             (fun prop => isRequired prop && negb (isOptional prop))
                             props));
                   s_description := None; s_minLength := None;
                   s_maxLength := None; s_pattern := None;
                   s_minimum := None; s_maximum := None;
                   s_minItems := None; s_maxItems := None |}
            | None => empty_schema
            end
        end
    end.

(** [convertTypeToSchema(typeMetadata | undefined)] *)
Definition convertTypeToSchema (typeMetadata : option TypeMetadata)
  : SchemaObject :=
  match typeMetadata with
  | None => {| s_type := Some "object"; s_format := None; s_items := None;
               s_enum := None; s_properties := None; s_required := None;
               s_description := None; s_minLength := None;
               s_maxLength := None; s_pattern := None; s_minimum := None;
               s_maximum := None; s_minItems := None; s_maxItems := None |}
  | Some t => convertDefinedType t
  end.

Definition convertPropertyToSchema : PropertyMetadata -> SchemaObject :=
  convertPropertyWith convertDefinedType.

(** [convertDtoToSchema(dto)] *)
Definition convertDtoToSchema (dto : DtoMetadata) : SchemaObject :=
  {| s_type := Some "object"; s_format := None; s_items := None;
     s_enum := None;
     s_properties :=
       Some (Js.obj_of_entries
               (map (fun prop => (p_name prop, convertPropertyToSchema prop))
                    (dto_properties dto)));
     s_required :=
       nonempty_list
         (map p_name (List.filter p_required (dto_properties dto)));
     s_description := if_truthy (dto_description dto);
     s_minLength := None; s_maxLength := None; s_pattern := None;
     s_minimum := None; s_maximum := None; s_minItems := None;
     s_maxItems := None |}.

(** The object pushed by [createParameters] for one parameter. *)
Definition parameterObject (param : ParamMetadata) : ParameterObject :=
  {| po_name := pm_name param;
     po_in := pm_in param;
     po_required := location_eqb (pm_in param) InPath || pm_required param;
     po_schema := convertTypeToSchema (pm_type param);
     po_description := pm_description param |}.

(** [param.in === 'path' || param.in === 'query'] *)
Definition documented (param : ParamMetadata) : bool :=
  location_eqb (pm_in param) InPath || location_eqb (pm_in param) InQuery.

(** One iteration of the loop of [createParameters]. *)
Definition pushParameter (parameters : list ParameterObject)
    (param : ParamMetadata) : list ParameterObject :=
  if documented param then parameters ++ [parameterObject param]
  else parameters.

(** [createParameters(params)] *)
Definition createParameters (params : list ParamMetadata)
  : option (list ParameterObject) :=
  nonempty_list (fold_left pushParameter params []).

Definition json_content (schema : SchemaObject)
  : list (string * SchemaObject) :=
  [("application/json", schema)].

(** [createOperation(route, controller)] *)
Definition createOperation (route : RouteMetadata)
    (controller : ControllerMetadata) : OperationObject :=
  {| op_summary :=
       Js.or_default (r_description route)
         (method_text (r_httpMethod route) +:+ " " +:+ r_path route);
     op_description := r_description route;
     op_tags :=
       if Js.truthy (c_category controller)
       then Some [c_category controller] else None;
     op_operationId := c_name controller +:+ "_" +:+ r_name route;
     op_parameters := createParameters (default [] (r_params route));
     op_requestBody :=
       match r_httpMethod route with
       | POST | PUT | PATCH =>
           match r_requestBody route with
           | Some body =>
               Some {| rb_required := true;
                       rb_content := json_content (convertDtoToSchema body) |}
           | None => None
           end
       | _ => None
       end;
     op_responses :=
       [("200", {| resp_description := "Successful response";
                   resp_content :=
                     match r_responseType route with
                     | Some dto => Some (json_content (convertDtoToSchema dto))
                     | None => None
                     end |});
        ("400", {| resp_description := "Bad request"; resp_content := None |});
        ("401", {| resp_description := "Unauthorized"; resp_content := None |});
        ("500", {| resp_description := "Internal server error";
                   resp_content := None |})];
     op_security :=
       if r_isPublic route then None else Some [[("bearerAuth", [])]] |}.

(** The [switch] of [generatePaths]: the operation is stored under the
    lower-cased verb. *)
Definition setOperation (m : HttpMethod) (operation : OperationObject)
    (item : PathItemObject) : PathItemObject :=
  match m with
  | GET => {| pi_get := Some operation; pi_post := pi_post item;
              pi_put := pi_put item; pi_patch := pi_patch item;
              pi_delete := pi_delete item; pi_options := pi_options item;
              pi_head := pi_head item |}
  | POST => {| pi_get := pi_get item; pi_post := Some operation;
               pi_put := pi_put item; pi_patch := pi_patch item;
               pi_delete := pi_delete item; pi_options := pi_options item;
               pi_head := pi_head item |}
  | PUT => {| pi_get := pi_get item; pi_post := pi_post item;
              pi_put := Some operation; pi_patch := pi_patch item;
              pi_delete := pi_delete item; pi_options := pi_options item;
              pi_head := pi_head item |}
  | PATCH => {| pi_get := pi_get item; pi_post := pi_post item;
                pi_put := pi_put item; pi_patch := Some operation;
                pi_delete := pi_delete item; pi_options := pi_options item;
                pi_head := pi_head item |}
  | DELETE => {| pi_get := pi_get item; pi_post := pi_post item;
                 pi_put := pi_put item; pi_patch := pi_patch item;
                 pi_delete := Some operation; pi_options := pi_options item;
                 pi_head := pi_head item |}
  | OPTIONS => {| pi_get := pi_get item; pi_post := pi_post item;
                  pi_put := pi_put item; pi_patch := pi_patch item;
                  pi_delete := pi_delete item; pi_options := Some operation;
                  pi_head := pi_head item |}
  | HEAD => {| pi_get := pi_get item; pi_post := pi_post item;
               pi_put := pi_put item; pi_patch := pi_patch item;
               pi_delete := pi_delete item; pi_options := pi_options item;
               pi_head := Some operation |}
  end.

(** The body of the inner loop of [generatePaths], on the own
    properties of [paths] and on what [Object.prototype] has been given.
    [paths[fullPath]] is read through the prototype chain:
    - when [paths] owns the key, the operation is stored in its item;
    - when it does not and [Object.prototype] has a member of that name,
      the test [!paths[fullPath]] fails, no item is created, and the
      operation is assigned to a property of the inherited member, where
      the document does not show it; for the key [__proto__] that
      member is [Object.prototype] itself, which from then on has a
      property of the name of the verb;
    - otherwise an item is created and the operation stored in it. *)
Definition addRoute (options : AutoDocsOptions)
    (controller : ControllerMetadata)
    (acc : gmap string PathItemObject * ObjectPrototype.Added)
    (route : RouteMetadata)
  : gmap string PathItemObject * ObjectPrototype.Added :=
  let fullPath := routeFullPath options controller route in
  let operation := createOperation route controller in
  match fst acc !! fullPath with
  | Some item =>
      (<[fullPath := setOperation (r_httpMethod route) operation item]>
         (fst acc),
       snd acc)
  | None =>
      if ObjectPrototype.inherits (snd acc) fullPath then
        (fst acc,
         if String.eqb fullPath "__proto__"
         then snd acc ++ [r_httpMethod route] else snd acc)
      else
        (<[fullPath := setOperation (r_httpMethod route) operation
                         empty_path_item]> (fst acc),
         snd acc)
  end.

Definition addController (options : AutoDocsOptions)
    (acc : gmap string PathItemObject * ObjectPrototype.Added)
    (controller : ControllerMetadata)
  : gmap string PathItemObject * ObjectPrototype.Added :=
  fold_left (addRoute options controller) (c_routes controller) acc.

(** [generatePaths(controllers, options)]: the paths object by its own
    properties, and what [Object.prototype] has been given at the end. *)
Definition generatePaths (controllers : list ControllerMetadata)
    (options : AutoDocsOptions) (added : ObjectPrototype.Added)
  : gmap string PathItemObject * ObjectPrototype.Added :=
  fold_left (addController options) controllers (∅, added).

(** One iteration of [generateTags]: the local category set and the tag
    map of the generator. *)
Definition addTag (acc : list string * State)
    (controller : ControllerMetadata) : list string * State :=
  let '(categorySet, st) := acc in
  let category := c_category controller in
  if Js.truthy category && negb (existsb (String.eqb category) categorySet)
  then
    let description :=
      Js.or_default (c_description controller)
        (category +:+ " related endpoints") in
    (Js.set_add category categorySet,
     {| schemas := schemas st;
        tags := Js.obj_set category
                  {| tag_name := category; tag_description := description |}
                  (tags st);
        added := added st |})
  else acc.

(** [generateTags(controllers)] *)
Definition generateTags (controllers : list ControllerMetadata)
    (st : State) : State :=
  snd (fold_left addTag controllers ([], st)).

(** The versions collected by [generateDefaultServers]. *)
Definition detectedVersions (controllers : list ControllerMetadata)
  : list string :=
  fold_left
    (fun versions controller =>
       if Js.truthy_opt (c_version controller)
       then Js.set_add (default "" (c_version controller)) versions
       else versions)
    controllers [].

(** [generateDefaultServers(options, controllers)] *)
Definition generateDefaultServers (options : AutoDocsOptions)
    (controllers : list ControllerMetadata) : list ServerConfig :=
  let servers :=
    if versioning_enabled options then
      let versions := detectedVersions controllers in
      match versions with
      | _ :: _ =>
          let versionPrefix :=
            Js.or_default (o_versioning options ≫= vg_prefix) "/api" in
          map (fun version =>
                 {| srv_url := versionPrefix +:+ "/" +:+ version;
                    srv_description :=
                      Some ("API " +:+ Js.toUpperCase version) |})
              (Js.sort_by Js.compare_strings versions)
      | [] =>
          if Js.truthy_opt (o_versioning options ≫= vg_fallback)
          then [{| srv_url := default "" (o_versioning options ≫= vg_fallback);
                   srv_description := Some "API Server" |}]
          else []
      end
    else if Js.truthy_opt (o_globalPrefix options)
    then [{| srv_url := default "" (o_globalPrefix options);
             srv_description := Some "API Server" |}]
    else [] in
  match servers with
  | [] =>
      [{| srv_url := Js.or_default (o_baseServerURL options) "/";
          srv_description :=
            Some (if Js.truthy_opt (o_baseServerURL options)
                  then "Base Server"
                  else "Current Server (editable in dropdown)") |}]
  | _ => servers
  end.

Section Generate.

(** [String.prototype.localeCompare], supplied by the host. *)
Variable localeCompare : string -> string -> Z.

(** [generate(controllers, options)]: the specification and the state
    the generator is left in. *)
Definition generate (controllers : list ControllerMetadata)
    (options : AutoDocsOptions) (st : State) : OpenApiSpec * State :=
  let st0 := {| schemas := []; tags := []; added := added st |} in
  let st1 := generateTags controllers st0 in
  let paths := generatePaths controllers options (added st) in
  ({| spec_openapi := "3.0.0";
      spec_info :=
        {| info_title := o_title options;
           info_version := o_version options;
           info_description :=
             Js.or_default (o_description options)
               "Auto-generated API documentation";
           info_contact := o_contact options |};
      spec_servers :=
        match o_servers options with
        | Some servers => servers
        | None => generateDefaultServers options controllers
        end;
      spec_tags :=
        Js.sort_by (fun a b => localeCompare (tag_name a) (tag_name b))
          (map snd (tags st1));
      spec_paths := fst paths;
      spec_components :=
        {| comp_schemas := schemas st1;
           comp_securitySchemes :=
             match o_includeSecurity options with
             | Some false => None
             | _ =>
                 Some [("bearerAuth",
                        {| ss_type := "http"; ss_scheme := "bearer";
                           ss_bearerFormat := "JWT";
                           ss_description :=
                             "Enter your JWT token in the format: Bearer {token}" |})]
             end |} |},
   {| schemas := schemas st1; tags := tags st1; added := snd paths |}).

End Generate.

End OpenApiGenerator.

(* ===================================================================== *)
(** ** [CategoryGenerator]                                               *)
(* ===================================================================== *)

Module CategoryGenerator.

(** [s.toLowerCase().replace(/[\s-]+/g, '')] *)
Definition normalize (s : string) : string :=
  Js.remove_chars (fun c => Js.is_space c || Ascii.eqb c "-"%char)
    (Js.toLowerCase s).

(** The loop of [findMappedCategory] over [Object.entries(mapping)]. *)
Fixpoint scanEntries (normalizedCategory : string)
    (entries : list (string * string)) : option string :=
  match entries with
  | [] => None
  | (key, value) :: rest =>
      let normalizedKey := normalize key in
      if String.eqb normalizedCategory normalizedKey then Some value
      else if Js.startsWith normalizedCategory normalizedKey then Some value
      else scanEntries normalizedCategory rest
  end.

(** The test an entry passes in that loop (equality of the normalized
    texts is a case of the prefix test). *)
Definition entryMatches (category : string) (kv : string * string) : bool :=
  Js.startsWith (normalize category) (normalize (fst kv)).

(** What [findMappedCategory] returns: a value of the mapping,
    [undefined], or, outside its declared type, a member that the
    mapping inherits from [Object.prototype] (a function or an object,
    never a string). *)
Inductive Mapped :=
| MappedTo (value : string)
| NotMapped
| InheritedMember.

Definition ofEntry (found : option string) : Mapped :=
  match found with Some value => MappedTo value | None => NotMapped end.

(** [findMappedCategory(category, mapping)]; the mapping is given by its
    entries in property order.  The exact match [mapping[category]] is
    read through the prototype chain: when the mapping has no key
    [category] of its own and [Object.prototype] has a member of that
    name, that member is returned. *)
Definition findMappedCategory (category : string)
    (mapping : list (string * string)) (added : ObjectPrototype.Added)
  : Mapped :=
  match Js.obj_get category mapping with
  | Some value =>
      if Js.truthy value then MappedTo value
      else ofEntry (scanEntries (normalize category) mapping)
  | None =>
      if ObjectPrototype.inherits added category then InheritedMember
      else ofEntry (scanEntries (normalize category) mapping)
  end.

(** The controller with its category replaced. *)
Definition withCategory (controller : ControllerMetadata)
    (category : string) : ControllerMetadata :=
  {| c_name := c_name controller; c_path := c_path controller;
     c_filePath := c_filePath controller; c_category := category;
     c_version := c_version controller;
     c_description := c_description controller;
     c_routes := c_routes controller; c_guards := c_guards controller |}.

(** The callback of [applyCategoryMapping].  There is no result when
    the lookup returned an inherited member: the category of the new
    controller is then that member and no string, so the controller is
    outside [ControllerMetadata], and what the program does with it
    depends on the engine. *)
Definition mapController (mapping : list (string * string))
    (added : ObjectPrototype.Added) (controller : ControllerMetadata)
  : option ControllerMetadata :=
  match findMappedCategory (c_category controller) mapping added with
  | MappedTo value =>
      Some (withCategory controller
              (if Js.truthy value then value else c_category controller))
  | NotMapped => Some (withCategory controller (c_category controller))
  | InheritedMember => None
  end.

(** [applyCategoryMapping(controllers, categoryMapping)]; no result when
    some controller has none. *)
Definition applyCategoryMapping (controllers : list ControllerMetadata)
    (categoryMapping : option (list (string * string)))
    (added : ObjectPrototype.Added)
  : option (list ControllerMetadata) :=
  match categoryMapping with
  | None => Some controllers
  | Some mapping => mapM (mapController mapping added) controllers
  end.

(** [getCategories(controllers)] *)
Definition getCategories (controllers : list ControllerMetadata)
  : list string :=
  Js.sort_by Js.compare_strings
    (fold_left
       (fun categories controller =>
          if Js.truthy (c_category controller)
          then Js.set_add (c_category controller) categories
          else categories)
       controllers []).

(** The loop of [groupByCategory], on the own properties of [grouped]
    (their order is not modelled).  [grouped[category]] is read through
    the prototype chain: when [grouped] has no such key and
    [Object.prototype] has a member of that name, no array is created
    and the call of [push] on the member, which has no such method,
    raises a [TypeError]. *)
Fixpoint groupFrom (grouped : gmap string (list ControllerMetadata))
    (controllers : list ControllerMetadata) (added : ObjectPrototype.Added)
  : Result (gmap string (list ControllerMetadata)) :=
  match controllers with
  | [] => Ok grouped
  | controller :: rest =>
      let category :=
        if Js.truthy (c_category controller)
        then c_category controller else "Uncategorized" in
      match grouped !! category with
      | Some members =>
          groupFrom (<[category := members ++ [controller]]> grouped)
            rest added
      | None =>
          if ObjectPrototype.inherits added category then TypeError
          else groupFrom (<[category := [controller]]> grouped) rest added
      end
  end.

(** [groupByCategory(controllers)] *)
Definition groupByCategory (controllers : list ControllerMetadata)
    (added : ObjectPrototype.Added)
  : Result (gmap string (list ControllerMetadata)) :=
  groupFrom ∅ controllers added.

(** The lookup as the design text words it: three rules tried in turn
    over the whole mapping, an exact key, then a key equal after
    normalization, then a key that is a prefix after normalization. *)
Definition findMappedCategory_spec (category : string)
    (mapping : list (string * string)) : option string :=
  match Js.obj_get category mapping with
  | Some value => Some value
  | None =>
      match List.find (fun kv => String.eqb (normalize category) (normalize (fst kv)))
              mapping with
      | Some kv => Some (snd kv)
      | None =>
          option_map snd
            (List.find (fun kv => Js.startsWith (normalize category) (normalize (fst kv)))
               mapping)
      end
  end.

Definition applyCategoryMapping_spec (controllers : list ControllerMetadata)
    (mapping : list (string * string)) : list ControllerMetadata :=
  map (fun controller =>
         withCategory controller
           (default (c_category controller)
              (findMappedCategory_spec (c_category controller) mapping)))
      controllers.

End CategoryGenerator.

(* ===================================================================== *)
(** ** [RouteScanner]: path combination and parameter extraction         *)
(* ===================================================================== *)

Module RouteScanner.

(** [combinePaths(base, path)] *)
Definition combinePaths (base path : string) : string :=
  if negb (Js.truthy base) && negb (Js.truthy path) then "/"
  else if negb (Js.truthy base) then Js.collapse_slashes ("/" +:+ path)
  else if negb (Js.truthy path) then Js.collapse_slashes ("/" +:+ base)
  else
    let parts :=
      Js.collapse_slashes
        (Js.join "/"
           (List.filter (fun p => Js.truthy p && negb (String.eqb p "/"))
              (map Js.trim [base; path]))) in
    "/" +:+ parts.

(** What the scanner reads from a parameter declaration. *)
Record ParameterDecl := {
  pd_name : string;
  pd_typeText : string;
  pd_isString : bool;
  pd_isNumber : bool;
  pd_isBoolean : bool;
  pd_isArray : bool;
  pd_isEnum : bool;
  pd_hasQuestionToken : bool;
  pd_hasInitializer : bool;
}.

(** A decorator: its name and the source text of its arguments. *)
Record DecoratorDecl := {
  d_name : string;
  d_args : list string;
}.

(** The replacement that deletes every single or double quote character
    (codes 39 and 34) from an argument text. *)
Definition is_quote (c : ascii) : bool :=
  (nat_of_ascii c =? 39) || (nat_of_ascii c =? 34).
Definition unquote : string -> string := Js.remove_chars is_quote.

(** [buildParamMetadata(param, decorator, decoratorName)] *)
Definition buildParamMetadata (param : ParameterDecl)
    (decorator : DecoratorDecl) (decoratorName : string)
  : option ParamMetadata :=
  let paramName :=
    match d_args decorator with
    | arg :: _ => unquote arg
    | [] => pd_name param
    end in
  let location :=
    if String.eqb decoratorName "Param" then InPath
    else if String.eqb decoratorName "Headers" then InHeader
    else InQuery in
  Some {| pm_name := paramName;
          pm_in := location;
          pm_type :=
            Some {| t_type := pd_typeText param;
                    t_isPrimitive :=
                      pd_isString param || pd_isNumber param || pd_isBoolean param;
                    t_isArray := pd_isArray param;
                    t_isEnum := pd_isEnum param;
                    t_isOptional :=
                      pd_hasQuestionToken param || pd_hasInitializer param;
                    t_format := None; t_elementType := None;
                    t_enumValues := None; t_properties := None |};
          pm_required := location_eqb location InPath;
          pm_description := None |}.

(** [extractParameters(method)]: the method is given by its parameters,
    each with its decorators. *)
Definition extractParameters
    (parameters : list (ParameterDecl * list DecoratorDecl))
  : list ParamMetadata :=
  flat_map
    (fun '(param, decorators) =>
       flat_map
         (fun decorator =>
            let decoratorName := d_name decorator in
            if String.eqb decoratorName "Body" then []
            else if existsb (String.eqb decoratorName) ["Param"; "Query"; "Headers"]
            then match buildParamMetadata param decorator decoratorName with
                 | Some paramMetadata => [paramMetadata]
                 | None => []
                 end
            else [])
         decorators)
    parameters.

(** The syntax kinds of a decorator argument that the scanners tell
    apart. *)
Inductive ArgumentKind :=
| StringLiteral
| TemplateExpression
| NoSubstitutionTemplateLiteral
| OtherExpression.

(** A decorator argument: its kind and its source text. *)
Record ArgumentNode := {
  arg_kind : ArgumentKind;
  arg_text : string;
}.

(** A decorator of a class or of a method. *)
Record DecoratorNode := {
  dn_name : string;
  dn_args : list ArgumentNode;
}.

(** What the scanner reads from a method declaration. *)
Record MethodDecl := {
  m_name : string;
  m_decorators : list DecoratorNode;
  m_jsDocs : list string;
  m_parameters : list (ParameterDecl * list DecoratorDecl);
}.

Definition is_backtick (c : ascii) : bool := nat_of_ascii c =? 96.

Definition httpMethods : list string :=
  ["Get"; "Post"; "Put"; "Patch"; "Delete"; "Options"; "Head"].

(** [findHttpDecorator(decorators)] *)
Definition findHttpDecorator (decorators : list DecoratorNode)
  : option DecoratorNode :=
  List.find (fun dec => existsb (String.eqb (dn_name dec)) httpMethods)
    decorators.

(** [extractRoutePath(decorator)] *)
Definition extractRoutePath (decorator : DecoratorNode) : string :=
  match dn_args decorator with
  | [] => ""
  | firstArg :: _ =>
      match arg_kind firstArg with
      | StringLiteral => unquote (arg_text firstArg)
      | TemplateExpression | NoSubstitutionTemplateLiteral =>
          Js.remove_chars is_backtick (arg_text firstArg)
      | OtherExpression => ""
      end
  end.

Definition validatorNames : list string :=
  ["IsString"; "IsNumber"; "IsBoolean"; "IsEmail"; "IsUrl"; "IsUUID";
   "IsDate"; "IsEnum"; "IsArray"; "IsOptional"; "IsNotEmpty";
   "Min"; "Max"; "MinLength"; "MaxLength"; "Length";
   "Matches"; "IsIn"; "IsNotIn"].

(** [extractPropertyValidators(prop)], on the decorators of the
    property: the objects pushed have a name and arguments and no
    constraints. *)
Definition extractPropertyValidators (decorators : list DecoratorDecl)
  : list ValidatorMetadata :=
  flat_map
    (fun decorator =>
       if existsb (String.eqb (d_name decorator)) validatorNames
       then [{| v_name := d_name decorator; v_args := d_args decorator;
                v_constraints := None |}]
       else [])
    decorators.

(** [extractGuards(method)] *)
Definition extractGuards (decorators : list DecoratorNode) : list string :=
  flat_map
    (fun decorator =>
       if String.eqb (dn_name decorator) "UseGuards"
       then map arg_text (dn_args decorator) else [])
    decorators.

(** [isPublicRoute(method)] *)
Definition isPublicRoute (decorators : list DecoratorNode) : bool :=
  existsb
    (fun dec =>
       existsb (String.eqb (dn_name dec))
         ["Public"; "SkipAuth"; "SkipGuard"; "SkipAllGuards"])
    decorators.

(** The verb whose text is [text]. *)
Definition methodOfText (text : string) : option HttpMethod :=
  List.find (fun m => String.eqb (method_text m) text)
    [GET; POST; PUT; PATCH; DELETE; OPTIONS; HEAD].

Section ScanRoutes.

(** [extractRequestBody] and [extractResponseType] read the types of
    the method through the compiler and the type analyzer; their
    results are taken as given. *)
Variable extractRequestBody : MethodDecl -> option DtoMetadata.
Variable extractResponseType : MethodDecl -> option DtoMetadata.

(** [extractRoute(method, controllerPath)].  The cast of the
    upper-cased decorator name to a verb cannot fail for a decorator
    [findHttpDecorator] returns. *)
Definition extractRoute (method : MethodDecl) (controllerPath : string)
  : option RouteMetadata :=
  match findHttpDecorator (m_decorators method) with
  | None => None
  | Some httpDecorator =>
      match methodOfText (Js.toUpperCase (dn_name httpDecorator)) with
      | None => None
      | Some httpMethod =>
          let routePath := extractRoutePath httpDecorator in
          Some {| r_name := m_name method;
                  r_httpMethod := httpMethod;
                  r_path := routePath;
                  r_fullPath := combinePaths controllerPath routePath;
                  r_description :=
                    match m_jsDocs method with
                    | doc :: _ => Some (Js.trim doc)
                    | [] => None
                    end;
                  r_params := Some (extractParameters (m_parameters method));
                  r_requestBody := extractRequestBody method;
                  r_responseType := extractResponseType method;
                  r_guards := extractGuards (m_decorators method);
                  r_isPublic := isPublicRoute (m_decorators method) |}
      end
  end.

(** [scanRoutes(classDeclaration, controllerPath)], on the methods of
    the class. *)
Definition scanRoutes (methods : list MethodDecl) (controllerPath : string)
  : list RouteMetadata :=
  flat_map
    (fun method =>
       match extractRoute method controllerPath with
       | Some route => [route]
       | None => []
       end)
    methods.

End ScanRoutes.

End RouteScanner.

(* ===================================================================== *)
(** ** [AutoDocsService]: the holder of the published specification      *)
(* ===================================================================== *)

Module AutoDocsService.

(** The fields of the service object, with the state of the generator it
    was given.  Log output is not modelled. *)
Record State := {
  openApiSpec : option OpenApiSpec;
  controllers : list ControllerMetadata;
  lastScanTime : option Z;
  openApiGenerator : OpenApiGenerator.State;
}.

Definition initial : State :=
  {| openApiSpec := None; controllers := []; lastScanTime := None;
     openApiGenerator := OpenApiGenerator.initial |}.

Record Stats := {
  totalControllers : nat;
  totalRoutes : nat;
  totalCategories : nat;
  categories : list string;
  statsLastScanTime : option Z;
}.

Section Service.

Variable options : AutoDocsOptions.
Variable localeCompare : string -> string -> Z.

(** What the program has added to [Object.prototype]. *)
Definition objectPrototype (st : State) : ObjectPrototype.Added :=
  OpenApiGenerator.added (openApiGenerator st).

(** The controllers a scan stores, when they are controllers. *)
Definition mapped (found : list ControllerMetadata) (st : State)
  : option (list ControllerMetadata) :=
  match o_categoryMapping options with
  | Some mapping =>
      CategoryGenerator.applyCategoryMapping found (Some mapping)
        (objectPrototype st)
  | None => Some found
  end.

(** [scan()].  The walk over the source tree is outside the model: its
    outcome [scanned] (the controllers found, or the error it raised)
    and the clock value [now] are inputs.  An error of the walk is
    logged and raised again.  There is no result when the category
    mapping has none (see [CategoryGenerator.mapController]): the
    service then holds values outside its declared types. *)
Definition scan (scanned : Result (list ControllerMetadata)) (now : Z)
    (st : State) : option (Result unit * State) :=
  match scanned with
  | Throw error => Some (Throw error, st)
  | TypeError => Some (TypeError, st)
  | Ok found =>
      match mapped found st with
      | None => None
      | Some found' =>
          let '(spec, gen) :=
            OpenApiGenerator.generate localeCompare found' options
              (openApiGenerator st) in
          Some (Ok tt,
                {| openApiSpec := Some spec; controllers := found';
                   lastScanTime := Some now; openApiGenerator := gen |})
      end
  end.

(** [initialize()]: a scan, whose error is logged and raised again. *)
Definition initialize (scanned : Result (list ControllerMetadata))
    (now : Z) (st : State) : option (Result unit * State) :=
  match scan scanned now st with
  | Some (Throw error, st') => Some (Throw error, st')
  | Some (TypeError, st') => Some (TypeError, st')
  | Some (Ok u, st') => Some (Ok u, st')
  | None => None
  end.

(** [getOpenApiSpec()] *)
Definition getOpenApiSpec (st : State) : Result OpenApiSpec * State :=
  match openApiSpec st with
  | None => (Throw "OpenAPI spec not generated. Call initialize() first.", st)
  | Some spec => (Ok spec, st)
  end.

Definition getControllers (st : State)
  : Result (list ControllerMetadata) * State :=
  (Ok (controllers st), st).

Definition getControllersByCategory (st : State)
  : Result (gmap string (list ControllerMetadata)) * State :=
  (CategoryGenerator.groupByCategory (controllers st) (objectPrototype st),
   st).

Definition getLastScanTime (st : State) : Result (option Z) * State :=
  (Ok (lastScanTime st), st).

Definition getStats (st : State) : Result Stats * State :=
  let cats := CategoryGenerator.getCategories (controllers st) in
  (Ok {| totalControllers := length (controllers st);
         totalRoutes :=
           fold_left (fun sum ctrl => sum + length (c_routes ctrl))
             (controllers st) 0;
         totalCategories := length cats;
         categories := cats;
         statsLastScanTime := lastScanTime st |},
   st).

(** The calls a consumer of the service can make. *)
Inductive Request :=
| Initialize (scanned : Result (list ControllerMetadata)) (now : Z)
| Scan (scanned : Result (list ControllerMetadata)) (now : Z)
| GetOpenApiSpec
| GetControllers
| GetControllersByCategory
| GetLastScanTime
| GetStats.

Inductive Reply :=
| Done
| SpecReply (spec : OpenApiSpec)
| ControllersReply (cs : list ControllerMetadata)
| GroupedReply (g : gmap string (list ControllerMetadata))
| TimeReply (t : option Z)
| StatsReply (s : Stats).

Definition reply {A : Type} (f : A -> Reply) (r : Result A * State)
  : Result Reply * State :=
  match r with
  | (Ok a, st) => (Ok (f a), st)
  | (Throw e, st) => (Throw e, st)
  | (TypeError, st) => (TypeError, st)
  end.

(** A call of the service: its outcome and the state it leaves, when
    the service stays within its declared types. *)
Definition call (req : Request) (st : State)
  : option (Result Reply * State) :=
  match req with
  | Initialize scanned now =>
      reply (fun _ => Done) <$> initialize scanned now st
  | Scan scanned now => reply (fun _ => Done) <$> scan scanned now st
  | GetOpenApiSpec => Some (reply SpecReply (getOpenApiSpec st))
  | GetControllers => Some (reply ControllersReply (getControllers st))
  | GetControllersByCategory =>
      Some (reply GroupedReply (getControllersByCategory st))
  | GetLastScanTime => Some (reply TimeReply (getLastScanTime st))
  | GetStats => Some (reply StatsReply (getStats st))
  end.

(** The state after a sequence of calls, from [st]. *)
Definition runFrom (st : State) (trace : list Request) : option State :=
  fold_left (fun acc req => acc ≫= (fun st => snd <$> call req st))
    trace (Some st).

(** The state after a sequence of calls on a fresh service. *)
Definition run (trace : list Request) : option State :=
  runFrom initial trace.

(** The request is a scan (or the initial scan) that ran to its end. *)
Definition completedScan (req : Request) : bool :=
  match req with
  | Initialize (Ok _) _ | Scan (Ok _) _ => true
  | _ => false
  end.

Definition throws {A : Type} (r : Result A * State) : bool :=
  match fst r with Throw _ | TypeError => true | Ok _ => false end.

End Service.

End AutoDocsService.

(* ===================================================================== *)
(** ** [TypeResolver]                                                    *)
(* ===================================================================== *)

Module TypeResolver.

(** Modelled from the spec: the type handles of the source model
    provider.  The resolver's source file ([dto-analyzer.ts]) and the
    provider are missing from the tree; the cases are those of the
    resolution algorithm of the design text (primitive, asynchronous
    wrapper, array, enumeration, union, named structure, inline object
    shape, and the null-like and unrecognized shapes). *)
Inductive TypeHandle :=
| HPrimitive (kind : string) (format : option string)
| HNullish
| HAsync (argument : option TypeHandle)
| HArray (element : TypeHandle)
| HEnum (members : list string)
| HUnion (members : list TypeHandle)
| HNamed (id : string)
| HInline (members : list (string * TypeHandle))
| HUnknown.

(** Modelled from the spec: a declared property of a named structure. *)
Record PropertyDecl := {
  decl_name : string;
  decl_type : TypeHandle;
  decl_optional : bool;
  decl_hasInitializer : bool;
  decl_doc : option string;
}.

(** Modelled from the spec: the Type Descriptor variants, with the
    reference-by-identity node that ends a branch re-entering a type in
    progress. *)
Inductive TypeDescriptor :=
| Primitive (kind : string) (format : option string)
| Array (element : TypeDescriptor)
| Enum (values : list string)
| Object (properties : list (string * option TypeDescriptor * bool * option string))
| Reference (id : string).

(** A Property Descriptor: name, type (absent when unresolved), required
    flag and documentation text. *)
Definition PropertyDescriptor : Type :=
  (string * option TypeDescriptor * bool * option string)%type.

Definition prop_name (p : PropertyDescriptor) : string := fst (fst (fst p)).
Definition prop_type (p : PropertyDescriptor) : option TypeDescriptor :=
  snd (fst (fst p)).
Definition prop_required (p : PropertyDescriptor) : bool := snd (fst p).

(** The result of a resolution step; [OutOfFuel] marks a recursion budget
    that was too small and is not a result of the resolver. *)
Inductive Outcome :=
| Resolved (d : TypeDescriptor)
| Absent
| OutOfFuel.

Definition is_nullish (h : TypeHandle) : bool :=
  match h with HNullish => true | _ => false end.
Definition is_named (h : TypeHandle) : bool :=
  match h with HNamed _ => true | _ => false end.

(** Modelled from the spec: the properties of a structure, each resolved
    by [rec]; [None] when the budget ran out below. *)
Fixpoint resolveProperties (rec : TypeHandle -> Outcome)
    (props : list PropertyDecl) : option (list PropertyDescriptor) :=
  match props with
  | [] => Some []
  | p :: rest =>
      let required := negb (decl_optional p) && negb (decl_hasInitializer p) in
      match rec (decl_type p), resolveProperties rec rest with
      | OutOfFuel, _ | _, None => None
      | Resolved d, Some ds =>
          Some ((decl_name p, Some d, required, decl_doc p) :: ds)
      | Absent, Some ds =>
          Some ((decl_name p, None, required, decl_doc p) :: ds)
      end
  end.

(** Modelled from the spec: the members of a union, in declaration order;
    null-like members are skipped and the first member that resolves to
    a non-empty object or is a known named type is returned. *)
Fixpoint resolveUnion (rec : TypeHandle -> Outcome)
    (members : list TypeHandle) : Outcome :=
  match members with
  | [] => Absent
  | m :: rest =>
      if is_nullish m then resolveUnion rec rest
      else match rec m with
           | OutOfFuel => OutOfFuel
           | Resolved (Object (p :: ps)) => Resolved (Object (p :: ps))
           | Resolved d => if is_named m then Resolved d
                           else resolveUnion rec rest
           | Absent => resolveUnion rec rest
           end
  end.

Section Resolve.

(** The named structures known to the provider. *)
Variable decls : gmap string (list PropertyDecl).

(** Modelled from the spec: the resolution algorithm with its cycle
    guard; [inProgress] is the set of named types of the current
    resolution chain. *)
Fixpoint resolve (fuel : nat) (inProgress : gset string) (h : TypeHandle)
  : Outcome :=
  match fuel with
  | O => OutOfFuel
  | S fuel' =>
      match h with
      | HPrimitive kind format => Resolved (Primitive kind format)
      | HNullish => Absent
      | HAsync None => Absent
      | HAsync (Some inner) => resolve fuel' inProgress inner
      | HArray element =>
          match resolve fuel' inProgress element with
          | Resolved d => Resolved (Array d)
          | other => other
          end
      | HEnum members => Resolved (Enum members)
      | HUnion members => resolveUnion (resolve fuel' inProgress) members
      | HNamed id =>
          if decide (id ∈ inProgress) then Resolved (Reference id)
          else
            match decls !! id with
            | None => Absent
            | Some props =>
                match resolveProperties
                        (resolve fuel' ({[id]} ∪ inProgress)) props with
                | Some ds => Resolved (Object ds)
                | None => OutOfFuel
                end
            end
      | HInline members =>
          match members with
          | [] => Absent
          | _ =>
              match resolveProperties (resolve fuel' inProgress)
                      (map (fun m => {| decl_name := fst m;
                                        decl_type := snd m;
                                        decl_optional := false;
                                        decl_hasInitializer := false;
                                        decl_doc := None |})
                           members) with
              | Some ds => Resolved (Object ds)
              | None => OutOfFuel
              end
          end
      | HUnknown => Absent
      end
  end.

(** Nesting depth of a handle. *)
Fixpoint depth (h : TypeHandle) : nat :=
  match h with
  | HAsync (Some inner) => S (depth inner)
  | HArray element => S (depth element)
  | HUnion members => S (list_max (map depth members))
  | HInline members => S (list_max (map (fun m => depth (snd m)) members))
  | _ => 1
  end.

(** The deepest handle among the declared properties. *)
Definition declDepth : nat :=
  list_max
    (map (fun kv => list_max (map (fun p => depth (decl_type p)) (snd kv)))
       (map_to_list decls)).

(** A budget that is enough for [h] when the types of [inProgress] are
    not entered again. *)
Definition budget (inProgress : gset string) (h : TypeHandle) : nat :=
  depth h + size (dom decls ∖ inProgress) * S declDepth.

(** Modelled from the spec: resolution of a handle, starting with no
    type in progress. *)
Definition resolveType (h : TypeHandle) : Outcome :=
  resolve (budget ∅ h) ∅ h.

End Resolve.

End TypeResolver.

(* ===================================================================== *)
(** ** More string primitives                                            *)
(* ===================================================================== *)

Module JsText.

(** [s.includes(sub)] *)
Fixpoint includes (sub s : string) : bool :=
  String.prefix sub s
  || match s with
     | EmptyString => false
     | String _ r => includes sub r
     end.

(** [s.endsWith(suffix)] *)
Fixpoint endsWith (suffix s : string) : bool :=
  String.eqb s suffix
  || match s with
     | EmptyString => false
     | String _ r => endsWith suffix r
     end.

(** [s.replace(/suffix$/, '')] for a literal suffix. *)
Fixpoint strip_suffix (suffix s : string) : string :=
  if String.eqb s suffix then EmptyString
  else match s with
       | EmptyString => EmptyString
       | String c r => String c (strip_suffix suffix r)
       end.

(** [s.split(sep)] for a non-empty separator, scanning from the left:
    [skip] counts the characters of a separator still to pass over.
    The result is never empty; its head is the piece being read. *)
Fixpoint split_from (sep : string) (skip : nat) (s : string) : list string :=
  match s with
  | EmptyString => [EmptyString]
  | String c r =>
      match skip with
      | S k => split_from sep k r
      | O =>
          if String.prefix sep s
          then EmptyString :: split_from sep (String.length sep - 1) r
          else match split_from sep 0 r with
               | piece :: pieces => String c piece :: pieces
               | [] => [String c EmptyString]
               end
      end
  end.

Definition split (sep s : string) : list string := split_from sep 0 s.

(** [word.charAt(0).toUpperCase() + word.slice(1)] *)
Definition capitalize (word : string) : string :=
  match word with
  | EmptyString => EmptyString
  | String c r => String (Js.upper_char c) r
  end.

(** [\d] *)
Definition is_digit (c : ascii) : bool :=
  let n := nat_of_ascii c in (48 <=? n) && (n <=? 57).

(** The longest prefix of characters satisfying [p]. *)
Fixpoint take_while (p : ascii -> bool) (s : string) : string :=
  match s with
  | EmptyString => EmptyString
  | String c r => if p c then String c (take_while p r) else EmptyString
  end.

(** Every character of the text satisfies [p]. *)
Fixpoint all_chars (p : ascii -> bool) (s : string) : bool :=
  match s with
  | EmptyString => true
  | String c r => p c && all_chars p r
  end.

(** [s.replace(c, by)] for every occurrence of one character. *)
Fixpoint replace_char (c : ascii) (by_ : string) (s : string) : string :=
  match s with
  | EmptyString => EmptyString
  | String d r =>
      (if Ascii.eqb d c then by_ else String d EmptyString)
        +:+ replace_char c by_ r
  end.

End JsText.

(* ===================================================================== *)
(** ** [ControllerScanner]: what is inferred from decorators and paths   *)
(* ===================================================================== *)

Module ControllerScanner.

(** [extractControllerPath(decorator)] *)
Definition extractControllerPath (decorator : RouteScanner.DecoratorNode)
  : string :=
  match RouteScanner.dn_args decorator with
  | [] => "/"
  | firstArg :: _ =>
      match RouteScanner.arg_kind firstArg with
      | RouteScanner.StringLiteral =>
          Js.or_default
            (Some (RouteScanner.unquote (RouteScanner.arg_text firstArg))) "/"
      | RouteScanner.TemplateExpression
      | RouteScanner.NoSubstitutionTemplateLiteral =>
          Js.or_default
            (Some (Js.remove_chars RouteScanner.is_backtick
                     (RouteScanner.arg_text firstArg))) "/"
      | RouteScanner.OtherExpression => "/"
      end
  end.

(** [filePath.replace(/\\/g, '/')] : every backslash becomes a slash. *)
Definition normalizeSeparators (filePath : string) : string :=
  Js.map_chars (fun c => if nat_of_ascii c =? 92 then "/"%char else c) filePath.

(** A match of [/\/(v\d+)\//] at the start of the text: a slash, the
    letter v, a non-empty run of digits taken as long as possible, a
    slash. *)
Definition versionAt (s : string) : option string :=
  match s with
  | String c1 (String c2 r) =>
      let digits := JsText.take_while JsText.is_digit r in
      if Js.is_slash c1 && Ascii.eqb c2 "v"
         && Js.truthy digits
         && Js.starts_with Js.is_slash (Js.drop_leading JsText.is_digit r)
      then Some (String "v" digits) else None
  | _ => None
  end.

(** The first match from the left. *)
Fixpoint firstVersion (s : string) : option string :=
  match versionAt s with
  | Some version => Some version
  | None =>
      match s with
      | EmptyString => None
      | String _ r => firstVersion r
      end
  end.

(** [detectVersionFromPath(filePath)] *)
Definition detectVersionFromPath (filePath : string) : option string :=
  firstVersion (normalizeSeparators filePath).

(** [part.toLowerCase().replace(/[\s-]/g, '')] *)
Definition normalizePart (part : string) : string :=
  Js.remove_chars (fun c => Js.is_space c || Ascii.eqb c "-"%char)
    (Js.toLowerCase part).

(** The loop of [deduplicateCategoryParts] from index 1 on, [previous]
    being the part before. *)
Fixpoint deduplicateFrom (previous : string) (parts : list string)
  : list string :=
  match parts with
  | [] => []
  | part :: rest =>
      if String.eqb (normalizePart part) (normalizePart previous)
      then deduplicateFrom part rest
      else part :: deduplicateFrom part rest
  end.

(** [deduplicateCategoryParts(parts)] *)
Definition deduplicateCategoryParts (parts : list string) : list string :=
  match parts with
  | [] => []
  | first :: rest => first :: deduplicateFrom first rest
  end.

(** Some part equals, after normalization, the part before it
    ([previous] for the first). *)
Fixpoint adjacentFrom (previous : string) (parts : list string) : bool :=
  match parts with
  | [] => false
  | part :: rest =>
      String.eqb (normalizePart part) (normalizePart previous)
      || adjacentFrom part rest
  end.

Definition adjacentDuplicates (parts : list string) : bool :=
  match parts with
  | [] => false
  | first :: rest => adjacentFrom first rest
  end.

(** [humanizeCategoryName(segment)] *)
Definition humanizeCategoryName (segment : string) : string :=
  Js.join " " (map JsText.capitalize (JsText.split "-" segment)).

(** The portion of the path after the source anchor. *)
Definition relevantPath (normalizedPath : string) : string :=
  if JsText.includes "/api/v1/" normalizedPath
  then Js.or_default (JsText.split "/api/v1/" normalizedPath !! 1) ""
  else if JsText.includes "/src/" normalizedPath
  then Js.or_default (JsText.split "/src/" normalizedPath !! 1) ""
  else normalizedPath.

(** The directory segments that name the category. *)
Definition pathParts (filePath : string) : list string :=
  List.filter
    (fun part =>
       Js.truthy part && negb (String.eqb part "controllers")
       && negb (JsText.endsWith ".controller" part))
    (JsText.split "/"
       (JsText.strip_suffix ".ts"
          (JsText.strip_suffix ".controller.ts"
             (relevantPath (normalizeSeparators filePath))))).

(** [detectCategoryFromPath(filePath)] *)
Definition detectCategoryFromPath (filePath : string) : string :=
  match pathParts filePath with
  | [] => "Uncategorized"
  | parts =>
      match deduplicateCategoryParts (map humanizeCategoryName parts) with
      | [only] => only
      | deduplicated => Js.join " - " deduplicated
      end
  end.

End ControllerScanner.

(* ===================================================================== *)
(** ** [ScalarController]: escaping of text placed in the page           *)
(* ===================================================================== *)

Module ScalarController.

Definition double_quote : ascii := ascii_of_nat 34.
Definition single_quote : ascii := ascii_of_nat 39.

(** [escapeHtml(unsafe)]: the five replacements, in the order of the
    source. *)
Definition escapeHtml (unsafe : string) : string :=
  JsText.replace_char single_quote "&#039;"
    (JsText.replace_char double_quote "&quot;"
       (JsText.replace_char ">" "&gt;"
          (JsText.replace_char "<" "&lt;"
             (JsText.replace_char "&" "&amp;" unsafe)))).

(** The text one character becomes. *)
Definition entityOf (c : ascii) : string :=
  if Ascii.eqb c "&" then "&amp;"
  else if Ascii.eqb c "<" then "&lt;"
  else if Ascii.eqb c ">" then "&gt;"
  else if Ascii.eqb c double_quote then "&quot;"
  else if Ascii.eqb c single_quote then "&#039;"
  else String c EmptyString.

(** The character is one of [<], [>] and the two quotes. *)
Definition is_markup (c : ascii) : bool :=
  Ascii.eqb c "<" || Ascii.eqb c ">"
  || Ascii.eqb c double_quote || Ascii.eqb c single_quote.

End ScalarController.

(* ===================================================================== *)
(** ** Notions used to state properties of the assembled document        *)
(* ===================================================================== *)

Module Derived.

(** The distinct non-empty categories of the controllers, in order of
    first occurrence: the content of the [Set] that [generateTags] and
    [getCategories] both fill. *)
Definition distinctCategories (controllers : list ControllerMetadata)
  : list string :=
  fold_left
    (fun categories controller =>
       if Js.truthy (c_category controller)
       then Js.set_add (c_category controller) categories
       else categories)
    controllers [].

(** The key under which [groupByCategory] files a controller. *)
Definition groupKey (controller : ControllerMetadata) : string :=
  if Js.truthy (c_category controller)
  then c_category controller else "Uncategorized".

(** The operation a path item holds for a verb. *)
Definition operationOf (m : HttpMethod) (item : PathItemObject)
  : option OperationObject :=
  match m with
  | GET => pi_get item | POST => pi_post item | PUT => pi_put item
  | PATCH => pi_patch item | DELETE => pi_delete item
  | OPTIONS => pi_options item | HEAD => pi_head item
  end.

#[global] Instance method_eq_dec : EqDecision HttpMethod.
Proof. solve_decision. Defined.

(** The operation the paths map holds at a path template for a verb. *)
Definition lookupOperation (paths : gmap string PathItemObject)
    (key : string) (m : HttpMethod) : option OperationObject :=
  paths !! key ≫= operationOf m.

(** The routes in the order [generatePaths] visits them, each with its
    controller. *)
Definition routeList (controllers : list ControllerMetadata)
  : list (ControllerMetadata * RouteMetadata) :=
  flat_map (fun controller => map (pair controller) (c_routes controller))
    controllers.

(** The route is documented at the path template [key] under verb [m]. *)
Definition documentedAt (options : AutoDocsOptions) (key : string)
    (m : HttpMethod) (cr : ControllerMetadata * RouteMetadata) : bool :=
  bool_decide (OpenApiGenerator.routeFullPath options (fst cr) (snd cr) = key
               /\ r_httpMethod (snd cr) = m).

(** The key names a member of [Object.prototype] or one of the verbs
    under which [generatePaths] stores operations: the only names a
    plain object can come to inherit. *)
Definition reserved (key : string) : bool :=
  existsb (String.eqb key)
    (ObjectPrototype.members
     ++ map ObjectPrototype.verbKey [GET; POST; PUT; PATCH; DELETE; OPTIONS; HEAD]).

(** One turn of the loops of [generatePaths], for a route with its
    controller. *)
Definition visit (options : AutoDocsOptions)
    (acc : gmap string PathItemObject * ObjectPrototype.Added)
    (cr : ControllerMetadata * RouteMetadata)
  : gmap string PathItemObject * ObjectPrototype.Added :=
  OpenApiGenerator.addRoute options (fst cr) acc (snd cr).

(** Two adjacent separators occur in the text. *)
Fixpoint has_double_slash (s : string) : bool :=
  match s with
  | EmptyString => false
  | String c r =>
      (Js.is_slash c && Js.starts_with Js.is_slash r) || has_double_slash r
  end.

End Derived.

(* ===================================================================== *)
(** ** Concrete inputs                                                   *)
(* ===================================================================== *)

Module Examples.

Definition route (name : string) (m : HttpMethod) (path : string)
    (params : option (list ParamMetadata)) : RouteMetadata :=
  {| r_name := name; r_httpMethod := m; r_path := path;
     r_fullPath := RouteScanner.combinePaths "admin" path;
     r_description := None; r_params := params;
     r_requestBody := None; r_responseType := None; r_guards := [];
     r_isPublic := false |}.

Definition controller (version : option string) (routes : list RouteMetadata)
  : ControllerMetadata :=
  {| c_name := "AdminController"; c_path := "admin";
     c_filePath := "src/api/v1/admin/admin.controller.ts";
     c_category := "Admin"; c_version := version; c_description := None;
     c_routes := routes; c_guards := [] |}.

Definition getProfile : RouteMetadata := route "getProfile" GET "profile" None.

Definition adminController : ControllerMetadata :=
  controller (Some "v1") [getProfile].

Definition options (globalPrefix : option string)
    (versioning : option VersioningConfig) : AutoDocsOptions :=
  {| o_title := "Test API"; o_version := "1.0"; o_description := None;
     o_contact := None; o_globalPrefix := globalPrefix; o_servers := None;
     o_categoryMapping := None; o_includeSecurity := None;
     o_versioning := versioning; o_baseServerURL := None |}.

(** Versioning enabled with prefix [/api]. *)
Definition versionedOptions : AutoDocsOptions :=
  options None
    (Some {| vg_enabled := true; vg_prefix := Some "/api"; vg_fallback := None |}).

(** The specification generated for the single versioned controller. *)
Definition scenarioSpec : OpenApiSpec :=
  fst (OpenApiGenerator.generate Js.compare_strings [adminController]
         versionedOptions OpenApiGenerator.initial).

(** Versioning enabled with a fallback that differs from the versioned
    prefix. *)
Definition legacyOptions : AutoDocsOptions :=
  options (Some "/global")
    (Some {| vg_enabled := true; vg_prefix := Some "/api";
             vg_fallback := Some "/legacy" |}).

Definition prefixOptions : AutoDocsOptions := options (Some "/api/v1") None.

(** No prefix and no versioning. *)
Definition plainOptions : AutoDocsOptions := options None None.

(** A method decorated [@Get()]. *)
Definition getRoot : RouteMetadata := route "index" GET "" None.

(** A controller decorated [@Controller(path)] with that method, in a
    directory from which [category] is inferred. *)
Definition controllerAt (path category : string) : ControllerMetadata :=
  {| c_name := "PlainController"; c_path := path;
     c_filePath := "src/plain.controller.ts";
     c_category := category; c_version := None; c_description := None;
     c_routes := [getRoot]; c_guards := [] |}.

(** [@Controller('constructor')] *)
Definition constructorController : ControllerMetadata :=
  controllerAt "constructor" "Plain".

Definition getResource : RouteMetadata :=
  route "getResource" GET ":userId/resource/:resourceId" None.

Definition validator (name : string) : ValidatorMetadata :=
  {| v_name := name; v_args := []; v_constraints := None |}.

Definition stringType : TypeMetadata :=
  {| t_type := "string"; t_isPrimitive := true; t_isArray := false;
     t_isEnum := false; t_isOptional := false; t_format := None;
     t_elementType := None; t_enumValues := None; t_properties := None |}.

Definition property (name : string) (required : bool)
    (validators : list string) : PropertyMetadata :=
  {| p_name := name; p_type := Some stringType; p_required := required;
     p_description := None;
     p_validators := Some (map validator validators) |}.

(** [@IsOptional() email: string] : declared without question token or
    initializer, so the scanner marks it required. *)
Definition emailProperty : PropertyMetadata :=
  property "email" true ["IsOptional"].

(** [@IsNotEmpty() nick?: string] *)
Definition nickProperty : PropertyMetadata :=
  property "nick" false ["IsNotEmpty"].

Definition createUserDto : DtoMetadata :=
  {| dto_name := "CreateUserDto";
     dto_properties := [emailProperty; nickProperty];
     dto_description := None |}.

Definition createUser : RouteMetadata :=
  {| r_name := "createUser"; r_httpMethod := POST; r_path := "users";
     r_fullPath := "/admin/users"; r_description := None; r_params := None;
     r_requestBody := Some createUserDto; r_responseType := None;
     r_guards := []; r_isPublic := false |}.

(** A nested object type with a required, an optional-and-required and
    an unconstrained property. *)
Definition addressType : TypeMetadata :=
  {| t_type := "AddressDto"; t_isPrimitive := false; t_isArray := false;
     t_isEnum := false; t_isOptional := false; t_format := None;
     t_elementType := None; t_enumValues := None;
     t_properties :=
       Some [property "street" false ["IsNotEmpty"];
             property "unit" true ["IsNotEmpty"; "IsOptional"];
             property "city" true ["IsString"]] |}.

Definition param (name : string) (location : ParamLocation) (required : bool)
  : ParamMetadata :=
  {| pm_name := name; pm_in := location; pm_type := Some stringType;
     pm_required := required; pm_description := None |}.

(** [@Param('id') id?: string] *)
Definition optionalIdDecl : RouteScanner.ParameterDecl :=
  {| RouteScanner.pd_name := "id"; RouteScanner.pd_typeText := "string";
     RouteScanner.pd_isString := true; RouteScanner.pd_isNumber := false;
     RouteScanner.pd_isBoolean := false; RouteScanner.pd_isArray := false;
     RouteScanner.pd_isEnum := false;
     RouteScanner.pd_hasQuestionToken := true;
     RouteScanner.pd_hasInitializer := false |}.

Definition paramDecorator : RouteScanner.DecoratorDecl :=
  {| RouteScanner.d_name := "Param"; RouteScanner.d_args := ["'id'"] |}.

Definition headersDecorator : RouteScanner.DecoratorDecl :=
  {| RouteScanner.d_name := "Headers"; RouteScanner.d_args := ["'x-tenant'"] |}.

(** A route whose only parameter comes from a header. *)
Definition headerOnlyRoute : RouteMetadata :=
  route "ping" GET "ping" (Some [param "x-tenant" InHeader false]).

(** A route with a path parameter flagged optional, a query parameter
    and a header parameter. *)
Definition mixedRoute : RouteMetadata :=
  route "find" GET ":id"
    (Some [param "id" InPath false; param "x-tenant" InHeader true;
           param "q" InQuery false]).

(** A controller whose category was derived from [admin/auth]. *)
Definition authController : ControllerMetadata :=
  {| c_name := "AuthController"; c_path := "admin/auth";
     c_filePath := "src/api/v1/admin/auth/auth.controller.ts";
     c_category := "Admin - Auth"; c_version := Some "v1";
     c_description := None; c_routes := []; c_guards := [] |}.

(** A mapping with a short key before a key that equals the category
    after normalization. *)
Definition categoryMapping : list (string * string) :=
  [("admin", "Administration"); ("admin-auth", "Admin Authentication")].

Definition decl (name : string) (h : TypeResolver.TypeHandle)
  : TypeResolver.PropertyDecl :=
  {| TypeResolver.decl_name := name; TypeResolver.decl_type := h;
     TypeResolver.decl_optional := false;
     TypeResolver.decl_hasInitializer := false;
     TypeResolver.decl_doc := None |}.

(** [class Node { value: number; next: Node; children: Node[] }] and the
    pair [class Author { books: Book[] }], [class Book { author: Author }]. *)
Definition declarations : gmap string (list TypeResolver.PropertyDecl) :=
  list_to_map
    [("Node", [decl "value" (TypeResolver.HPrimitive "number" None);
               decl "next" (TypeResolver.HNamed "Node");
               decl "children"
                 (TypeResolver.HArray (TypeResolver.HNamed "Node"))]);
     ("Author", [decl "books"
                   (TypeResolver.HArray (TypeResolver.HNamed "Book"))]);
     ("Book", [decl "author" (TypeResolver.HNamed "Author")])].

End Examples.

(* ===================================================================== *)
(** ** Facts about the string primitives                                 *)
(* ===================================================================== *)

Module JsFacts.
Import Js.

Lemma app_nil_l (s : string) : "" +:+ s = s.
Proof. reflexivity. Qed.

Lemma app_cons (c : ascii) (a b : string) :
  String c a +:+ b = String c (a +:+ b).
Proof. reflexivity. Qed.

Lemma app_nil_r (s : string) : s +:+ "" = s.
Proof. induction s as [|c s IH]; [reflexivity|]. rewrite app_cons, IH. reflexivity. Qed.

Lemma app_assoc (a b c : string) : (a +:+ b) +:+ c = a +:+ (b +:+ c).
Proof.
  induction a as [|x a IH]; [reflexivity|].
  rewrite !app_cons, IH. reflexivity.
Qed.

Lemma starts_with_app (p : ascii -> bool) (a b : string) :
  starts_with p (a +:+ b) =
  match a with EmptyString => starts_with p b | _ => starts_with p a end.
Proof. destruct a; reflexivity. Qed.

(** *** Stripping *)

Lemma drop_leading_starts (p : ascii -> bool) (s : string) :
  starts_with p (drop_leading p s) = false.
Proof.
  induction s as [|c s IH]; simpl; [reflexivity|].
  destruct (p c) eqn:E; [exact IH|]. simpl. exact E.
Qed.

Lemma drop_leading_id (p : ascii -> bool) (s : string) :
  starts_with p s = false -> drop_leading p s = s.
Proof. destruct s as [|c s]; simpl; [reflexivity|]. intros ->. reflexivity. Qed.

Lemma drop_trailing_starts (p : ascii -> bool) (s : string) :
  starts_with p s = false -> starts_with p (drop_trailing p s) = false.
Proof.
  destruct s as [|c s]; simpl; [reflexivity|]. intros E.
  destruct (drop_trailing p s); simpl; rewrite ?E; simpl; rewrite ?E; reflexivity.
Qed.

Lemma drop_trailing_idem (p : ascii -> bool) (s : string) :
  drop_trailing p (drop_trailing p s) = drop_trailing p s.
Proof.
  induction s as [|c s IH]; simpl; [reflexivity|].
  destruct (drop_trailing p s) as [|d t] eqn:E.
  - destruct (p c) eqn:Ec; simpl; [reflexivity|]. rewrite Ec. reflexivity.
  - simpl. simpl in IH. rewrite IH. reflexivity.
Qed.

Lemma drop_trailing_ends (p : ascii -> bool) (s : string) :
  ends_with p (drop_trailing p s) = false.
Proof.
  induction s as [|c s IH]; simpl; [reflexivity|].
  destruct (drop_trailing p s) as [|d t] eqn:E.
  - destruct (p c) eqn:Ec; simpl; [reflexivity | exact Ec].
  - simpl in *. exact IH.
Qed.

Lemma drop_trailing_id (p : ascii -> bool) (s : string) :
  ends_with p s = false -> drop_trailing p s = s.
Proof.
  induction s as [|c s IH]; simpl; [reflexivity|].
  destruct s as [|d t].
  - simpl. intros ->. reflexivity.
  - intros H. rewrite (IH H). reflexivity.
Qed.

Lemma strip_slashes_starts (s : string) :
  starts_with is_slash (strip_slashes s) = false.
Proof. apply drop_trailing_starts, drop_leading_starts. Qed.

Lemma strip_slashes_ends (s : string) :
  ends_with is_slash (strip_slashes s) = false.
Proof. apply drop_trailing_ends. Qed.

Lemma strip_slashes_idem (s : string) :
  strip_slashes (strip_slashes s) = strip_slashes s.
Proof.
  unfold strip_slashes at 1.
  rewrite (drop_leading_id _ _ (strip_slashes_starts s)).
  apply drop_trailing_idem.
Qed.

Lemma strip_slashes_empty : strip_slashes "" = "".
Proof. reflexivity. Qed.

Lemma filter_truthy_strip (l : list string) :
  filter_truthy (map strip_slashes (filter_truthy l)) =
  filter_truthy (map strip_slashes l).
Proof.
  unfold filter_truthy.
  induction l as [|s l IH]; simpl; [reflexivity|].
  destruct s as [|c s]; simpl; [exact IH|].
  destruct (truthy (strip_slashes (String c s))); rewrite IH; reflexivity.
Qed.

(** *** Placeholder rewriting *)

Lemma is_word_not_colon (c : ascii) : is_word c = true -> is_colon c = false.
Proof.
  unfold is_colon. destruct (Ascii.eqb_spec c ":"%char) as [->|]; [|reflexivity].
  vm_compute. discriminate.
Qed.

Lemma replace_params_from_starts (s : string) :
  starts_with is_word s = false ->
  starts_with is_word (replace_params_from false s) = false.
Proof.
  destruct s as [|c r]; simpl; [reflexivity|]. intros Hc.
  destruct (is_colon c && starts_with is_word r); simpl; [reflexivity | exact Hc].
Qed.

Lemma replace_params_from_no_token (s : string) (inside : bool) :
  has_colon_token (replace_params_from inside s) = false.
Proof.
  revert inside. induction s as [|c r IH]; intros inside.
  - destruct inside; reflexivity.
  - simpl. destruct (inside && is_word c) eqn:Hw.
    + apply andb_prop in Hw as [_ Hw]. simpl.
      rewrite (is_word_not_colon _ Hw), IH. reflexivity.
    + assert (Hnext : has_colon_token
                (if is_colon c && starts_with is_word r
                 then String "{" (replace_params_from true r)
                 else String c (replace_params_from false r)) = false).
      { destruct (is_colon c) eqn:Hc; simpl.
        - destruct (starts_with is_word r) eqn:Hr; simpl.
          + apply IH.
          + rewrite Hc, (replace_params_from_starts _ Hr), IH. reflexivity.
        - rewrite Hc, IH. reflexivity. }
      destruct inside; [|exact Hnext].
      simpl. exact Hnext.
Qed.

Lemma replace_params_from_close (s : string) :
  starts_with is_word s = false ->
  replace_params_from true s = String "}" (replace_params_from false s).
Proof.
  destruct s as [|c r]; simpl; [reflexivity|]. intros ->. reflexivity.
Qed.

(** The scanner is a homomorphism at every point where the right part
    does not start with a word character. *)
Lemma replace_params_from_app (pre rest : string) (inside : bool) :
  starts_with is_word rest = false ->
  replace_params_from inside (pre +:+ rest) =
  replace_params_from inside pre +:+ replace_params_from false rest.
Proof.
  intros Hrest. revert inside.
  induction pre as [|c pre IH]; intros inside.
  - rewrite app_nil_l. destruct inside; simpl.
    + rewrite (replace_params_from_close _ Hrest). reflexivity.
    + reflexivity.
  - rewrite app_cons. simpl.
    assert (Hs : starts_with is_word (pre +:+ rest) = starts_with is_word pre).
    { rewrite starts_with_app. destruct pre; [exact Hrest | reflexivity]. }
    rewrite Hs, !IH.
    destruct (inside && is_word c); [reflexivity|].
    destruct (is_colon c && starts_with is_word pre), inside; reflexivity.
Qed.

(** Inside a placeholder, the name is copied and the brace is closed. *)
Lemma replace_params_from_name (name rest : string) :
  all_word name = true -> starts_with is_word rest = false ->
  replace_params_from true (name +:+ rest) =
  name +:+ String "}" (replace_params_from false rest).
Proof.
  intros Hname Hrest. induction name as [|c name IH].
  - rewrite !app_nil_l. apply replace_params_from_close, Hrest.
  - simpl in Hname. apply andb_prop in Hname as [Hc Hname].
    rewrite !app_cons. simpl. rewrite Hc. simpl. rewrite (IH Hname). reflexivity.
Qed.

(** [/:(\w+)/g] with ['{$1}']: a colon followed by a non-empty run of
    word characters, taken as long as possible, becomes the run in
    braces. *)
Lemma replace_params_token (name rest : string) :
  all_word name = true -> name <> "" -> starts_with is_word rest = false ->
  replace_params (String ":" (name +:+ rest)) =
  String "{" (name +:+ String "}" (replace_params rest)).
Proof.
  intros Hname Hne Hrest. unfold replace_params. simpl.
  assert (Hs : starts_with is_word (name +:+ rest) = true).
  { destruct name as [|c name]; [congruence|]. simpl in Hname.
    apply andb_prop in Hname as [Hc _]. exact Hc. }
  rewrite Hs. simpl. rewrite (replace_params_from_name _ _ Hname Hrest).
  reflexivity.
Qed.

(** Any other character is copied. *)
Lemma replace_params_other (c : ascii) (r : string) :
  is_colon c && starts_with is_word r = false ->
  replace_params (String c r) = String c (replace_params r).
Proof. intros H. unfold replace_params. simpl. rewrite H. reflexivity. Qed.

Lemma replace_params_placeholder (pre name rest : string) :
  all_word name = true -> name <> "" -> starts_with is_word rest = false ->
  replace_params (pre +:+ String ":" (name +:+ rest)) =
  replace_params pre +:+ String "{" (name +:+ String "}" (replace_params rest)).
Proof.
  intros Hname Hne Hrest. unfold replace_params.
  rewrite replace_params_from_app by reflexivity.
  f_equal. apply (replace_params_token name rest Hname Hne Hrest).
Qed.

End JsFacts.

(* ===================================================================== *)
(** ** Facts about sorting, sets and dictionaries                        *)
(* ===================================================================== *)

Module CollectionFacts.
Import Js.

Lemma sort_insert_perm {A : Type} (cmp : A -> A -> Z) (x : A) (l : list A) :
  sort_insert cmp x l ≡ₚ x :: l.
Proof.
  induction l as [|y l IH]; simpl; [reflexivity|].
  destruct (cmp x y <=? 0)%Z; [reflexivity|].
  rewrite IH. apply Permutation_swap.
Qed.

Lemma sort_by_perm {A : Type} (cmp : A -> A -> Z) (l : list A) :
  sort_by cmp l ≡ₚ l.
Proof.
  unfold sort_by. induction l as [|x l IH]; simpl; [reflexivity|].
  rewrite sort_insert_perm, IH. reflexivity.
Qed.

Lemma compare_strings_le (a b : string) :
  (compare_strings a b <=? 0)%Z = String.leb a b.
Proof.
  unfold compare_strings, String.leb. destruct (String.compare a b); reflexivity.
Qed.

Lemma sort_insert_sorted (x : string) (l : list string) :
  Sorted String.le l -> Sorted String.le (sort_insert compare_strings x l).
Proof.
  induction 1 as [|y l Hs IH Hhd]; simpl.
  - repeat constructor.
  - rewrite compare_strings_le. destruct (String.leb x y) eqn:E.
    + constructor; [constructor; assumption|]. constructor.
      unfold String.le. rewrite E. exact I.
    + assert (Hyx : String.le y x).
      { unfold String.le. destruct (String.leb_total x y) as [H|H]; [congruence|].
        rewrite H. exact I. }
      constructor; [exact IH|].
      destruct l as [|z l]; simpl.
      * constructor. exact Hyx.
      * rewrite compare_strings_le. destruct (String.leb x z); constructor.
        -- exact Hyx.
        -- inversion Hhd. assumption.
Qed.

(** The default [sort()] on strings returns its input in ascending
    order. *)
Lemma sort_strings_sorted (l : list string) :
  Sorted String.le (sort_by compare_strings l).
Proof.
  unfold sort_by. induction l as [|x l IH]; simpl; [constructor|].
  apply sort_insert_sorted, IH.
Qed.

Lemma existsb_eqb_elem_of (x : string) (l : list string) :
  existsb (String.eqb x) l = true <-> x ∈ l.
Proof.
  rewrite List.existsb_exists, list_elem_of_In. split.
  - intros (y & Hy & E). apply String.eqb_eq in E. subst. exact Hy.
  - intros H. exists x. split; [exact H | apply String.eqb_refl].
Qed.

Lemma existsb_eqb_false (x : string) (l : list string) :
  existsb (String.eqb x) l = false <-> x ∉ l.
Proof.
  rewrite <- existsb_eqb_elem_of. destruct (existsb _ l); split; congruence.
Qed.

Lemma set_add_elem_of (x y : string) (l : list string) :
  y ∈ set_add x l <-> y = x \/ y ∈ l.
Proof.
  unfold set_add. destruct (existsb (String.eqb x) l) eqn:E.
  - apply existsb_eqb_elem_of in E. split; [tauto|]. intros [->|H]; assumption.
  - rewrite elem_of_app, list_elem_of_singleton. tauto.
Qed.

Lemma set_add_NoDup (x : string) (l : list string) :
  NoDup l -> NoDup (set_add x l).
Proof.
  intros H. unfold set_add. destruct (existsb (String.eqb x) l) eqn:E; [exact H|].
  apply existsb_eqb_false in E. apply NoDup_app. split; [exact H|].
  split; [|apply NoDup_singleton].
  intros y Hy Hx. apply list_elem_of_singleton in Hx. subst. contradiction.
Qed.

Lemma obj_get_set_eq {V : Type} (k : string) (v : V) (o : list (string * V)) :
  obj_get k (obj_set k v o) = Some v.
Proof.
  induction o as [|[k' v'] o IH]; simpl.
  - rewrite String.eqb_refl. reflexivity.
  - destruct (String.eqb k k') eqn:E; simpl; rewrite ?String.eqb_refl, ?E; auto.
Qed.

Lemma obj_get_set_ne {V : Type} (k k' : string) (v : V) (o : list (string * V)) :
  k <> k' -> obj_get k' (obj_set k v o) = obj_get k' o.
Proof.
  intros Hne. induction o as [|[k0 v0] o IH]; simpl.
  - destruct (String.eqb_spec k' k); [congruence | reflexivity].
  - destruct (String.eqb_spec k k0) as [->|Hk]; simpl.
    + destruct (String.eqb_spec k' k0); [congruence | reflexivity].
    + destruct (String.eqb_spec k' k0); [reflexivity | exact IH].
Qed.

Lemma obj_set_fresh {V : Type} (k : string) (v : V) (o : list (string * V)) :
  k ∉ map fst o -> obj_set k v o = o ++ [(k, v)].
Proof.
  induction o as [|[k' v'] o IH]; simpl; [reflexivity|].
  intros H. apply not_elem_of_cons in H as [Hne H].
  destruct (String.eqb_spec k k'); [congruence|]. rewrite (IH H). reflexivity.
Qed.

Lemma obj_set_keys {V : Type} (k : string) (v : V) (o : list (string * V)) :
  map fst (obj_set k v o) =
  if existsb (String.eqb k) (map fst o) then map fst o else map fst o ++ [k].
Proof.
  induction o as [|[k' v'] o IH]; simpl; [reflexivity|].
  destruct (String.eqb_spec k k') as [->|Hne]; simpl; [reflexivity|].
  rewrite IH. destruct (existsb _ _); reflexivity.
Qed.

End CollectionFacts.

(* ===================================================================== *)
(** ** The paths object and [Object.prototype]                           *)
(* ===================================================================== *)

Module PathsMap.
Import OpenApiGenerator Derived.

Lemma operationOf_setOperation (m m' : HttpMethod) (op : OperationObject)
    (item : PathItemObject) :
  operationOf m (setOperation m' op item) =
  if decide (m' = m) then Some op else operationOf m item.
Proof. destruct m, m'; reflexivity. Qed.

Lemma existsb_app_l {A : Type} (f : A -> bool) (l l' : list A) :
  existsb f l = true -> existsb f (l ++ l') = true.
Proof. intros H. rewrite existsb_app, H. reflexivity. Qed.

(** Whatever has been added to [Object.prototype], only reserved names
    are inherited. *)
Lemma inherits_reserved (added : ObjectPrototype.Added) (key : string) :
  ObjectPrototype.inherits added key = true -> reserved key = true.
Proof.
  unfold ObjectPrototype.inherits, reserved. rewrite existsb_app.
  intros H. apply orb_true_iff in H as [H|H]; [rewrite H; reflexivity|].
  apply orb_true_iff. right.
  apply existsb_exists in H as (m & _ & Hm). apply existsb_exists.
  exists (ObjectPrototype.verbKey m). split; [|exact Hm].
  apply List.in_map. destruct m; simpl; tauto.
Qed.

Lemma not_reserved (added : ObjectPrototype.Added) (key : string) :
  reserved key = false -> ObjectPrototype.inherits added key = false.
Proof.
  intros H. destruct (ObjectPrototype.inherits added key) eqn:E; [|reflexivity].
  apply inherits_reserved in E. congruence.
Qed.

Lemma inherits_app (added more : ObjectPrototype.Added) (key : string) :
  ObjectPrototype.inherits added key = true ->
  ObjectPrototype.inherits (added ++ more) key = true.
Proof.
  unfold ObjectPrototype.inherits. intros H.
  apply orb_true_iff in H as [H|H]; [rewrite H; reflexivity|].
  rewrite (existsb_app_l _ _ _ H). apply orb_true_r.
Qed.

(** *** One route *)

Lemma visit_added (options : AutoDocsOptions)
    (acc : gmap string PathItemObject * ObjectPrototype.Added)
    (cr : ControllerMetadata * RouteMetadata) (key : string) :
  ObjectPrototype.inherits (snd acc) key = true ->
  ObjectPrototype.inherits (snd (visit options acc cr)) key = true.
Proof.
  intros H. unfold visit, addRoute.
  case (fst acc !! routeFullPath options (fst cr) (snd cr)); [intros item; exact H|].
  case (ObjectPrototype.inherits (snd acc) (routeFullPath options (fst cr) (snd cr))); [|exact H].
  cbn [snd]. case (String.eqb _ "__proto__"); [|exact H].
  apply inherits_app, H.
Qed.

(** A key that is not inherited after the turn is handled as on a
    dictionary without prototype. *)
Lemma visit_lookup (options : AutoDocsOptions)
    (acc : gmap string PathItemObject * ObjectPrototype.Added)
    (cr : ControllerMetadata * RouteMetadata) (key : string) (m : HttpMethod) :
  ObjectPrototype.inherits (snd (visit options acc cr)) key = false ->
  lookupOperation (fst (visit options acc cr)) key m =
  if documentedAt options key m cr
  then Some (createOperation (snd cr) (fst cr))
  else lookupOperation (fst acc) key m.
Proof.
  intros Hfree.
  assert (Hacc : ObjectPrototype.inherits (snd acc) key = false).
  { destruct (ObjectPrototype.inherits (snd acc) key) eqn:E; [|reflexivity].
    rewrite (visit_added options acc cr key E) in Hfree. discriminate. }
  clear Hfree. unfold lookupOperation, visit, addRoute, documentedAt.
  destruct (decide (routeFullPath options (fst cr) (snd cr) = key)) as [E|Hne].
  - rewrite E, Hacc.
    destruct (fst acc !! key) as [item|] eqn:Ek; cbn [fst];
      rewrite lookup_insert_eq; cbn [mbind option_bind];
      rewrite operationOf_setOperation;
      destruct (decide (r_httpMethod (snd cr) = m)) as [Hm|Hm].
    + rewrite bool_decide_eq_true_2 by (split; [reflexivity | exact Hm]).
      reflexivity.
    + rewrite bool_decide_eq_false_2 by (intros [_ H]; exact (Hm H)).
      reflexivity.
    + rewrite bool_decide_eq_true_2 by (split; [reflexivity | exact Hm]).
      reflexivity.
    + rewrite bool_decide_eq_false_2 by (intros [_ H]; exact (Hm H)).
      destruct m; reflexivity.
  - rewrite bool_decide_eq_false_2 by (intros [H _]; exact (Hne H)).
    destruct (fst acc !! routeFullPath options (fst cr) (snd cr)); cbn [fst].
    + rewrite lookup_insert_ne by exact Hne. reflexivity.
    + case (ObjectPrototype.inherits (snd acc) (routeFullPath options (fst cr) (snd cr))); cbn [fst];
        [reflexivity|].
      rewrite lookup_insert_ne by exact Hne. reflexivity.
Qed.

(** An operation in the paths object after the turn was there before
    or is the operation of the route. *)
Lemma visit_operation (options : AutoDocsOptions)
    (acc : gmap string PathItemObject * ObjectPrototype.Added)
    (cr : ControllerMetadata * RouteMetadata) (key : string) (m : HttpMethod)
    (op : OperationObject) :
  lookupOperation (fst (visit options acc cr)) key m = Some op ->
  lookupOperation (fst acc) key m = Some op
  \/ (documentedAt options key m cr = true
      /\ op = createOperation (snd cr) (fst cr)).
Proof.
  unfold lookupOperation, visit, addRoute, documentedAt.
  destruct (decide (routeFullPath options (fst cr) (snd cr) = key)) as [E|Hne].
  - rewrite E.
    destruct (fst acc !! key) as [item|] eqn:Ek; cbn [fst].
    + rewrite lookup_insert_eq. cbn [mbind option_bind].
      rewrite operationOf_setOperation.
      destruct (decide (r_httpMethod (snd cr) = m)) as [Hm|Hm].
      * intros [= <-]. right. split; [|reflexivity].
        apply bool_decide_eq_true_2. split; [reflexivity | assumption].
      * intros H. left. exact H.
    + destruct (ObjectPrototype.inherits (snd acc) key); cbn [fst].
      * rewrite Ek. discriminate.
      * rewrite lookup_insert_eq. cbn [mbind option_bind].
        rewrite operationOf_setOperation.
        destruct (decide (r_httpMethod (snd cr) = m)) as [Hm|Hm].
        -- intros [= <-]. right. split; [|reflexivity].
           apply bool_decide_eq_true_2. split; [reflexivity | assumption].
        -- destruct m; discriminate.
  - destruct (fst acc !! routeFullPath options (fst cr) (snd cr)); cbn [fst].
    + rewrite lookup_insert_ne by exact Hne. intros H. left. exact H.
    + case (ObjectPrototype.inherits (snd acc) (routeFullPath options (fst cr) (snd cr))); cbn [fst].
      * intros H. left. exact H.
      * rewrite lookup_insert_ne by exact Hne. intros H. left. exact H.
Qed.

Lemma visit_keys (options : AutoDocsOptions)
    (acc : gmap string PathItemObject * ObjectPrototype.Added)
    (cr : ControllerMetadata * RouteMetadata) (key : string) :
  is_Some (fst (visit options acc cr) !! key) ->
  is_Some (fst acc !! key)
  \/ key = routeFullPath options (fst cr) (snd cr).
Proof.
  unfold visit, addRoute.
  destruct (decide (routeFullPath options (fst cr) (snd cr) = key)) as [E|Hne];
    [intros _; right; symmetry; exact E|].
  destruct (fst acc !! routeFullPath options (fst cr) (snd cr)); cbn [fst].
  - rewrite lookup_insert_ne by exact Hne. intros H. left. exact H.
  - case (ObjectPrototype.inherits (snd acc) (routeFullPath options (fst cr) (snd cr))); cbn [fst].
    + intros H. left. exact H.
    + rewrite lookup_insert_ne by exact Hne. intros H. left. exact H.
Qed.

(** The name of an inherited member that is no key does not become
    one. *)
Lemma visit_absent (options : AutoDocsOptions)
    (acc : gmap string PathItemObject * ObjectPrototype.Added)
    (cr : ControllerMetadata * RouteMetadata) (key : string) :
  ObjectPrototype.inherits (snd acc) key = true ->
  fst acc !! key = None ->
  fst (visit options acc cr) !! key = None.
Proof.
  intros Hin Hk. unfold visit, addRoute.
  destruct (decide (routeFullPath options (fst cr) (snd cr) = key)) as [E|Hne].
  - rewrite E, Hk, Hin. exact Hk.
  - destruct (fst acc !! routeFullPath options (fst cr) (snd cr)); cbn [fst].
    + rewrite lookup_insert_ne by exact Hne. exact Hk.
    + case (ObjectPrototype.inherits (snd acc) (routeFullPath options (fst cr) (snd cr))); cbn [fst];
        [exact Hk|].
      rewrite lookup_insert_ne by exact Hne. exact Hk.
Qed.

(** *** The loops *)

Lemma generatePaths_routeList (controllers : list ControllerMetadata)
    (options : AutoDocsOptions) (added : ObjectPrototype.Added) :
  generatePaths controllers options added =
  fold_left (visit options) (routeList controllers) (∅, added).
Proof.
  unfold generatePaths, routeList.
  generalize ((∅, added) : gmap string PathItemObject * ObjectPrototype.Added).
  induction controllers as [|c cs IH]; intros acc; simpl; [reflexivity|].
  rewrite fold_left_app, IH. f_equal.
  unfold addController. generalize (c_routes c) as rs. intros rs. revert acc.
  induction rs as [|r rs IHr]; intros acc; simpl; [reflexivity|].
  apply IHr.
Qed.

Lemma routeList_elem_of (controllers : list ControllerMetadata)
    (c : ControllerMetadata) (r : RouteMetadata) :
  In (c, r) (routeList controllers) <-> In c controllers /\ In r (c_routes c).
Proof.
  unfold routeList. rewrite List.in_flat_map. split.
  - intros (c' & Hc' & Hin). apply List.in_map_iff in Hin as (r' & E & Hr').
    injection E as -> ->. split; assumption.
  - intros [Hc Hr]. exists c. split; [exact Hc|]. apply List.in_map, Hr.
Qed.

Lemma fold_added (options : AutoDocsOptions)
    (l : list (ControllerMetadata * RouteMetadata))
    (acc : gmap string PathItemObject * ObjectPrototype.Added) (key : string) :
  ObjectPrototype.inherits (snd acc) key = true ->
  ObjectPrototype.inherits (snd (fold_left (visit options) l acc)) key = true.
Proof.
  revert acc. induction l as [|cr l IH]; intros acc H; simpl; [exact H|].
  apply IH, visit_added, H.
Qed.

Lemma fold_lookup (options : AutoDocsOptions)
    (l : list (ControllerMetadata * RouteMetadata))
    (acc : gmap string PathItemObject * ObjectPrototype.Added)
    (key : string) (m : HttpMethod) :
  ObjectPrototype.inherits (snd (fold_left (visit options) l acc)) key = false ->
  lookupOperation (fst (fold_left (visit options) l acc)) key m =
  match last (List.filter (documentedAt options key m) l) with
  | Some cr => Some (createOperation (snd cr) (fst cr))
  | None => lookupOperation (fst acc) key m
  end.
Proof.
  revert acc. induction l as [|cr l IH]; intros acc Hfree; simpl;
    [reflexivity|].
  simpl in Hfree. rewrite (IH _ Hfree).
  assert (Hstep : ObjectPrototype.inherits (snd (visit options acc cr)) key = false).
  { destruct (ObjectPrototype.inherits (snd (visit options acc cr)) key) eqn:E;
      [|reflexivity].
    rewrite (fold_added options l _ key E) in Hfree. discriminate. }
  rewrite (visit_lookup options acc cr key m Hstep).
  destruct (documentedAt options key m cr); [|reflexivity].
  rewrite last_cons.
  destruct (last (List.filter (documentedAt options key m) l)); reflexivity.
Qed.

Lemma fold_operation (options : AutoDocsOptions)
    (l : list (ControllerMetadata * RouteMetadata))
    (acc : gmap string PathItemObject * ObjectPrototype.Added)
    (key : string) (m : HttpMethod) (op : OperationObject) :
  lookupOperation (fst (fold_left (visit options) l acc)) key m = Some op ->
  lookupOperation (fst acc) key m = Some op
  \/ exists cr, In cr l /\ documentedAt options key m cr = true
                /\ op = createOperation (snd cr) (fst cr).
Proof.
  revert acc. induction l as [|cr l IH]; intros acc H; simpl in *;
    [left; exact H|].
  destruct (IH _ H) as [H'|(cr' & Hin & Hd & ->)].
  - destruct (visit_operation options acc cr key m op H') as [H''|[Hd ->]].
    + left. exact H''.
    + right. exists cr. split; [left; reflexivity | split; [exact Hd | reflexivity]].
  - right. exists cr'. split; [right; exact Hin | split; [exact Hd | reflexivity]].
Qed.

Lemma fold_keys (options : AutoDocsOptions)
    (l : list (ControllerMetadata * RouteMetadata))
    (acc : gmap string PathItemObject * ObjectPrototype.Added) (key : string) :
  is_Some (fst (fold_left (visit options) l acc) !! key) ->
  is_Some (fst acc !! key)
  \/ exists cr, In cr l /\ key = routeFullPath options (fst cr) (snd cr).
Proof.
  revert acc. induction l as [|cr l IH]; intros acc H; simpl in *;
    [left; exact H|].
  destruct (IH _ H) as [H'|(cr' & Hin & ->)].
  - destruct (visit_keys options acc cr key H') as [H''| ->].
    + left. exact H''.
    + right. exists cr. split; [left; reflexivity | reflexivity].
  - right. exists cr'. split; [right; exact Hin | reflexivity].
Qed.

Lemma fold_absent (options : AutoDocsOptions)
    (l : list (ControllerMetadata * RouteMetadata))
    (acc : gmap string PathItemObject * ObjectPrototype.Added) (key : string) :
  ObjectPrototype.inherits (snd acc) key = true ->
  fst acc !! key = None ->
  fst (fold_left (visit options) l acc) !! key = None.
Proof.
  revert acc. induction l as [|cr l IH]; intros acc Hin Hk; simpl; [exact Hk|].
  apply IH; [apply visit_added, Hin | apply visit_absent; assumption].
Qed.

(** *** [generatePaths] *)

Lemma generatePaths_keys controllers options added key :
  is_Some (fst (generatePaths controllers options added) !! key) ->
  exists controller route,
    controller ∈ controllers /\ route ∈ c_routes controller
    /\ key = routeFullPath options controller route.
Proof.
  rewrite generatePaths_routeList. intros H.
  apply fold_keys in H as [[x Hx]|([c r] & Hin & ->)].
  - cbn [fst] in Hx. rewrite lookup_empty in Hx. discriminate.
  - apply routeList_elem_of in Hin as [Hc Hr].
    exists c, r. rewrite !list_elem_of_In. repeat split; assumption.
Qed.

Lemma generatePaths_lookup controllers options added key m :
  ObjectPrototype.inherits (snd (generatePaths controllers options added)) key
    = false ->
  lookupOperation (fst (generatePaths controllers options added)) key m =
  (fun cr => createOperation (snd cr) (fst cr))
    <$> last (List.filter (documentedAt options key m) (routeList controllers)).
Proof.
  rewrite generatePaths_routeList. intros H. rewrite (fold_lookup _ _ _ _ _ H).
  unfold lookupOperation. cbn [fst]. rewrite lookup_empty.
  destruct (last _); reflexivity.
Qed.

Lemma generatePaths_operation controllers options added key m op :
  lookupOperation (fst (generatePaths controllers options added)) key m = Some op ->
  exists c r,
    In c controllers /\ In r (c_routes c)
    /\ routeFullPath options c r = key /\ r_httpMethod r = m
    /\ op = createOperation r c.
Proof.
  rewrite generatePaths_routeList. intros H.
  apply fold_operation in H as [H|([c r] & Hin & Hd & ->)].
  - unfold lookupOperation in H. cbn [fst] in H. rewrite lookup_empty in H.
    discriminate.
  - apply routeList_elem_of in Hin as [Hc Hr].
    unfold documentedAt in Hd. apply bool_decide_eq_true_1 in Hd as [Hk Hm].
    exists c, r. repeat split; assumption.
Qed.

Lemma generatePaths_absent controllers options added key :
  ObjectPrototype.inherits added key = true ->
  fst (generatePaths controllers options added) !! key = None.
Proof.
  rewrite generatePaths_routeList. intros H.
  apply fold_absent; [exact H | apply lookup_empty].
Qed.

(** A route whose path template is not inherited at the end of the
    loops has an operation in the paths object, under its verb. *)
Lemma generatePaths_documents controllers options added c r :
  In c controllers -> In r (c_routes c) ->
  ObjectPrototype.inherits (snd (generatePaths controllers options added))
    (routeFullPath options c r) = false ->
  is_Some (lookupOperation (fst (generatePaths controllers options added))
             (routeFullPath options c r) (r_httpMethod r)).
Proof.
  intros Hc Hr Hfree. rewrite (generatePaths_lookup _ _ _ _ _ Hfree).
  assert (Hin : In (c, r)
                  (List.filter
                     (documentedAt options (routeFullPath options c r)
                        (r_httpMethod r))
                     (routeList controllers))).
  { apply List.filter_In. split; [apply routeList_elem_of; split; assumption|].
    apply bool_decide_eq_true_2. split; reflexivity. }
  destruct (List.filter _ (routeList controllers)) as [|x l] eqn:E;
    [destruct Hin|].
  destruct (last (x :: l)) eqn:El.
  - simpl. eauto.
  - apply last_None in El. discriminate.
Qed.

(** [Object.prototype] is written to only through the path template
    [__proto__]. *)
Lemma generatePaths_added controllers options added :
  (forall c r, In c controllers -> In r (c_routes c) ->
               routeFullPath options c r <> "__proto__") ->
  snd (generatePaths controllers options added) = added.
Proof.
  rewrite generatePaths_routeList. intros H.
  assert (G : forall l acc,
            (forall cr, In cr l ->
                        routeFullPath options (fst cr) (snd cr) <> "__proto__") ->
            snd (fold_left (visit options) l acc) = snd acc).
  { induction l as [|cr l IH]; intros acc Hl; [reflexivity|].
    cbn [fold_left]. rewrite IH by (intros x Hx; apply Hl; right; exact Hx).
    unfold visit, addRoute.
    case (fst acc !! routeFullPath options (fst cr) (snd cr));
      [reflexivity|].
    case (ObjectPrototype.inherits (snd acc)
            (routeFullPath options (fst cr) (snd cr))); [|reflexivity].
    cbn [snd].
    destruct (String.eqb_spec (routeFullPath options (fst cr) (snd cr))
                "__proto__") as [E|_]; [|reflexivity].
    exfalso. exact (Hl cr (or_introl eq_refl) E). }
  rewrite G; [reflexivity|].
  intros [c r] Hin. apply routeList_elem_of in Hin as [Hc Hr].
  apply H; assumption.
Qed.

Lemma lookupOperation_key (paths : gmap string PathItemObject)
    (key : string) (m : HttpMethod) :
  is_Some (lookupOperation paths key m) -> is_Some (paths !! key).
Proof.
  unfold lookupOperation. destruct (paths !! key); [eauto|].
  intros [x Hx]. discriminate.
Qed.

End PathsMap.

(* ===================================================================== *)
(** ** The specification assembler                                       *)
(* ===================================================================== *)

Module OpenApiGeneratorFacts.
Import OpenApiGenerator.

(** C1 (as stated, refuted): in the versioned scenario the claimed key
    [/api/v1/admin/profile], with its leading separator, is not a key of
    the paths map. *)
Lemma scenario_key_has_no_leading_separator :
  spec_paths Examples.scenarioSpec !! "/api/v1/admin/profile" = None
  /\ dom (spec_paths Examples.scenarioSpec) <> {["/api/v1/admin/profile"]}.
Proof.
  split; [vm_compute; reflexivity|].
  intros H.
  assert (Hin : "api/v1/admin/profile" ∈ dom (spec_paths Examples.scenarioSpec)).
  { apply elem_of_dom. vm_compute. eexists. reflexivity. }
  rewrite H in Hin. apply elem_of_singleton in Hin. discriminate.
Qed.

(** C1 (amended): one controller at base path [admin], category [Admin],
    version [v1], with one GET route at [profile]; versioning enabled
    with prefix [/api] and no explicit server list.  The paths map has
    exactly the key [api/v1/admin/profile] (no leading separator), it
    holds the GET operation of the route, the tag list is the single tag
    [Admin], and the server list is the single server [/api/v1],
    [API V1]. *)
Theorem scenario_admin_profile
    (localeCompare : string -> string -> Z)
    (controller : ControllerMetadata) (route : RouteMetadata)
    (options : AutoDocsOptions) (versioning : VersioningConfig) (st : State) :
  c_path controller = "admin" ->
  c_category controller = "Admin" ->
  c_version controller = Some "v1" ->
  c_routes controller = [route] ->
  r_httpMethod route = GET ->
  r_path route = "profile" ->
  o_versioning options = Some versioning ->
  vg_enabled versioning = true ->
  vg_prefix versioning = Some "/api" ->
  o_servers options = None ->
  let spec := fst (generate localeCompare [controller] options st) in
  dom (spec_paths spec) = {["api/v1/admin/profile"]}
  /\ spec_paths spec !! "api/v1/admin/profile" =
       Some (setOperation GET (createOperation route controller) empty_path_item)
  /\ map tag_name (spec_tags spec) = ["Admin"]
  /\ spec_servers spec =
       [{| srv_url := "/api/v1"; srv_description := Some "API V1" |}].
Proof.
  intros Hpath Hcat Hver Hroutes Hm Hrp Hv Hen Hpre Hsrv spec.
  assert (Hfull : routeFullPath options controller route = "api/v1/admin/profile").
  { unfold routeFullPath, routeSegments, versioning_enabled.
    rewrite Hv, Hver, Hpath, Hrp. simpl. rewrite Hen, Hpre. reflexivity. }
  assert (Hpaths : spec_paths spec =
            {["api/v1/admin/profile" :=
                setOperation GET (createOperation route controller) empty_path_item]}).
  { subst spec. cbn [generate fst spec_paths]. unfold generatePaths.
    cbn [fold_left]. unfold addController. rewrite Hroutes. cbn [fold_left].
    unfold addRoute. cbn [fst snd]. rewrite Hfull, Hm, lookup_empty.
    rewrite (PathsMap.not_reserved (added st) "api/v1/admin/profile" eq_refl).
    reflexivity. }
  repeat split.
  - rewrite Hpaths. apply dom_singleton_L.
  - rewrite Hpaths. apply lookup_singleton_eq.
  - subst spec. simpl. unfold generateTags. simpl. unfold addTag.
    rewrite Hcat. simpl. reflexivity.
  - subst spec. simpl. rewrite Hsrv.
    unfold generateDefaultServers, versioning_enabled, detectedVersions.
    rewrite Hv, Hen. simpl. rewrite Hver, Hpre. reflexivity.
Qed.

Lemma scenario_admin_profile_witness :
  dom (spec_paths Examples.scenarioSpec) = {["api/v1/admin/profile"]}
  /\ spec_paths Examples.scenarioSpec !! "api/v1/admin/profile" =
       Some (setOperation GET
               (createOperation Examples.getProfile Examples.adminController)
               empty_path_item)
  /\ map tag_name (spec_tags Examples.scenarioSpec) = ["Admin"]
  /\ spec_servers Examples.scenarioSpec =
       [{| srv_url := "/api/v1"; srv_description := Some "API V1" |}].
Proof.
  apply (scenario_admin_profile Js.compare_strings Examples.adminController
           Examples.getProfile Examples.versionedOptions
           {| vg_enabled := true; vg_prefix := Some "/api"; vg_fallback := None |}
           initial); reflexivity.
Defined.

(** C2: the three versioning branches of the path of a route.  With
    versioning enabled and a detected version the path is made of the
    versioning prefix (default [/api]), the version, the controller path
    and the route path, whatever fallback is configured; the fallback is
    used when versioning is enabled and the controller has no version;
    in every other case the global prefix (possibly empty) is used.  The
    path so built is the key under which the paths object holds an
    operation for the verb of the route, unless a plain object inherits
    a property of that name from [Object.prototype] when the loops end;
    a name inherited from the start is no key of the paths object. *)
Theorem versioning_precedence
    (options : AutoDocsOptions) (controller : ControllerMetadata)
    (route : RouteMetadata) :
  (forall version,
      versioning_enabled options = true ->
      c_version controller = Some version -> version <> "" ->
      routeFullPath options controller route =
      Js.replace_params
        (combinePaths
           [Js.or_default (o_versioning options ≫= vg_prefix) "/api";
            version; c_path controller; r_path route]))
  /\ (forall fallback,
        versioning_enabled options = true ->
        Js.truthy_opt (c_version controller) = false ->
        o_versioning options ≫= vg_fallback = Some fallback ->
        fallback <> "" ->
        routeFullPath options controller route =
        Js.replace_params
          (combinePaths [fallback; c_path controller; r_path route]))
  /\ (versioning_enabled options = false
       \/ (Js.truthy_opt (c_version controller) = false
           /\ Js.truthy_opt (o_versioning options ≫= vg_fallback) = false) ->
       routeFullPath options controller route =
       Js.replace_params
         (combinePaths
            [Js.or_default (o_globalPrefix options) "";
             c_path controller; r_path route]))
  /\ (forall controllers added,
        controller ∈ controllers -> route ∈ c_routes controller ->
        ObjectPrototype.inherits
          (snd (generatePaths controllers options added))
          (routeFullPath options controller route) = false ->
        is_Some (Derived.lookupOperation
                   (fst (generatePaths controllers options added))
                   (routeFullPath options controller route)
                   (r_httpMethod route)))
  /\ (forall controllers added,
        Derived.reserved (routeFullPath options controller route) = false ->
        ObjectPrototype.inherits
          (snd (generatePaths controllers options added))
          (routeFullPath options controller route) = false)
  /\ (forall controllers added,
        ObjectPrototype.inherits added
          (routeFullPath options controller route) = true ->
        fst (generatePaths controllers options added)
          !! routeFullPath options controller route = None).
Proof.
  split; [|split; [|split; [|split; [|split]]]].
  - unfold routeFullPath, routeSegments.
    intros version -> -> Hne. destruct version; [congruence|]. reflexivity.
  - unfold routeFullPath, routeSegments.
    intros fallback -> -> -> Hne. destruct fallback; [congruence|]. reflexivity.
  - unfold routeFullPath, routeSegments.
    intros [->|[-> ->]]; [reflexivity|].
    destruct (versioning_enabled options); reflexivity.
  - intros controllers added Hc Hr Hfree.
    apply PathsMap.generatePaths_documents;
      [apply list_elem_of_In, Hc | apply list_elem_of_In, Hr | exact Hfree].
  - intros controllers added Hres. apply PathsMap.not_reserved, Hres.
  - intros controllers added Hin. apply PathsMap.generatePaths_absent, Hin.
Qed.

(** With version [v1] and fallback [/legacy] the detected version wins;
    without a version the fallback is used; without versioning the
    global prefix is used.  The path [api/v1/admin/profile] holds the
    operation of the route; the path [constructor] is no key. *)
Lemma versioning_precedence_witness :
  routeFullPath Examples.legacyOptions Examples.adminController
    Examples.getProfile = "api/v1/admin/profile"
  /\ routeFullPath Examples.legacyOptions
       (Examples.controller None [Examples.getProfile])
       Examples.getProfile = "legacy/admin/profile"
  /\ routeFullPath Examples.prefixOptions Examples.adminController
       Examples.getProfile = "api/v1/admin/profile"
  /\ is_Some (Derived.lookupOperation
                (fst (generatePaths [Examples.adminController]
                        Examples.legacyOptions []))
                "api/v1/admin/profile" GET)
  /\ fst (generatePaths [Examples.constructorController]
            Examples.plainOptions [])
       !! "constructor" = None.
Proof.
  pose proof (versioning_precedence Examples.legacyOptions
                Examples.adminController Examples.getProfile)
    as (H1 & _ & _ & H4 & H5 & _).
  pose proof (versioning_precedence Examples.legacyOptions
                (Examples.controller None [Examples.getProfile])
                Examples.getProfile) as (_ & H2 & _ & _).
  pose proof (versioning_precedence Examples.prefixOptions
                Examples.adminController Examples.getProfile) as (_ & _ & H3 & _).
  pose proof (versioning_precedence Examples.plainOptions
                Examples.constructorController Examples.getRoot)
    as (_ & _ & _ & _ & _ & H6).
  split; [|split; [|split; [|split]]].
  - rewrite (H1 "v1"); [reflexivity | reflexivity | reflexivity | discriminate].
  - rewrite (H2 "/legacy"); [reflexivity | reflexivity | reflexivity | reflexivity | discriminate].
  - rewrite H3; [reflexivity | left; reflexivity].
  - apply (H4 [Examples.adminController] []); [left | left |].
    apply (H5 [Examples.adminController] []). reflexivity.
  - apply (H6 [Examples.constructorController] []). reflexivity.
Defined.

(** C3: placeholders are rewritten after the combination.  Every key of
    the paths object is the rewriting of the combined path of a route
    and contains no colon directly followed by a word character; and
    the rewriting of the combined path of a route is a key of the paths
    object (unless a plain object inherits a property of that name from
    [Object.prototype], which no text with a separator or a brace is).
    A colon followed by a name becomes the name in braces, the text
    before and after it being rewritten on its own (so the order of
    placeholders is kept); the route path with two placeholders gives
    the key with both in brace form, holding the operation of the
    route. *)
Theorem placeholders_rewritten :
  (forall controllers options added key,
      is_Some (fst (generatePaths controllers options added) !! key) ->
      Js.has_colon_token key = false
      /\ exists controller route,
           controller ∈ controllers /\ route ∈ c_routes controller
           /\ key = Js.replace_params
                      (combinePaths (routeSegments options controller route)))
  /\ (forall controllers options added controller route,
        controller ∈ controllers -> route ∈ c_routes controller ->
        Derived.reserved
          (Js.replace_params
             (combinePaths (routeSegments options controller route))) = false ->
        is_Some (fst (generatePaths controllers options added)
                   !! Js.replace_params
                        (combinePaths (routeSegments options controller route))))
  /\ (forall text,
        Js.has_char (fun c => Js.is_slash c || Ascii.eqb c "{") text = true ->
        Derived.reserved text = false)
  /\ (forall pre name rest,
        Js.all_word name = true -> name <> "" ->
        Js.starts_with Js.is_word rest = false ->
        Js.replace_params (pre +:+ String ":" (name +:+ rest)) =
        Js.replace_params pre
          +:+ String "{" (name +:+ String "}" (Js.replace_params rest)))
  /\ (forall added,
        let controller := Examples.controller None [Examples.getResource] in
        let paths :=
          fst (generatePaths [controller] Examples.prefixOptions added) in
        dom paths = {["api/v1/admin/{userId}/resource/{resourceId}"]}
        /\ Derived.lookupOperation paths
             "api/v1/admin/{userId}/resource/{resourceId}" GET
           = Some (createOperation Examples.getResource controller)).
Proof.
  split; [|split; [|split; [|split]]].
  - intros controllers options added key Hkey.
    apply PathsMap.generatePaths_keys in Hkey as (c & r & Hc & Hr & ->).
    split.
    + apply JsFacts.replace_params_from_no_token.
    + exists c, r. repeat split; assumption.
  - intros controllers options added c r Hc Hr Hres.
    apply (PathsMap.lookupOperation_key _ _ (r_httpMethod r)).
    apply PathsMap.generatePaths_documents;
      [apply list_elem_of_In, Hc | apply list_elem_of_In, Hr |].
    apply PathsMap.not_reserved, Hres.
  - intros text Htext. unfold Derived.reserved.
    apply not_true_is_false. intros H.
    apply existsb_exists in H as (name & Hin & Heq).
    apply String.eqb_eq in Heq. subst name.
    cbn in Hin.
    repeat (destruct Hin as [<-|Hin]; [discriminate Htext|]).
    destruct Hin.
  - apply JsFacts.replace_params_placeholder.
  - intros added controller paths.
    assert (Hpaths : paths =
              {["api/v1/admin/{userId}/resource/{resourceId}" :=
                  setOperation GET
                    (createOperation Examples.getResource controller)
                    empty_path_item]}).
    { subst paths. unfold generatePaths. cbn [fold_left].
      unfold addController. subst controller. cbn [fold_left c_routes Examples.controller].
      unfold addRoute. cbn [fst snd].
      change (routeFullPath Examples.prefixOptions
                (Examples.controller None [Examples.getResource])
                Examples.getResource)
        with "api/v1/admin/{userId}/resource/{resourceId}".
      rewrite lookup_empty.
      rewrite (PathsMap.not_reserved added
                 "api/v1/admin/{userId}/resource/{resourceId}" eq_refl).
      reflexivity. }
    rewrite Hpaths. split; [apply dom_singleton_L|].
    unfold Derived.lookupOperation. rewrite lookup_singleton_eq. reflexivity.
Qed.

Lemma placeholders_rewritten_witness :
  Js.has_colon_token "api/v1/admin/{userId}/resource/{resourceId}" = false
  /\ is_Some (fst (generatePaths
                     [Examples.controller None [Examples.getResource]]
                     Examples.prefixOptions [])
                !! "api/v1/admin/{userId}/resource/{resourceId}")
  /\ Derived.reserved "api/v1/admin/{userId}" = false
  /\ Js.replace_params (":userId" +:+ String ":" ("resourceId" +:+ "/x")) =
     "{userId}{resourceId}/x".
Proof.
  destruct placeholders_rewritten as (H1 & H2 & H3 & H4 & _).
  assert (Hkey : is_Some (fst (generatePaths
                     [Examples.controller None [Examples.getResource]]
                     Examples.prefixOptions [])
                !! "api/v1/admin/{userId}/resource/{resourceId}")).
  { apply (H2 [Examples.controller None [Examples.getResource]]
              Examples.prefixOptions []
              (Examples.controller None [Examples.getResource])
              Examples.getResource); [left | left | reflexivity]. }
  split; [|split; [|split]].
  - apply (H1 [Examples.controller None [Examples.getResource]]
              Examples.prefixOptions [] _ Hkey).
  - exact Hkey.
  - apply H3. reflexivity.
  - rewrite (H4 ":userId" "resourceId" "/x");
      [reflexivity | reflexivity | discriminate | reflexivity].
Defined.

End OpenApiGeneratorFacts.

(* ===================================================================== *)
(** ** Path combination                                                  *)
(* ===================================================================== *)

Module PathCombination.
Import Js JsFacts.

Lemma collapse_slashes_plain (s : string) :
  has_char is_slash s = false -> collapse_slashes s = s.
Proof.
  induction s as [|c s IH]; simpl; [reflexivity|].
  intros H. apply orb_false_elim in H as [Hc Hs].
  rewrite Hc. simpl. rewrite (IH Hs). reflexivity.
Qed.

Lemma collapse_slashes_joint (a b : string) :
  has_char is_slash a = false -> has_char is_slash b = false ->
  collapse_slashes (a +:+ "/" +:+ b) = a +:+ "/" +:+ b.
Proof.
  intros Ha Hb. change ("/" +:+ b) with (String "/" b).
  induction a as [|c a IH].
  - rewrite app_nil_l. simpl.
    assert (Hs : starts_with is_slash b = false).
    { destruct b as [|d b]; [reflexivity|]. simpl in *.
      apply orb_false_elim in Hb as [Hd _]. exact Hd. }
    rewrite Hs. simpl. rewrite (collapse_slashes_plain b Hb). reflexivity.
  - simpl in Ha. apply orb_false_elim in Ha as [Hc Ha].
    rewrite app_cons. simpl. rewrite Hc. simpl. rewrite (IH Ha). reflexivity.
Qed.

Lemma plain_segment_trim (s : string) :
  plain_segment s = true -> trim s = s.
Proof.
  unfold plain_segment, trim. intros H.
  apply andb_prop in H as [H He]. apply andb_prop in H as [_ Hs].
  apply negb_true_iff in He, Hs.
  rewrite (drop_leading_id _ _ Hs). apply drop_trailing_id, He.
Qed.

Lemma plain_segment_kept (s : string) :
  plain_segment s = true ->
  truthy s && negb (String.eqb s "/") = true
  /\ has_char is_slash s = false.
Proof.
  unfold plain_segment. intros H.
  apply andb_prop in H as [H _]. apply andb_prop in H as [H _].
  apply andb_prop in H as [Ht Hn]. apply negb_true_iff in Hn.
  split; [|exact Hn]. rewrite Ht. simpl.
  destruct (String.eqb_spec s "/") as [->|]; [discriminate Hn | reflexivity].
Qed.

Lemma combinePaths_no_leading_separator (segments : list string) :
  starts_with is_slash (OpenApiGenerator.combinePaths segments) = false.
Proof.
  unfold OpenApiGenerator.combinePaths. rewrite filter_truthy_strip.
  unfold filter_truthy, join.
  induction segments as [|s l IH]; simpl; [reflexivity|].
  destruct (truthy (strip_slashes s)) eqn:Et; [|exact IH].
  simpl.
  assert (Hs : starts_with is_slash (strip_slashes s) = false)
    by apply strip_slashes_starts.
  destruct (List.filter truthy (map strip_slashes l)); [exact Hs|].
  rewrite starts_with_app.
  destruct (strip_slashes s); [discriminate Et | exact Hs].
Qed.

(** *** Runs of separators between the two segments of the scanner *)

Lemma ends_with_tail (p : ascii -> bool) (c : ascii) (s : string) :
  s <> "" -> ends_with p (String c s) = ends_with p s.
Proof. destruct s; [congruence | reflexivity]. Qed.

Lemma ends_with_app_r (p : ascii -> bool) (a b : string) :
  b <> "" -> ends_with p (a +:+ b) = ends_with p b.
Proof.
  intros Hb. induction a as [|c a IH]; [rewrite app_nil_l; reflexivity|].
  rewrite app_cons, ends_with_tail; [exact IH|].
  destruct a; [rewrite app_nil_l; exact Hb | rewrite app_cons; discriminate].
Qed.

Lemma ends_with_slashes (n : nat) :
  ends_with is_space (slashes (S n)) = false.
Proof.
  induction n as [|n IH]; [reflexivity|].
  change (slashes (S (S n))) with (String "/" (slashes (S n))).
  rewrite ends_with_tail; [exact IH | discriminate].
Qed.

Lemma slashes_shift (n : nat) (r : string) :
  slashes n +:+ String "/" r = String "/" (slashes n +:+ r).
Proof.
  induction n as [|n IH]; [rewrite !app_nil_l; reflexivity|].
  cbn [slashes]. rewrite !app_cons, IH. reflexivity.
Qed.

Lemma collapse_slashes_run (n : nat) (r : string) :
  collapse_slashes (slashes n +:+ String "/" r) = collapse_slashes (String "/" r).
Proof.
  induction n as [|n IH]; [rewrite app_nil_l; reflexivity|].
  cbn [slashes]. rewrite app_cons.
  change (collapse_slashes (String "/" (slashes n +:+ String "/" r)))
    with (if is_slash "/" && starts_with is_slash (slashes n +:+ String "/" r)
          then collapse_slashes (slashes n +:+ String "/" r)
          else String "/" (collapse_slashes (slashes n +:+ String "/" r))).
  assert (Hs : starts_with is_slash (slashes n +:+ String "/" r) = true).
  { rewrite slashes_shift. reflexivity. }
  rewrite Hs. exact IH.
Qed.

Lemma collapse_slashes_context (x z z' : string) :
  starts_with is_slash z = starts_with is_slash z' ->
  collapse_slashes z = collapse_slashes z' ->
  collapse_slashes (x +:+ z) = collapse_slashes (x +:+ z').
Proof.
  intros Hs Hc. induction x as [|c x IH]; [rewrite !app_nil_l; exact Hc|].
  rewrite !app_cons. cbn [collapse_slashes]. rewrite IH.
  assert (E : starts_with is_slash (x +:+ z) = starts_with is_slash (x +:+ z')).
  { destruct x; [rewrite !app_nil_l; exact Hs | rewrite !app_cons; reflexivity]. }
  rewrite E. reflexivity.
Qed.

Lemma clean_segment_parts (s : string) :
  clean_segment s = true ->
  s <> "" /\ starts_with is_slash s = false /\ ends_with is_slash s = false
  /\ starts_with is_space s = false /\ ends_with is_space s = false.
Proof.
  unfold clean_segment. intros H.
  apply andb_prop in H as [H H5]. apply andb_prop in H as [H H4].
  apply andb_prop in H as [H H3]. apply andb_prop in H as [H1 H2].
  apply negb_true_iff in H2, H3, H4, H5.
  repeat split; try assumption. intros ->. discriminate H1.
Qed.

Lemma trim_id (s : string) :
  starts_with is_space s = false -> ends_with is_space s = false -> trim s = s.
Proof.
  intros Hs He. unfold trim. rewrite (drop_leading_id _ _ Hs).
  apply drop_trailing_id, He.
Qed.

(** The scanner's combination with runs of separators after the base
    and before the path. *)
Lemma scanner_runs (base path : string) (i j : nat) :
  clean_segment base = true -> clean_segment path = true ->
  RouteScanner.combinePaths (base +:+ slashes i) (slashes j +:+ path) =
  "/" +:+ collapse_slashes (base +:+ "/" +:+ path).
Proof.
  intros Hb Hp.
  destruct (clean_segment_parts _ Hb) as (Hbne & Hbs & Hbe & Hbws & Hbwe).
  destruct (clean_segment_parts _ Hp) as (Hpne & Hps & Hpe & Hpws & Hpwe).
  destruct base as [|cb base']; [congruence|].
  set (base := String cb base') in *.
  assert (Hcb : is_slash cb = false) by exact Hbs.
  assert (Hcw : is_space cb = false) by exact Hbws.
  (* the first argument *)
  assert (Ha : base +:+ slashes i = String cb (base' +:+ slashes i))
    by (subst base; apply app_cons).
  assert (Hat : trim (base +:+ slashes i) = base +:+ slashes i).
  { apply trim_id; [rewrite Ha; exact Hcw|].
    destruct i as [|i]; [cbn [slashes]; rewrite app_nil_r; exact Hbwe|].
    rewrite ends_with_app_r by discriminate. apply ends_with_slashes. }
  assert (Hak : truthy (base +:+ slashes i)
                && negb (String.eqb (base +:+ slashes i) "/") = true).
  { rewrite Ha. cbn [truthy andb].
    destruct (String.eqb_spec (String cb (base' +:+ slashes i)) "/") as [E|_];
      [|reflexivity].
    injection E as -> _. discriminate Hcb. }
  (* the second argument *)
  assert (Hbne' : slashes j +:+ path <> "").
  { destruct j; [rewrite app_nil_l; exact Hpne | cbn [slashes]; rewrite app_cons; discriminate]. }
  assert (Hbt : trim (slashes j +:+ path) = slashes j +:+ path).
  { apply trim_id.
    - destruct j; [rewrite app_nil_l; exact Hpws | cbn [slashes]; rewrite app_cons; reflexivity].
    - rewrite ends_with_app_r by exact Hpne. exact Hpwe. }
  assert (Hbk : truthy (slashes j +:+ path)
                && negb (String.eqb (slashes j +:+ path) "/") = true).
  { assert (Ht : truthy (slashes j +:+ path) = true).
    { destruct (slashes j +:+ path); [congruence | reflexivity]. }
    rewrite Ht. cbn [andb].
    destruct (String.eqb_spec (slashes j +:+ path) "/") as [E|_]; [|reflexivity].
    assert (He : ends_with is_slash (slashes j +:+ path) = false).
    { rewrite ends_with_app_r by exact Hpne. exact Hpe. }
    rewrite E in He. discriminate He. }
  unfold RouteScanner.combinePaths.
  assert (Ht1 : truthy (base +:+ slashes i) = true)
    by (rewrite Ha; reflexivity).
  assert (Ht2 : truthy (slashes j +:+ path) = true).
  { destruct (slashes j +:+ path); [congruence | reflexivity]. }
  rewrite Ht1, Ht2. cbn [negb andb map List.filter].
  rewrite Hat, Hbt, Hak, Hbk. unfold join. cbn [String.concat].
  f_equal.
  rewrite app_assoc.
  apply collapse_slashes_context.
  - change ("/" +:+ path) with (String "/" path).
    change ("/" +:+ (slashes j +:+ path)) with (String "/" (slashes j +:+ path)).
    rewrite slashes_shift. reflexivity.
  - change ("/" +:+ path) with (String "/" path).
    change ("/" +:+ (slashes j +:+ path)) with (String "/" (slashes j +:+ path)).
    rewrite collapse_slashes_run, <- slashes_shift.
    apply collapse_slashes_run.
Qed.

(** The scanner's combination when the other segment is empty: a run
    of separators before the segment changes nothing. *)
Lemma scanner_single (s : string) (n : nat) :
  clean_segment s = true ->
  RouteScanner.combinePaths "" (slashes n +:+ s) = RouteScanner.combinePaths "" s
  /\ RouteScanner.combinePaths "" s = "/" +:+ collapse_slashes s.
Proof.
  intros Hs. destruct (clean_segment_parts _ Hs) as (Hne & Hss & _).
  unfold RouteScanner.combinePaths.
  assert (Ht : truthy (slashes n +:+ s) = true).
  { destruct n; [rewrite app_nil_l|cbn [slashes]; rewrite app_cons; reflexivity].
    destruct s; [congruence | reflexivity]. }
  assert (Ht' : truthy s = true) by (destruct s; [congruence | reflexivity]).
  rewrite Ht, Ht'. cbn [truthy negb andb].
  change ("/" +:+ (slashes n +:+ s)) with (String "/" (slashes n +:+ s)).
  change ("/" +:+ s) with (String "/" s).
  rewrite <- slashes_shift, collapse_slashes_run.
  split; [reflexivity|].
  cbn [collapse_slashes]. rewrite Hss. reflexivity.
Qed.

Lemma plain_is_clean (s : string) :
  plain_segment s = true -> clean_segment s = true.
Proof.
  unfold plain_segment, clean_segment. intros H.
  apply andb_prop in H as [H H4]. apply andb_prop in H as [H H3].
  apply andb_prop in H as [H1 H2]. apply negb_true_iff in H2.
  rewrite H1, H3, H4. cbn [andb].
  assert (Hs : starts_with is_slash s = false).
  { destruct s; [reflexivity|]. simpl in H2.
    apply orb_false_elim in H2 as [H2 _]. exact H2. }
  assert (He : ends_with is_slash s = false).
  { clear -H2. induction s as [|c s IH]; [reflexivity|].
    simpl in H2. apply orb_false_elim in H2 as [Hc Hs].
    destruct s; [exact Hc|]. rewrite ends_with_tail by discriminate.
    apply IH, Hs. }
  rewrite Hs, He. reflexivity.
Qed.

(** C4 (as stated, refuted): the assembler's combination of empty
    segments is the empty text and not the root path, and the route
    scanner's combination keeps a trailing separator of its last
    segment. *)
Lemma combination_not_normalizing :
  OpenApiGenerator.combinePaths [""; "/"; ""] <> "/"
  /\ RouteScanner.combinePaths "admin" "profile/"
     <> RouteScanner.combinePaths "admin" "profile".
Proof. split; vm_compute; discriminate. Qed.

(** C4 (amended).  The assembler's [combinePaths]: combining the segments
    gives the same text as combining the stripped segments; the result
    is the non-empty stripped segments joined by one separator, none of
    them starting or ending with a separator, so it has no leading
    separator; when every segment is
    empty after stripping the result is the empty text.  The route
    scanner's [combinePaths]: two empty segments give the root path;
    for a base and a path that are not empty and neither start nor end
    with a separator or white space, separators after the base and
    before the path change nothing: the result is that of the two
    segments without them, a separator followed by the base, one
    separator and the path, with runs of separators inside them
    collapsed; when one of the two segments is empty, separators before
    the other change nothing; two plain segments are joined as
    [/base/path]. *)
Theorem combinePaths_normalizing :
  (forall segments,
      OpenApiGenerator.combinePaths (map strip_slashes segments) =
      OpenApiGenerator.combinePaths segments)
  /\ (forall segments,
        OpenApiGenerator.combinePaths segments =
        join "/" (filter_truthy (map strip_slashes segments))
        /\ Forall (fun piece => piece <> ""
                             /\ starts_with is_slash piece = false
                             /\ ends_with is_slash piece = false)
             (filter_truthy (map strip_slashes segments)))
  /\ (forall segments,
        starts_with is_slash (OpenApiGenerator.combinePaths segments) = false)
  /\ (forall segments,
        Forall (fun s => strip_slashes s = "") segments ->
        OpenApiGenerator.combinePaths segments = "")
  /\ RouteScanner.combinePaths "" "" = "/"
  /\ (forall base path i j,
        clean_segment base = true -> clean_segment path = true ->
        RouteScanner.combinePaths (base +:+ slashes i) (slashes j +:+ path) =
        RouteScanner.combinePaths base path
        /\ RouteScanner.combinePaths base path =
           "/" +:+ collapse_slashes (base +:+ "/" +:+ path))
  /\ (forall path j,
        clean_segment path = true ->
        RouteScanner.combinePaths "" (slashes j +:+ path) =
        RouteScanner.combinePaths "" path
        /\ RouteScanner.combinePaths "" path = "/" +:+ collapse_slashes path)
  /\ (forall base i,
        clean_segment base = true ->
        RouteScanner.combinePaths (slashes i +:+ base) "" =
        RouteScanner.combinePaths base ""
        /\ RouteScanner.combinePaths base "" = "/" +:+ collapse_slashes base)
  /\ (forall base path,
        plain_segment base = true -> plain_segment path = true ->
        RouteScanner.combinePaths base path = "/" +:+ base +:+ "/" +:+ path).
Proof.
  split; [|split; [|split; [|split; [|split; [|split; [|split; [|split]]]]]]].
  - intros segments. unfold OpenApiGenerator.combinePaths.
    rewrite !filter_truthy_strip, map_map.
    f_equal. f_equal. apply map_ext. intros s. apply strip_slashes_idem.
  - intros segments. unfold OpenApiGenerator.combinePaths.
    rewrite filter_truthy_strip. split; [reflexivity|].
    unfold filter_truthy. apply List.Forall_forall. intros piece Hin.
    apply List.filter_In in Hin as [Hin Ht].
    apply List.in_map_iff in Hin as (s & <- & _).
    split; [|split].
    + intros E. rewrite E in Ht. discriminate.
    + apply strip_slashes_starts.
    + apply strip_slashes_ends.
  - intros segments. apply combinePaths_no_leading_separator.
  - intros segments Hall. unfold OpenApiGenerator.combinePaths.
    rewrite filter_truthy_strip. unfold filter_truthy.
    induction Hall as [|s l Hs _ IH]; [reflexivity|].
    simpl. rewrite Hs. simpl. exact IH.
  - reflexivity.
  - intros base path i j Hb Hp.
    pose proof (scanner_runs base path 0 0 Hb Hp) as H0.
    cbn [slashes] in H0. rewrite app_nil_r, app_nil_l in H0.
    split; [|exact H0].
    rewrite H0. apply scanner_runs; assumption.
  - intros path j Hp. apply scanner_single, Hp.
  - intros base i Hb.
    destruct (clean_segment_parts _ Hb) as (Hne & _).
    destruct (scanner_single base i Hb) as [E1 E2].
    unfold RouteScanner.combinePaths in *.
    assert (Ht : truthy (slashes i +:+ base) = true).
    { destruct i; [rewrite app_nil_l|cbn [slashes]; rewrite app_cons; reflexivity].
      destruct base; [congruence | reflexivity]. }
    assert (Ht' : truthy base = true) by (destruct base; [congruence | reflexivity]).
    rewrite Ht, Ht' in *. cbn [truthy negb andb] in *.
    split; assumption.
  - intros base path Hb Hp.
    pose proof (scanner_runs base path 0 0 (plain_is_clean _ Hb)
                  (plain_is_clean _ Hp)) as H0.
    cbn [slashes] in H0. rewrite app_nil_r, app_nil_l in H0.
    rewrite H0.
    destruct (plain_segment_kept _ Hb) as [_ Sb].
    destruct (plain_segment_kept _ Hp) as [_ Sp].
    rewrite (collapse_slashes_joint base path Sb Sp). reflexivity.
Qed.

Lemma combinePaths_normalizing_witness :
  OpenApiGenerator.combinePaths ["/"; ""; "//"] = ""
  /\ RouteScanner.combinePaths "admin/" "/profile" =
     RouteScanner.combinePaths "admin" "profile"
  /\ RouteScanner.combinePaths "admin//users///" "//:id/posts" =
     "/admin/users/:id/posts"
  /\ RouteScanner.combinePaths "admin" "profile" = "/admin/profile"
  /\ RouteScanner.combinePaths "" "//profile" = "/profile".
Proof.
  destruct combinePaths_normalizing as (_ & _ & _ & H3 & _ & H5 & H7 & _ & H6).
  split; [|split; [|split; [|split]]].
  - apply H3. repeat constructor.
  - apply (H5 "admin" "profile" 1 1); reflexivity.
  - destruct (H5 "admin//users" ":id/posts" 3 2) as [E1 E2];
      [reflexivity | reflexivity |].
    change ("admin//users" +:+ slashes 3) with "admin//users///" in E1.
    change (slashes 2 +:+ ":id/posts") with "//:id/posts" in E1.
    rewrite E1, E2. reflexivity.
  - apply (H6 "admin" "profile"); reflexivity.
  - destruct (H7 "profile" 2) as [E1 E2]; [reflexivity|].
    change (slashes 2 +:+ "profile") with "//profile" in E1.
    rewrite E1, E2. reflexivity.
Defined.

End PathCombination.

(* ===================================================================== *)
(** ** Parameters and required properties                                *)
(* ===================================================================== *)

Module ParameterFacts.
Import OpenApiGenerator.

Lemma pushParameter_fold (params : list ParamMetadata)
    (acc : list ParameterObject) :
  fold_left pushParameter params acc =
  acc ++ map parameterObject (List.filter documented params).
Proof.
  revert acc. induction params as [|p params IH]; intros acc; simpl.
  - rewrite List.app_nil_r. reflexivity.
  - rewrite IH. unfold pushParameter.
    destruct (documented p); simpl; [|reflexivity].
    rewrite <- List.app_assoc. reflexivity.
Qed.

Lemma createParameters_eq (params : list ParamMetadata) :
  createParameters params =
  nonempty_list (map parameterObject (List.filter documented params)).
Proof. unfold createParameters. rewrite pushParameter_fold. reflexivity. Qed.

Lemma nonempty_list_Some {A : Type} (l l' : list A) :
  nonempty_list l = Some l' -> l' = l /\ l <> [].
Proof. destruct l; simpl; [discriminate|]. intros [= <-]. split; [reflexivity | discriminate]. Qed.

Lemma documented_iff (param : ParamMetadata) :
  documented param = true <-> pm_in param = InPath \/ pm_in param = InQuery.
Proof.
  unfold documented. destruct (pm_in param); simpl; split; intros H;
    try tauto; try discriminate; destruct H; discriminate.
Qed.

Lemma createOperation_parameters (route : RouteMetadata)
    (controller : ControllerMetadata) :
  op_parameters (createOperation route controller) =
  nonempty_list
    (map parameterObject
       (List.filter documented (default [] (r_params route)))).
Proof. simpl. apply createParameters_eq. Qed.

(** Every entry of the parameter list comes from a path or query
    parameter of the route. *)
Lemma createOperation_entry (route : RouteMetadata)
    (controller : ControllerMetadata) (ps : list ParameterObject)
    (po : ParameterObject) :
  op_parameters (createOperation route controller) = Some ps -> In po ps ->
  exists param,
    In param (default [] (r_params route)) /\ po = parameterObject param
    /\ (pm_in param = InPath \/ pm_in param = InQuery).
Proof.
  rewrite createOperation_parameters. intros Hps Hpo.
  apply nonempty_list_Some in Hps as [-> _].
  apply List.in_map_iff in Hpo as (param & <- & Hin).
  apply List.filter_In in Hin as [Hin Hdoc].
  exists param. split; [exact Hin|]. split; [reflexivity|].
  apply documented_iff, Hdoc.
Qed.

(** C10: the parameter list of an operation is made of the path and
    query parameters of the route, in order, and of nothing else; a
    header parameter gives no entry, and when no parameter is a path or
    query parameter the operation has no parameter list. *)
Theorem header_parameters_omitted
    (route : RouteMetadata) (controller : ControllerMetadata) :
  let params := default [] (r_params route) in
  op_parameters (createOperation route controller) =
    nonempty_list (map parameterObject (List.filter documented params))
  /\ (forall ps po,
        op_parameters (createOperation route controller) = Some ps ->
        In po ps ->
        (po_in po = InPath \/ po_in po = InQuery)
        /\ exists param, In param params /\ po = parameterObject param
                         /\ pm_in param <> InHeader)
  /\ (forall parameters param,
        pm_in param = InHeader -> pushParameter parameters param = parameters)
  /\ (Forall (fun param => pm_in param = InHeader) params ->
      op_parameters (createOperation route controller) = None).
Proof.
  intros params. split; [apply createOperation_parameters|]. split; [|split].
  - intros ps po Hps Hpo.
    destruct (createOperation_entry route controller ps po Hps Hpo)
      as (param & Hin & -> & Hloc).
    split; [exact Hloc|]. exists param. repeat split; [exact Hin|].
    intros E. rewrite E in Hloc. destruct Hloc; discriminate.
  - intros parameters param E. unfold pushParameter, documented.
    rewrite E. reflexivity.
  - intros Hall. rewrite createOperation_parameters. fold params.
    replace (List.filter documented params) with (@nil ParamMetadata); [reflexivity|].
    symmetry. induction Hall as [|p l Hp _ IH]; [reflexivity|].
    simpl. unfold documented at 1. rewrite Hp. simpl. exact IH.
Qed.

Lemma header_parameters_omitted_witness :
  op_parameters (createOperation Examples.headerOnlyRoute
                   Examples.adminController) = None
  /\ (map po_name <$> op_parameters (createOperation Examples.mixedRoute
                                       Examples.adminController))
     = Some ["id"; "q"]
  /\ (po_in (parameterObject (Examples.param "q" InQuery false)) = InPath
      \/ po_in (parameterObject (Examples.param "q" InQuery false)) = InQuery)
  /\ pushParameter [] (Examples.param "x-tenant" InHeader true) = [].
Proof.
  split; [|split; [|split]].
  - apply (header_parameters_omitted Examples.headerOnlyRoute
             Examples.adminController).
    repeat constructor.
  - destruct (header_parameters_omitted Examples.mixedRoute
                Examples.adminController) as (-> & _).
    reflexivity.
  - destruct (header_parameters_omitted Examples.mixedRoute
                Examples.adminController) as (_ & H & _).
    apply (H [parameterObject (Examples.param "id" InPath false);
              parameterObject (Examples.param "q" InQuery false)]
             (parameterObject (Examples.param "q" InQuery false)));
      [reflexivity | right; left; reflexivity].
  - destruct (header_parameters_omitted Examples.mixedRoute
                Examples.adminController) as (_ & _ & H & _).
    apply H. reflexivity.
Defined.

(** C7: a path parameter is required.  The descriptor built for a
    [Param] decorator has location path and the required flag set,
    whatever the declaration says about optionality, and so has every
    path parameter a method yields; in the parameter list of an
    operation every path entry is required, and every path parameter of
    the route has such an entry even when its own flag is not set. *)
Theorem path_parameters_required :
  (forall param decorator,
      exists pm,
        RouteScanner.buildParamMetadata param decorator "Param" = Some pm
        /\ pm_in pm = InPath /\ pm_required pm = true)
  /\ (forall parameters pm,
        In pm (RouteScanner.extractParameters parameters) ->
        pm_in pm = InPath -> pm_required pm = true)
  /\ (forall route controller ps po,
        op_parameters (createOperation route controller) = Some ps ->
        In po ps -> po_in po = InPath -> po_required po = true)
  /\ (forall route controller pm,
        In pm (default [] (r_params route)) -> pm_in pm = InPath ->
        exists ps po,
          op_parameters (createOperation route controller) = Some ps
          /\ In po ps /\ po_name po = pm_name pm
          /\ po_in po = InPath /\ po_required po = true).
Proof.
  split; [|split; [|split]].
  - intros param decorator. eexists. split; [reflexivity|]. split; reflexivity.
  - intros parameters pm Hin Hpath.
    unfold RouteScanner.extractParameters in Hin.
    apply List.in_flat_map in Hin as ([param decorators] & _ & Hin).
    apply List.in_flat_map in Hin as (decorator & _ & Hin).
    destruct (String.eqb (RouteScanner.d_name decorator) "Body"); [inversion Hin|].
    destruct (existsb _ _); [|inversion Hin].
    simpl in Hin. destruct Hin as [<- | []]. simpl in *.
    destruct (String.eqb (RouteScanner.d_name decorator) "Param"); [reflexivity|].
    destruct (String.eqb (RouteScanner.d_name decorator) "Headers"); discriminate.
  - intros route controller ps po Hps Hpo Hpath.
    destruct (createOperation_entry route controller ps po Hps Hpo)
      as (param & _ & -> & _).
    simpl in *. rewrite Hpath. reflexivity.
  - intros route controller pm Hin Hpath.
    pose proof (createOperation_parameters route controller) as Heq.
    assert (Hmem : In (parameterObject pm)
              (map parameterObject
                 (List.filter documented (default [] (r_params route))))).
    { apply List.in_map, List.filter_In. split; [exact Hin|].
      apply documented_iff. left. exact Hpath. }
    destruct (map parameterObject _) as [|x l] eqn:E; [inversion Hmem|].
    exists (x :: l), (parameterObject pm).
    split; [exact Heq|]. split; [exact Hmem|].
    simpl. rewrite Hpath. repeat split.
Qed.

Lemma path_parameters_required_witness :
  (pm_required <$> RouteScanner.buildParamMetadata Examples.optionalIdDecl
                     Examples.paramDecorator "Param") = Some true
  /\ Forall (fun pm => pm_in pm = InPath -> pm_required pm = true)
       (RouteScanner.extractParameters
          [(Examples.optionalIdDecl,
            [Examples.paramDecorator; Examples.headersDecorator])])
  /\ po_required (parameterObject (Examples.param "id" InPath false)) = true
  /\ (exists ps po,
        op_parameters (createOperation Examples.mixedRoute
                         Examples.adminController) = Some ps
        /\ In po ps /\ po_name po = "id"
        /\ po_in po = InPath /\ po_required po = true).
Proof.
  destruct path_parameters_required as (H1 & H2 & H3 & H4).
  split; [|split; [|split]].
  - destruct (H1 Examples.optionalIdDecl Examples.paramDecorator)
      as (pm & -> & _ & Hreq).
    simpl. rewrite Hreq. reflexivity.
  - apply List.Forall_forall. intros pm Hin. apply (H2 _ pm Hin).
  - apply (H3 Examples.mixedRoute Examples.adminController
             [parameterObject (Examples.param "id" InPath false);
              parameterObject (Examples.param "q" InQuery false)]);
      [reflexivity | left; reflexivity | reflexivity].
  - apply (H4 Examples.mixedRoute Examples.adminController
             (Examples.param "id" InPath false)).
    + left. reflexivity.
    + reflexivity.
Defined.

End ParameterFacts.

Module RequiredFacts.
Import OpenApiGenerator.

Lemma isRequired_iff (prop : PropertyMetadata) :
  isRequired prop = true <-> carriesRequired prop.
Proof.
  unfold isRequired, carriesRequired. destruct (p_validators prop) as [vs|].
  - rewrite List.existsb_exists. split.
    + intros (v & Hin & Hv). exists vs, v. split; [reflexivity|]. split; [exact Hin|].
      apply orb_prop in Hv as [Hv|Hv].
      * left. apply String.eqb_eq, Hv.
      * right. destruct (v_constraints v ≫= vc_required) as [[]|]; [reflexivity | discriminate | discriminate].
    + intros (vs' & v & Hvs & Hin & Hv). injection Hvs as <-. exists v. split; [exact Hin|].
      destruct Hv as [-> | ->]; [reflexivity|]. apply orb_true_r.
  - split; [discriminate|]. intros (vs & v & H & _). discriminate.
Qed.

Lemma isOptional_iff (prop : PropertyMetadata) :
  isOptional prop = true <-> carriesOptional prop.
Proof.
  unfold isOptional, carriesOptional. destruct (p_validators prop) as [vs|].
  - rewrite List.existsb_exists. split.
    + intros (v & Hin & Hv). exists vs, v. split; [reflexivity|]. split; [exact Hin|].
      apply orb_prop in Hv as [Hv|Hv].
      * left. apply String.eqb_eq, Hv.
      * right. destruct (v_constraints v ≫= vc_required) as [[]|]; [discriminate | reflexivity | discriminate].
    + intros (vs' & v & Hvs & Hin & Hv). injection Hvs as <-. exists v. split; [exact Hin|].
      destruct Hv as [-> | ->]; [reflexivity|]. apply orb_true_r.
  - split; [discriminate|]. intros (vs & v & H & _). discriminate.
Qed.

Lemma listed_nonempty_list (l : list string) (name : string)
    (schema : SchemaObject) :
  s_required schema = nonempty_list l ->
  listedRequired schema name <-> In name l.
Proof.
  intros E. unfold listedRequired. rewrite E. destruct l as [|x l]; simpl.
  - split; [intros (r & H & _); discriminate | tauto].
  - split; [intros (r & Hr & H); injection Hr as <-; exact H|].
    intros H. eexists. split; [reflexivity | exact H].
Qed.

(** C6 (as stated, refuted): in the schema of a request body the
    property [email], which carries [IsOptional], is listed as required,
    and the property [nick], which carries [IsNotEmpty] and no
    optionality constraint, is not. *)
Lemma body_required_ignores_validators :
  (rb_content <$> op_requestBody
                    (createOperation Examples.createUser Examples.adminController))
    = Some [("application/json", convertDtoToSchema Examples.createUserDto)]
  /\ s_required (convertDtoToSchema Examples.createUserDto) = Some ["email"]
  /\ isOptional Examples.emailProperty = true
  /\ isRequired Examples.nickProperty = true
  /\ isOptional Examples.nickProperty = false.
Proof. repeat split. Qed.

(** C6 (amended).  In the schema [convertTypeToSchema] builds for an
    object type, a name is listed as required exactly when a property of
    that name carries a non-emptiness or required-type constraint and no
    explicit optionality constraint (optionality wins).  In the schema
    [convertDtoToSchema] builds for a request or response body, a name
    is listed exactly when a property of that name has its declared
    required flag set. *)
Theorem required_listing :
  (forall t props name,
      objectBranch t = true -> t_properties t = Some props ->
      listedRequired (convertTypeToSchema (Some t)) name <->
      exists prop, In prop props /\ p_name prop = name
                   /\ carriesRequired prop /\ ~ carriesOptional prop)
  /\ (forall dto name,
        listedRequired (convertDtoToSchema dto) name <->
        exists prop, In prop (dto_properties dto) /\ p_name prop = name
                     /\ p_required prop = true).
Proof.
  split.
  - intros t props name Hobj Hprops.
    assert (E : s_required (convertTypeToSchema (Some t)) =
                nonempty_list
                  (map p_name
                     (List.filter
                        (fun prop => isRequired prop && negb (isOptional prop))
                        props))).
    { unfold objectBranch in Hobj.
      apply andb_prop in Hobj as [Hobj He]. apply andb_prop in Hobj as [Hp Ha].
      apply negb_true_iff in Hp, Ha, He.
      destruct t as [ty prim arr enum opt fmt elem evals ps].
      simpl in *. subst ps. rewrite Hp.
      destruct arr, elem as [e|]; simpl in Ha; try discriminate Ha;
        destruct enum, evals as [ev|]; simpl in He; try discriminate He;
        reflexivity. }
    rewrite (listed_nonempty_list _ name _ E), List.in_map_iff.
    split.
    + intros (prop & Hname & Hin). apply List.filter_In in Hin as [Hin Hc].
      apply andb_prop in Hc as [Hr Ho]. apply negb_true_iff in Ho.
      exists prop. repeat split; [exact Hin | exact Hname | apply isRequired_iff, Hr |].
      intros Hopt. apply isOptional_iff in Hopt. congruence.
    + intros (prop & Hin & Hname & Hr & Ho). exists prop. split; [exact Hname|].
      apply List.filter_In. split; [exact Hin|].
      apply isRequired_iff in Hr. rewrite Hr. simpl.
      apply negb_true_iff. destruct (isOptional prop) eqn:Eo; [|reflexivity].
      exfalso. apply Ho, isOptional_iff, Eo.
  - intros dto name.
    rewrite (listed_nonempty_list
               (map p_name (List.filter p_required (dto_properties dto)))
               name (convertDtoToSchema dto) eq_refl), List.in_map_iff.
    split.
    + intros (prop & Hname & Hin). apply List.filter_In in Hin as [Hin Hr].
      exists prop. repeat split; assumption.
    + intros (prop & Hin & Hname & Hr). exists prop. split; [exact Hname|].
      apply List.filter_In. split; assumption.
Qed.

Lemma required_listing_witness :
  listedRequired (convertTypeToSchema (Some Examples.addressType)) "street"
  /\ ~ listedRequired (convertTypeToSchema (Some Examples.addressType)) "unit"
  /\ listedRequired (convertDtoToSchema Examples.createUserDto) "email".
Proof.
  destruct required_listing as (H1 & H2).
  pose proof (fun name =>
                H1 Examples.addressType _ name eq_refl eq_refl) as Haddr.
  split; [|split].
  - apply Haddr. eexists. split; [left; reflexivity|].
    split; [reflexivity|]. split.
    + apply isRequired_iff. reflexivity.
    + intros Ho. apply isOptional_iff in Ho. discriminate Ho.
  - intros Hl. apply Haddr in Hl as (prop & Hin & Hname & _ & Ho).
    apply Ho. apply isOptional_iff.
    destruct Hin as [<- | [<- | [<- | []]]]; try discriminate Hname. reflexivity.
  - apply H2. eexists. split; [left; reflexivity|]. split; reflexivity.
Defined.

End RequiredFacts.

(* ===================================================================== *)
(** ** Category mapping                                                  *)
(* ===================================================================== *)

Module CategoryFacts.
Import CategoryGenerator.

Lemma prefix_refl (s : string) : String.prefix s s = true.
Proof.
  induction s as [|c s IH]; [reflexivity|].
  simpl. destruct (ascii_dec c c); [exact IH | congruence].
Qed.

Lemma scanEntries_find (category : string) (entries : list (string * string)) :
  scanEntries (normalize category) entries =
  option_map snd (List.find (entryMatches category) entries).
Proof.
  induction entries as [|[key value] rest IH]; simpl; [reflexivity|].
  unfold entryMatches at 1. simpl.
  destruct (String.eqb_spec (normalize category) (normalize key)) as [E|_].
  - unfold Js.startsWith. rewrite E, prefix_refl. reflexivity.
  - destruct (Js.startsWith (normalize category) (normalize key));
      [reflexivity | exact IH].
Qed.

Lemma find_first {A : Type} (f : A -> bool) (pre post : list A) (x : A) :
  (forall y, In y pre -> f y = false) -> f x = true ->
  List.find f (pre ++ x :: post) = Some x.
Proof.
  intros Hpre Hx. induction pre as [|y pre IH]; simpl.
  - rewrite Hx. reflexivity.
  - rewrite (Hpre y (or_introl eq_refl)). apply IH.
    intros z Hz. apply Hpre. right. exact Hz.
Qed.

Lemma find_none {A : Type} (f : A -> bool) (l : list A) :
  (forall y, In y l -> f y = false) -> List.find f l = None.
Proof.
  intros H. induction l as [|y l IH]; simpl; [reflexivity|].
  rewrite (H y (or_introl eq_refl)). apply IH.
  intros z Hz. apply H. right. exact Hz.
Qed.

Lemma mapController_category (mapping : list (string * string))
    (added : ObjectPrototype.Added) (c c' : ControllerMetadata) :
  mapController mapping added c = Some c' ->
  c' = withCategory c
         (match findMappedCategory (c_category c) mapping added with
          | MappedTo (String x v) => String x v
          | _ => c_category c
          end).
Proof.
  unfold mapController.
  destruct (findMappedCategory (c_category c) mapping added) as [[|x v]| |];
    intros E; try discriminate E; injection E as <-; reflexivity.
Qed.

Lemma mapController_None (mapping : list (string * string))
    (added : ObjectPrototype.Added) (c : ControllerMetadata) :
  mapController mapping added c = None <->
  Js.obj_get (c_category c) mapping = None
  /\ ObjectPrototype.inherits added (c_category c) = true.
Proof.
  unfold mapController, findMappedCategory, ofEntry.
  destruct (Js.obj_get (c_category c) mapping) as [value|].
  - destruct (Js.truthy value);
      [|destruct (scanEntries _ mapping)];
      (split; [discriminate | intros [H _]; discriminate H]).
  - destruct (ObjectPrototype.inherits added (c_category c)).
    + split; [intros _; split; reflexivity | reflexivity].
    + destruct (scanEntries _ mapping);
        (split; [discriminate | intros [_ H]; discriminate H]).
Qed.

(** The controllers a mapping yields are the given ones with other
    categories. *)
Lemma applyCategoryMapping_Some (controllers mapped : list ControllerMetadata)
    (mapping : option (list (string * string))) (added : ObjectPrototype.Added) :
  applyCategoryMapping controllers mapping added = Some mapped ->
  exists f : ControllerMetadata -> string,
    mapped = map (fun c => withCategory c (f c)) controllers.
Proof.
  destruct mapping as [m|]; cbn [applyCategoryMapping].
  - intros H. apply mapM_Some_1 in H.
    exists (fun c => match findMappedCategory (c_category c) m added with
                     | MappedTo (String x v) => String x v
                     | _ => c_category c
                     end).
    induction H as [|c c' cs cs' Hc _ IH]; [reflexivity|].
    cbn [map]. rewrite <- IH, (mapController_category _ _ _ _ Hc). reflexivity.
  - intros [= <-]. exists c_category.
    induction controllers as [|[] cs IH]; [reflexivity|].
    cbn [map]. rewrite <- IH. reflexivity.
Qed.

Lemma applyCategoryMapping_None (controllers : list ControllerMetadata)
    (mapping : list (string * string)) (added : ObjectPrototype.Added) :
  applyCategoryMapping controllers (Some mapping) added = None <->
  exists c, In c controllers
            /\ Js.obj_get (c_category c) mapping = None
            /\ ObjectPrototype.inherits added (c_category c) = true.
Proof.
  cbn [applyCategoryMapping].
  rewrite mapM_None, List.Exists_exists. split.
  - intros (c & Hc & Hn). apply mapController_None in Hn as [H1 H2].
    exists c. repeat split; assumption.
  - intros (c & Hc & H1 & H2). exists c. split; [exact Hc|].
    apply mapController_None. split; assumption.
Qed.

(** C5 (the code departs from the claim): for the category
    [Admin - Auth] and a mapping whose first key [admin] is a prefix and
    whose second key [admin-auth] is equal after normalization, the
    code takes the first entry, where the lookup by rules in turn takes
    the second; and for the category [__proto__], which is inferred for
    a controller in a directory of that name, the exact match finds the
    member every object inherits, so [findMappedCategory] returns no
    string and the inferred category is not kept, although no rule
    matches. *)
Lemma mapping_rules_not_tried_in_turn :
  map c_category
    <$> applyCategoryMapping [Examples.authController]
          (Some Examples.categoryMapping) []
  = Some ["Administration"]
  /\ map c_category
       (applyCategoryMapping_spec [Examples.authController]
          Examples.categoryMapping) = ["Admin Authentication"]
  /\ ControllerScanner.detectCategoryFromPath
       "/app/src/__proto__/__proto__.controller.ts" = "__proto__"
  /\ findMappedCategory "__proto__" Examples.categoryMapping []
     = InheritedMember
  /\ findMappedCategory_spec "__proto__" Examples.categoryMapping = None
  /\ applyCategoryMapping [Examples.controllerAt "__proto__" "__proto__"]
       (Some Examples.categoryMapping) [] = None.
Proof. repeat split; vm_compute; reflexivity. Qed.

(** X25: the lookup of [applyCategoryMapping] as the code makes it.
    Without mapping the controllers are returned.  With a mapping there
    is a list of controllers unless some category is no key of the
    mapping and names a member inherited from [Object.prototype]; each
    controller then keeps its fields and gets the mapped category when
    one is found and is not empty, its own category otherwise.  The
    mapped category is the value under the exact key when that value is
    not empty; otherwise, when the category names no inherited member,
    it is the value of the first entry, in the order of the mapping,
    whose normalized key is a prefix of the normalized category (a key
    equal after normalization is such a prefix); when there is no such
    entry either, nothing is found. *)
Theorem category_mapping_lookup :
  (forall controllers added,
      applyCategoryMapping controllers None added = Some controllers)
  /\ (forall controllers mapping added,
        applyCategoryMapping controllers (Some mapping) added = None <->
        exists c, In c controllers
                  /\ Js.obj_get (c_category c) mapping = None
                  /\ ObjectPrototype.inherits added (c_category c) = true)
  /\ (forall controllers mapping added mapped,
        applyCategoryMapping controllers (Some mapping) added = Some mapped ->
        mapped =
        map (fun c =>
               withCategory c
                 (match findMappedCategory (c_category c) mapping added with
                  | MappedTo (String x v) => String x v
                  | _ => c_category c
                  end))
            controllers)
  /\ (forall category mapping added value,
        Js.obj_get category mapping = Some value -> value <> "" ->
        findMappedCategory category mapping added = MappedTo value)
  /\ (forall category mapping added pre key value post,
        Js.truthy_opt (Js.obj_get category mapping) = false ->
        (Js.obj_get category mapping = None ->
         ObjectPrototype.inherits added category = false) ->
        mapping = pre ++ (key, value) :: post ->
        (forall kv, In kv pre ->
                    Js.startsWith (normalize category) (normalize (fst kv)) = false) ->
        Js.startsWith (normalize category) (normalize key) = true ->
        findMappedCategory category mapping added = MappedTo value)
  /\ (forall category key,
        normalize category = normalize key ->
        Js.startsWith (normalize category) (normalize key) = true)
  /\ (forall category mapping added,
        Js.truthy_opt (Js.obj_get category mapping) = false ->
        (Js.obj_get category mapping = None ->
         ObjectPrototype.inherits added category = false) ->
        (forall kv, In kv mapping ->
                    Js.startsWith (normalize category) (normalize (fst kv)) = false) ->
        findMappedCategory category mapping added = NotMapped)
  /\ (forall category mapping added,
        Js.obj_get category mapping = None ->
        ObjectPrototype.inherits added category = true ->
        findMappedCategory category mapping added = InheritedMember).
Proof.
  split; [|split; [|split; [|split; [|split; [|split; [|split]]]]]].
  - reflexivity.
  - intros controllers mapping added. apply applyCategoryMapping_None.
  - intros controllers mapping added mapped H. cbn [applyCategoryMapping] in H.
    apply mapM_Some_1 in H.
    induction H as [|c c' cs cs' Hc _ IH]; [reflexivity|].
    cbn [map]. rewrite <- IH, (mapController_category _ _ _ _ Hc). reflexivity.
  - intros category mapping added value Hget Hne. unfold findMappedCategory.
    rewrite Hget. destruct value; [congruence | reflexivity].
  - intros category mapping added pre key value post Hex Hin -> Hpre Hkey.
    unfold findMappedCategory.
    assert (E : scanEntries (normalize category) (pre ++ (key, value) :: post)
                = Some value).
    { rewrite scanEntries_find.
      rewrite (find_first (entryMatches category) pre post (key, value));
        [reflexivity | exact Hpre | exact Hkey]. }
    destruct (Js.obj_get category (pre ++ (key, value) :: post)) as [v|].
    + cbn [Js.truthy_opt] in Hex. rewrite Hex, E. reflexivity.
    + rewrite (Hin eq_refl), E. reflexivity.
  - intros category key ->. apply prefix_refl.
  - intros category mapping added Hex Hin Hall.
    unfold findMappedCategory.
    assert (E : scanEntries (normalize category) mapping = None).
    { rewrite scanEntries_find.
      rewrite (find_none (entryMatches category) mapping Hall). reflexivity. }
    destruct (Js.obj_get category mapping) as [v|].
    + cbn [Js.truthy_opt] in Hex. rewrite Hex, E. reflexivity.
    + rewrite (Hin eq_refl), E. reflexivity.
  - intros category mapping added Hget Hin. unfold findMappedCategory.
    rewrite Hget, Hin. reflexivity.
Qed.

Lemma category_mapping_lookup_witness :
  findMappedCategory "Admin" [("Admin", "Administration")] []
    = MappedTo "Administration"
  /\ findMappedCategory "Admin - Auth" Examples.categoryMapping []
     = MappedTo "Administration"
  /\ Js.startsWith (normalize "Admin - Auth") (normalize "admin-auth") = true
  /\ findMappedCategory "Billing" Examples.categoryMapping [] = NotMapped
  /\ findMappedCategory "toString" Examples.categoryMapping []
     = InheritedMember
  /\ applyCategoryMapping [Examples.controllerAt "x" "toString"]
       (Some Examples.categoryMapping) [] = None.
Proof.
  destruct category_mapping_lookup as (_ & H1 & _ & H2 & H3 & H4 & H5 & H6).
  split; [|split; [|split; [|split; [|split]]]].
  - apply H2; [reflexivity | discriminate].
  - apply (H3 "Admin - Auth" Examples.categoryMapping [] []
             "admin" "Administration"
             [("admin-auth", "Admin Authentication")]);
      [reflexivity | reflexivity | reflexivity | intros kv [] | reflexivity].
  - apply H4. reflexivity.
  - apply H5; [reflexivity | reflexivity |].
    intros kv [<- | [<- | []]]; reflexivity.
  - apply H6; reflexivity.
  - apply H1. exists (Examples.controllerAt "x" "toString").
    split; [left; reflexivity | split; reflexivity].
Defined.

End CategoryFacts.

(* ===================================================================== *)
(** ** Grouping by category                                              *)
(* ===================================================================== *)

Module Grouping.
Import CategoryGenerator Derived.

Lemma free_insert (added : ObjectPrototype.Added)
    (grouped : gmap string (list ControllerMetadata)) (key : string)
    (members : list ControllerMetadata) :
  (forall k, is_Some (grouped !! k) -> ObjectPrototype.inherits added k = false) ->
  ObjectPrototype.inherits added key = false ->
  forall k, is_Some (<[key := members]> grouped !! k) ->
            ObjectPrototype.inherits added k = false.
Proof.
  intros Hfree Hkey k Hk.
  destruct (decide (key = k)) as [<-|Hne]; [exact Hkey|].
  rewrite lookup_insert_ne in Hk by exact Hne. apply Hfree, Hk.
Qed.

Lemma groupFrom_step (grouped : gmap string (list ControllerMetadata))
    (c : ControllerMetadata) (cs : list ControllerMetadata)
    (added : ObjectPrototype.Added) :
  groupFrom grouped (c :: cs) added =
  match grouped !! groupKey c with
  | Some members =>
      groupFrom (<[groupKey c := members ++ [c]]> grouped) cs added
  | None =>
      if ObjectPrototype.inherits added (groupKey c) then TypeError
      else groupFrom (<[groupKey c := [c]]> grouped) cs added
  end.
Proof. reflexivity. Qed.

Lemma groupFrom_TypeError (added : ObjectPrototype.Added)
    (cs : list ControllerMetadata) :
  forall grouped,
    (forall k, is_Some (grouped !! k) ->
               ObjectPrototype.inherits added k = false) ->
    (groupFrom grouped cs added = TypeError <->
     exists c, In c cs /\ ObjectPrototype.inherits added (groupKey c) = true).
Proof.
  induction cs as [|c cs IH]; intros grouped Hfree.
  - cbn [groupFrom]. split; [discriminate | intros (c & [] & _)].
  - rewrite groupFrom_step.
    destruct (grouped !! groupKey c) as [members|] eqn:Ek.
    + assert (Hk : ObjectPrototype.inherits added (groupKey c) = false)
        by (apply Hfree; rewrite Ek; eauto).
      rewrite (IH _ (free_insert _ _ _ _ Hfree Hk)). split.
      * intros (c' & Hin & Hc'). exists c'. split; [right; exact Hin | exact Hc'].
      * intros (c' & [<-|Hin] & Hc'); [congruence|].
        exists c'. split; assumption.
    + destruct (ObjectPrototype.inherits added (groupKey c)) eqn:Hk.
      * split; [|reflexivity]. intros _. exists c. split; [left; reflexivity | exact Hk].
      * rewrite (IH _ (free_insert _ _ _ _ Hfree Hk)). split.
        -- intros (c' & Hin & Hc'). exists c'. split; [right; exact Hin | exact Hc'].
        -- intros (c' & [<-|Hin] & Hc'); [congruence|].
           exists c'. split; assumption.
Qed.

Lemma groupFrom_no_message (added : ObjectPrototype.Added)
    (cs : list ControllerMetadata) :
  forall grouped message, groupFrom grouped cs added <> Throw message.
Proof.
  induction cs as [|c cs IH]; intros grouped message.
  - discriminate.
  - rewrite groupFrom_step.
    destruct (grouped !! groupKey c); [apply IH|].
    destruct (ObjectPrototype.inherits added (groupKey c));
      [discriminate | apply IH].
Qed.

Lemma groupFrom_Ok (added : ObjectPrototype.Added)
    (cs : list ControllerMetadata) :
  forall grouped result key,
    groupFrom grouped cs added = Ok result ->
    result !! key =
    match List.filter (fun c => String.eqb (groupKey c) key) cs with
    | [] => grouped !! key
    | members => Some (default [] (grouped !! key) ++ members)
    end.
Proof.
  induction cs as [|c cs IH]; intros grouped result key.
  - cbn [groupFrom List.filter]. intros [= <-]. reflexivity.
  - rewrite groupFrom_step. cbn [List.filter].
    destruct (grouped !! groupKey c) as [members|] eqn:Ek.
    + intros H. rewrite (IH _ _ key H).
      destruct (String.eqb_spec (groupKey c) key) as [E|Hne].
      * rewrite <- E, lookup_insert_eq, Ek. simpl.
        destruct (List.filter _ cs); simpl; [reflexivity|].
        rewrite <- List.app_assoc. reflexivity.
      * rewrite lookup_insert_ne by exact Hne. reflexivity.
    + destruct (ObjectPrototype.inherits added (groupKey c)); [discriminate|].
      intros H. rewrite (IH _ _ key H).
      destruct (String.eqb_spec (groupKey c) key) as [E|Hne].
      * rewrite <- E, lookup_insert_eq, Ek. simpl.
        destruct (List.filter _ cs); reflexivity.
      * rewrite lookup_insert_ne by exact Hne. reflexivity.
Qed.

Lemma groupByCategory_TypeError (added : ObjectPrototype.Added)
    (cs : list ControllerMetadata) :
  groupByCategory cs added = TypeError <->
  exists c, In c cs /\ ObjectPrototype.inherits added (groupKey c) = true.
Proof.
  apply groupFrom_TypeError. intros k [x Hx].
  rewrite lookup_empty in Hx. discriminate.
Qed.

End Grouping.
(* ===================================================================== *)
(** ** The documentation service                                         *)
(* ===================================================================== *)

Module ServiceFacts.
Import AutoDocsService.

Section Service.

Variable options : AutoDocsOptions.
Variable localeCompare : string -> string -> Z.

Lemma scan_completes found now st r st' :
  scan options localeCompare (Ok found) now st = Some (r, st') ->
  exists found' spec gen,
    mapped options found st = Some found'
    /\ OpenApiGenerator.generate localeCompare found' options
         (openApiGenerator st) = (spec, gen)
    /\ r = Ok tt
    /\ st' = {| openApiSpec := Some spec; controllers := found';
                lastScanTime := Some now; openApiGenerator := gen |}.
Proof.
  unfold scan. destruct (mapped options found st) as [found'|];
    [|discriminate].
  destruct (OpenApiGenerator.generate _ _ _ _) as [spec gen] eqn:G.
  intros [= <- <-]. exists found', spec, gen.
  split; [reflexivity|]. split; [exact G|]. split; reflexivity.
Qed.

Lemma scan_untyped found now st :
  scan options localeCompare (Ok found) now st = None <->
  mapped options found st = None.
Proof.
  unfold scan. destruct (mapped options found st) as [found'|].
  - destruct (OpenApiGenerator.generate _ _ _ _). split; discriminate.
  - split; reflexivity.
Qed.

Lemma initialize_scan scanned now st :
  initialize options localeCompare scanned now st =
  scan options localeCompare scanned now st.
Proof.
  unfold initialize.
  destruct (scan options localeCompare scanned now st) as [[[u|e|] st']|];
    reflexivity.
Qed.

(** Every call other than a scan that runs to its end has an outcome
    and leaves the service as it was. *)
Lemma call_unchanged req st :
  completedScan req = false ->
  exists r, call options localeCompare req st = Some (r, st).
Proof.
  destruct req as [[found|e|] now|[found|e|] now| | | | |];
    cbn [completedScan call]; try discriminate; intros _;
    rewrite ?initialize_scan; cbn [scan fmap option_fmap option_map reply];
    try (eexists; reflexivity).
  - unfold getOpenApiSpec. destruct (openApiSpec st); eexists; reflexivity.
  - unfold getControllersByCategory.
    destruct (CategoryGenerator.groupByCategory _ _); eexists; reflexivity.
Qed.

Lemma call_completed req st r st' :
  completedScan req = true ->
  call options localeCompare req st = Some (r, st') ->
  r = Ok Done /\ is_Some (openApiSpec st').
Proof.
  destruct req as [[found|e|] now|[found|e|] now| | | | |];
    cbn [completedScan call]; try discriminate; intros _;
    rewrite ?initialize_scan;
    destruct (scan options localeCompare (Ok found) now st)
      as [[r0 st0]|] eqn:E; try discriminate;
    destruct (scan_completes _ _ _ _ _ E) as (f & spec & gen & _ & _ & -> & ->);
    cbn [fmap option_fmap option_map reply]; intros [= <- <-];
    (split; [reflexivity | cbn [openApiSpec]; eauto]).
Qed.

Lemma runFrom_cons st req trace :
  runFrom options localeCompare st (req :: trace) =
  match call options localeCompare req st with
  | Some (_, st') => runFrom options localeCompare st' trace
  | None => None
  end.
Proof.
  unfold runFrom. cbn [fold_left mbind option_bind].
  destruct (call options localeCompare req st) as [[r st']|];
    cbn [fmap option_fmap option_map snd]; [reflexivity|].
  induction trace as [|q trace IH]; [reflexivity | exact IH].
Qed.

Lemma runFrom_app st trace trace' :
  runFrom options localeCompare st (trace ++ trace') =
  match runFrom options localeCompare st trace with
  | Some st' => runFrom options localeCompare st' trace'
  | None => None
  end.
Proof.
  revert st. induction trace as [|req trace IH]; intros st;
    [reflexivity|].
  cbn [app]. rewrite !runFrom_cons.
  destruct (call options localeCompare req st) as [[r st']|];
    [apply IH | reflexivity].
Qed.

Lemma runFrom_spec trace st st' :
  runFrom options localeCompare st trace = Some st' ->
  (is_Some (openApiSpec st') <->
   is_Some (openApiSpec st) \/ existsb completedScan trace = true).
Proof.
  revert st. induction trace as [|req trace IH]; intros st.
  - intros [= <-]. cbn [existsb]. split; [tauto|].
    intros [H|H]; [exact H | discriminate].
  - rewrite runFrom_cons. cbn [existsb].
    destruct (call options localeCompare req st) as [[r st1]|] eqn:E;
      [|discriminate].
    intros H. rewrite (IH _ H).
    destruct (completedScan req) eqn:Ec; cbn [orb].
    + destruct (call_completed _ _ _ _ Ec E) as [_ Hs]. tauto.
    + destruct (call_unchanged req st Ec) as [r' E'].
      rewrite E' in E. injection E as _ <-. reflexivity.
Qed.

Lemma getOpenApiSpec_throws st :
  throws (getOpenApiSpec st) = true <-> openApiSpec st = None.
Proof.
  unfold throws, getOpenApiSpec. destruct (openApiSpec st); simpl.
  - split; discriminate.
  - split; reflexivity.
Qed.

End Service.

(** C8 (as stated, refuted): a scan whose walk over the sources fails
    raises that failure to its caller, so the missing specification is
    not the only failure a consumer of the service can see. *)
Lemma scan_failure_is_propagated :
  fst <$> call Examples.versionedOptions Js.compare_strings
            (Scan (Throw "ENOENT") 0%Z) initial = Some (Throw "ENOENT")
  /\ ~ (forall req st message,
          fst <$> call Examples.versionedOptions Js.compare_strings req st
            = Some (Throw message) ->
          req = GetOpenApiSpec /\ openApiSpec st = None).
Proof.
  split; [reflexivity|].
  intros H.
  destruct (H (Scan (Throw "ENOENT") 0%Z) initial "ENOENT" eq_refl) as [E _].
  discriminate E.
Qed.

(** C8 (amended).  [getOpenApiSpec] raises exactly when no specification
    is stored, which on a service used from its creation means that no
    scan has run to its end; when a specification is stored it is
    returned, and in both cases the service is left unchanged.  A scan
    that runs to its end stores a specification.  The other failures a
    consumer can see are those of [scan] and [initialize], which raise
    again the failure of the walk over the sources, and that of
    [getControllersByCategory], which raises a [TypeError] exactly when
    a stored controller is filed under a name that plain objects
    inherit from [Object.prototype]; each of them leaves the service
    unchanged, and the remaining accessors never fail.  (All of this
    for a service that holds values of its declared types: a scan has
    no such outcome exactly when the category mapping replaces a
    category by an inherited member.) *)
Theorem getOpenApiSpec_precondition
    (options : AutoDocsOptions) (localeCompare : string -> string -> Z) :
  (forall st,
      throws (getOpenApiSpec st) = true <-> openApiSpec st = None)
  /\ (forall st spec,
        openApiSpec st = Some spec -> getOpenApiSpec st = (Ok spec, st))
  /\ (forall st, snd (getOpenApiSpec st) = st)
  /\ (forall trace st,
        run options localeCompare trace = Some st ->
        (throws (getOpenApiSpec st) = true <->
         existsb completedScan trace = false))
  /\ (forall found now st r st',
        scan options localeCompare (Ok found) now st = Some (r, st') ->
        r = Ok tt
        /\ exists spec,
             openApiSpec st' = Some spec
             /\ getOpenApiSpec st' = (Ok spec, st'))
  /\ (forall req st message st',
        call options localeCompare req st = Some (Throw message, st') ->
        st' = st
        /\ ((req = GetOpenApiSpec /\ openApiSpec st = None)
            \/ (exists now, req = Scan (Throw message) now)
            \/ (exists now, req = Initialize (Throw message) now)))
  /\ (forall req st st',
        call options localeCompare req st = Some (TypeError, st') ->
        st' = st
        /\ ((exists now, req = Scan TypeError now)
            \/ (exists now, req = Initialize TypeError now)
            \/ (req = GetControllersByCategory
                /\ exists c, In c (controllers st)
                             /\ ObjectPrototype.inherits (objectPrototype st)
                                  (Derived.groupKey c) = true)))
  /\ (forall st,
        snd (getControllersByCategory st) = st
        /\ (forall message,
              fst (getControllersByCategory st) <> Throw message)
        /\ (fst (getControllersByCategory st) = TypeError <->
            exists c, In c (controllers st)
                      /\ ObjectPrototype.inherits (objectPrototype st)
                           (Derived.groupKey c) = true))
  /\ (forall found now st,
        scan options localeCompare (Ok found) now st = None <->
        exists mapping c,
          o_categoryMapping options = Some mapping /\ In c found
          /\ Js.obj_get (c_category c) mapping = None
          /\ ObjectPrototype.inherits (objectPrototype st) (c_category c)
             = true).
Proof.
  split; [|split; [|split; [|split; [|split; [|split; [|split; [|split]]]]]]].
  - apply getOpenApiSpec_throws.
  - intros st spec E. unfold getOpenApiSpec. rewrite E. reflexivity.
  - intros st. unfold getOpenApiSpec. destruct (openApiSpec st); reflexivity.
  - intros trace st Hrun. rewrite getOpenApiSpec_throws.
    pose proof (runFrom_spec options localeCompare trace initial st Hrun) as H.
    cbn [openApiSpec initial] in H.
    destruct (existsb completedScan trace).
    + split; [|discriminate]. intros E.
      destruct (proj2 H (or_intror eq_refl)) as [spec Hs]. congruence.
    + split; [reflexivity|]. intros _.
      destruct (openApiSpec st) eqn:E; [|reflexivity].
      destruct (proj1 H (ex_intro _ _ eq_refl)) as [[x Hx]|Hx]; discriminate.
  - intros found now st r st' E.
    destruct (scan_completes options localeCompare _ _ _ _ _ E)
      as (found' & spec & gen & _ & _ & -> & ->).
    split; [reflexivity|]. exists spec. split; reflexivity.
  - intros req st message st'.
    destruct req as [[found|e|] now|[found|e|] now| | | | |];
      cbn [call]; rewrite ?initialize_scan.
    + destruct (scan options localeCompare (Ok found) now st)
        as [[r0 st0]|] eqn:E; [|discriminate].
      destruct (scan_completes options localeCompare _ _ _ _ _ E)
        as (f & spec & gen & _ & _ & -> & ->). discriminate.
    + cbn. intros [= -> <-]. split; [reflexivity|]. right. right. eauto.
    + discriminate.
    + destruct (scan options localeCompare (Ok found) now st)
        as [[r0 st0]|] eqn:E; [|discriminate].
      destruct (scan_completes options localeCompare _ _ _ _ _ E)
        as (f & spec & gen & _ & _ & -> & ->). discriminate.
    + cbn. intros [= -> <-]. split; [reflexivity|]. right. left. eauto.
    + discriminate.
    + unfold getOpenApiSpec. destruct (openApiSpec st); cbn; [discriminate|].
      intros [= <- <-]. split; [reflexivity|]. left. split; reflexivity.
    + discriminate.
    + unfold getControllersByCategory.
      destruct (CategoryGenerator.groupByCategory _ _) eqn:E; cbn;
        try discriminate.
      intros [= -> _]. exfalso.
      exact (Grouping.groupFrom_no_message _ _ _ _ E).
    + discriminate.
    + discriminate.
  - intros req st st'.
    destruct req as [[found|e|] now|[found|e|] now| | | | |];
      cbn [call]; rewrite ?initialize_scan.
    + destruct (scan options localeCompare (Ok found) now st)
        as [[r0 st0]|] eqn:E; [|discriminate].
      destruct (scan_completes options localeCompare _ _ _ _ _ E)
        as (f & spec & gen & _ & _ & -> & ->). discriminate.
    + discriminate.
    + cbn. intros [= <-]. split; [reflexivity|]. right. left. eauto.
    + destruct (scan options localeCompare (Ok found) now st)
        as [[r0 st0]|] eqn:E; [|discriminate].
      destruct (scan_completes options localeCompare _ _ _ _ _ E)
        as (f & spec & gen & _ & _ & -> & ->). discriminate.
    + discriminate.
    + cbn. intros [= <-]. split; [reflexivity|]. left. eauto.
    + unfold getOpenApiSpec. destruct (openApiSpec st); discriminate.
    + discriminate.
    + unfold getControllersByCategory.
      destruct (CategoryGenerator.groupByCategory _ _) eqn:E; cbn;
        try discriminate.
      intros [= <-]. split; [reflexivity|]. right. right.
      split; [reflexivity|]. apply Grouping.groupByCategory_TypeError, E.
    + discriminate.
    + discriminate.
  - intros st. unfold getControllersByCategory. cbn [fst snd].
    split; [reflexivity|]. split.
    + intros message. apply Grouping.groupFrom_no_message.
    + apply Grouping.groupByCategory_TypeError.
  - intros found now st. rewrite scan_untyped. unfold mapped.
    destruct (o_categoryMapping options) as [mapping|].
    + rewrite CategoryFacts.applyCategoryMapping_None. split.
      * intros (c & Hc & H1 & H2). exists mapping, c. repeat split; assumption.
      * intros (m & c & [= <-] & Hc & H1 & H2). exists c. repeat split; assumption.
    + split; [discriminate|]. intros (m & c & E & _). discriminate E.
Qed.

Lemma getOpenApiSpec_precondition_witness :
  throws (getOpenApiSpec initial) = true
  /\ run Examples.versionedOptions Js.compare_strings
       [Scan (Ok [Examples.adminController]) 1%Z; GetStats]
     <> None
  /\ throws (getOpenApiSpec
               (default initial
                  (run Examples.versionedOptions Js.compare_strings
                     [Scan (Ok [Examples.adminController]) 1%Z; GetStats])))
     = false
  /\ snd <$> call Examples.versionedOptions Js.compare_strings
               (Scan (Throw "ENOENT") 0%Z) initial = Some initial.
Proof.
  destruct (getOpenApiSpec_precondition Examples.versionedOptions
              Js.compare_strings) as (H1 & _ & _ & H4 & _ & H6 & _).
  assert (Hrun : exists st,
            run Examples.versionedOptions Js.compare_strings
              [Scan (Ok [Examples.adminController]) 1%Z; GetStats] = Some st).
  { eexists. reflexivity. }
  destruct Hrun as [st Hrun].
  split; [|split; [|split]].
  - apply H1. reflexivity.
  - rewrite Hrun. discriminate.
  - rewrite Hrun. change (default initial (Some st)) with st.
    destruct (throws (getOpenApiSpec st)) eqn:E; [|reflexivity].
    apply (H4 _ _ Hrun) in E. discriminate E.
  - destruct (H6 (Scan (Throw "ENOENT") 0%Z) initial "ENOENT" initial eq_refl)
      as [_ _]. reflexivity.
Defined.

End ServiceFacts.

(* ===================================================================== *)
(** ** Type resolution and its cycle guard                               *)
(* ===================================================================== *)

Module ResolverFacts.
Import TypeResolver.

Lemma depth_pos (h : TypeHandle) : 1 <= depth h.
Proof. destruct h as [| |[i|]| | | | | |]; simpl; lia. Qed.

Lemma list_max_In (l : list nat) (x : nat) : In x l -> x <= list_max l.
Proof.
  intros H. pose proof (proj1 (List.list_max_le l (list_max l)) (le_n _)) as Hall.
  rewrite List.Forall_forall in Hall. apply Hall, H.
Qed.

Lemma resolveProperties_fuel (rec : TypeHandle -> Outcome)
    (props : list PropertyDecl) :
  (forall p, In p props -> rec (decl_type p) <> OutOfFuel) ->
  exists ds, resolveProperties rec props = Some ds.
Proof.
  induction props as [|p props IH]; intros H; simpl; [eauto|].
  destruct IH as [ds ->]; [intros q Hq; apply H; right; exact Hq|].
  pose proof (H p (or_introl eq_refl)) as Hp.
  destruct (rec (decl_type p)); [eauto | eauto | congruence].
Qed.

Lemma resolveProperties_lookup (rec : TypeHandle -> Outcome)
    (props : list PropertyDecl) (ds : list PropertyDescriptor) :
  resolveProperties rec props = Some ds ->
  map prop_name ds = map decl_name props
  /\ forall i p, props !! i = Some p ->
       exists d, ds !! i = Some d
         /\ prop_type d = match rec (decl_type p) with
                          | Resolved t => Some t
                          | _ => None
                          end.
Proof.
  revert ds. induction props as [|p props IH]; intros ds; simpl.
  - intros [= <-]. split; [reflexivity|]. intros i q Hq. destruct i; discriminate Hq.
  - destruct (rec (decl_type p)) as [t| |] eqn:Ep;
      destruct (resolveProperties rec props) as [ds'|]; try discriminate;
      intros [= <-]; destruct (IH ds' eq_refl) as [Hn Hl];
      (split; [simpl; f_equal; exact Hn|]);
      intros [|i] q Hq; simpl in *;
      try (injection Hq as <-; eexists; split; [reflexivity|]; rewrite Ep; reflexivity);
      apply (Hl i q Hq).
Qed.

Lemma resolveUnion_fuel (rec : TypeHandle -> Outcome)
    (members : list TypeHandle) :
  (forall m, In m members -> rec m <> OutOfFuel) ->
  resolveUnion rec members <> OutOfFuel.
Proof.
  induction members as [|m members IH]; intros H; simpl; [discriminate|].
  assert (IH' : resolveUnion rec members <> OutOfFuel).
  { apply IH. intros q Hq. apply H. right. exact Hq. }
  destruct (is_nullish m); [exact IH'|].
  pose proof (H m (or_introl eq_refl)) as Hm.
  destruct (rec m) as [d| |]; [|exact IH' | congruence].
  destruct d as [| | |[|p ps]|]; try (destruct (is_named m); [discriminate | exact IH']).
  discriminate.
Qed.

Section Resolve.

Variable decls : gmap string (list PropertyDecl).

Lemma declared_depth (id : string) (props : list PropertyDecl)
    (p : PropertyDecl) :
  decls !! id = Some props -> In p props ->
  depth (decl_type p) <= declDepth decls.
Proof.
  intros Hid Hp. unfold declDepth.
  apply Nat.le_trans with
    (list_max (map (fun q => depth (decl_type q)) props)).
  - apply list_max_In, List.in_map_iff. exists p. split; [reflexivity | exact Hp].
  - apply list_max_In, List.in_map_iff. exists (id, props).
    split; [reflexivity|].
    apply list_elem_of_In, elem_of_map_to_list, Hid.
Qed.

Lemma unvisited_decreases (id : string) (inProgress : gset string)
    (props : list PropertyDecl) :
  decls !! id = Some props -> id ∉ inProgress ->
  size (dom decls ∖ ({[id]} ∪ inProgress)) < size (dom decls ∖ inProgress).
Proof.
  intros Hid Hnot. apply subset_size.
  assert (Hdom : id ∈ dom decls) by (apply elem_of_dom; eauto).
  split.
  - intros x Hx. apply elem_of_difference in Hx as [Hx Hn].
    apply elem_of_difference. split; [exact Hx|].
    intros Hp. apply Hn, elem_of_union. right. exact Hp.
  - intros Hsub. specialize (Hsub id).
    assert (Hmem : id ∈ dom decls ∖ inProgress)
      by (apply elem_of_difference; split; assumption).
    apply Hsub, elem_of_difference in Hmem as [_ Hn].
    apply Hn, elem_of_union. left. apply elem_of_singleton. reflexivity.
Qed.

(** With the budget of [h], no step of the resolution runs out. *)
Lemma resolve_fuel (fuel : nat) :
  forall (inProgress : gset string) (h : TypeHandle),
    budget decls inProgress h <= fuel ->
    resolve decls fuel inProgress h <> OutOfFuel.
Proof.
  unfold budget. induction fuel as [|fuel IH]; intros inProgress h Hb.
  - pose proof (depth_pos h). lia.
  - destruct h as [kind format| |[inner|]|element|members|members|id|members|];
      simpl; try discriminate.
    + apply IH. simpl in Hb. lia.
    + assert (He : resolve decls fuel inProgress element <> OutOfFuel).
      { apply IH. simpl in Hb. lia. }
      destruct (resolve decls fuel inProgress element); congruence.
    + apply resolveUnion_fuel. intros m Hm. apply IH.
      assert (depth m <= list_max (map depth members)).
      { apply list_max_In, List.in_map, Hm. }
      simpl in Hb. lia.
    + destruct (decide (id ∈ inProgress)) as [_|Hnot]; [discriminate|].
      destruct (decls !! id) as [props|] eqn:Hid; [|discriminate].
      destruct (resolveProperties_fuel
                  (resolve decls fuel ({[id]} ∪ inProgress)) props) as [ds ->];
        [|discriminate].
      intros p Hp. apply IH.
      pose proof (declared_depth id props p Hid Hp).
      pose proof (unvisited_decreases id inProgress props Hid Hnot).
      simpl in Hb. nia.
    + destruct members as [|m members]; [discriminate|].
      destruct (resolveProperties_fuel (resolve decls fuel inProgress)
                  (map (fun m0 => {| decl_name := fst m0; decl_type := snd m0;
                                     decl_optional := false;
                                     decl_hasInitializer := false;
                                     decl_doc := None |})
                       (m :: members))) as [ds ->]; [|discriminate].
      intros p Hp. apply List.in_map_iff in Hp as (m0 & <- & Hm0). simpl.
      apply IH.
      assert (depth (snd m0) <=
              list_max (map (fun m1 => depth (snd m1)) (m :: members))).
      { apply list_max_In, List.in_map_iff. exists m0. split; [reflexivity | exact Hm0]. }
      simpl in Hb. simpl in H. lia.
Qed.

End Resolve.

(** C9: resolution of any handle ends with a result, whatever cycles the
    declarations contain; a named type met again while it is in progress
    resolves to a reference and is not entered; so the property of a
    named type that refers to the type itself is described by a
    reference to it. *)
Theorem cyclic_types_resolve (decls : gmap string (list PropertyDecl)) :
  (forall h, resolveType decls h <> OutOfFuel)
  /\ (forall fuel inProgress id,
        id ∈ inProgress ->
        resolve decls (S fuel) inProgress (HNamed id) = Resolved (Reference id))
  /\ (forall id props,
        decls !! id = Some props ->
        exists ds : list PropertyDescriptor,
          resolveType decls (HNamed id) = Resolved (Object ds)
          /\ map prop_name ds = map decl_name props
          /\ forall i p,
               props !! i = Some p -> decl_type p = HNamed id ->
               prop_type <$> ds !! i = Some (Some (Reference id))).
Proof.
  split; [|split].
  - intros h. apply resolve_fuel. reflexivity.
  - intros fuel inProgress id Hin. simpl.
    destruct (decide (id ∈ inProgress)); [reflexivity | contradiction].
  - intros id props Hid.
    pose proof (resolve_fuel decls _ ∅ (HNamed id) (le_n _)) as Hfuel.
    unfold resolveType.
    assert (Hsize : 1 <= size (dom decls ∖ (∅ : gset string))).
    { assert (Hmem : id ∈ dom decls ∖ (∅ : gset string)).
      { apply elem_of_difference.
        split; [apply elem_of_dom; eauto | apply not_elem_of_empty]. }
      destruct (size (dom decls ∖ (∅ : gset string))) eqn:Es; [|lia].
      apply size_empty_inv in Es. apply Es in Hmem.
      exfalso. revert Hmem. apply not_elem_of_empty. }
    unfold budget in *. simpl depth in *.
    remember (size (dom decls ∖ (∅ : gset string)) * S (declDepth decls)) as fuel eqn:Ef.
    assert (Hpos : exists fuel', fuel = S fuel').
    { destruct fuel; [nia | eauto]. }
    destruct Hpos as [fuel' ->].
    replace (1 + S fuel') with (S (S fuel')) in * by lia.
    simpl in Hfuel |- *.
    destruct (decide (id ∈ (∅ : gset string))) as [Hin|_];
      [exfalso; revert Hin; apply not_elem_of_empty|].
    rewrite Hid in Hfuel |- *.
    destruct (resolveProperties _ props) as [ds|] eqn:Eds; [|congruence].
    exists ds. split; [reflexivity|].
    apply resolveProperties_lookup in Eds as [Hnames Hlookup].
    split; [exact Hnames|].
    intros i p Hp Hself. destruct (Hlookup i p Hp) as (d & -> & Hd).
    simpl. rewrite Hd, Hself. simpl.
    destruct (decide (id ∈ {[id]} ∪ (∅ : gset string))) as [_|Hn];
      [reflexivity|].
    exfalso. apply Hn, elem_of_union. left. apply elem_of_singleton. reflexivity.
Qed.

Lemma cyclic_types_resolve_witness :
  (exists ds : list PropertyDescriptor,
     resolveType Examples.declarations (HNamed "Node") = Resolved (Object ds)
     /\ prop_type <$> ds !! 1 = Some (Some (Reference "Node")))
  /\ resolve Examples.declarations 1 {["Author"]} (HNamed "Author")
     = Resolved (Reference "Author")
  /\ resolveType Examples.declarations (HNamed "Author")
     = Resolved
         (Object
            [("books",
              Some (Array (Object [("author", Some (Reference "Author"),
                                    true, None)])),
              true, None)]).
Proof.
  destruct (cyclic_types_resolve Examples.declarations) as (_ & H2 & H3).
  split; [|split].
  - destruct (H3 "Node" _ eq_refl) as (ds & E & _ & Hself).
    exists ds. split; [exact E|].
    apply (Hself 1 (Examples.decl "next" (HNamed "Node"))); reflexivity.
  - apply H2. apply elem_of_singleton. reflexivity.
  - vm_compute. reflexivity.
Defined.

End ResolverFacts.

(* ===================================================================== *)
(** ** Further properties of the specification assembler                 *)
(* ===================================================================== *)

Module GeneratorExtras.
Import OpenApiGenerator Derived CollectionFacts.

(** *** Tags *)

Lemma addTag_fold (controllers : list ControllerMetadata)
    (set : list string) (st : State) :
  map fst (tags st) = set ->
  Forall (fun kt => tag_name (snd kt) = fst kt) (tags st) ->
  let r := fold_left addTag controllers (set, st) in
  map fst (tags (snd r)) = fst r
  /\ Forall (fun kt => tag_name (snd kt) = fst kt) (tags (snd r))
  /\ fst r =
     fold_left
       (fun categories controller =>
          if Js.truthy (c_category controller)
          then Js.set_add (c_category controller) categories
          else categories)
       controllers set.
Proof.
  revert set st. induction controllers as [|c cs IH]; intros set st Hk Hn; simpl.
  - repeat split; assumption.
  - unfold addTag at 2.
    destruct (Js.truthy (c_category c)) eqn:Et; simpl.
    + destruct (existsb (String.eqb (c_category c)) set) eqn:Ee; simpl.
      * replace (Js.set_add (c_category c) set) with set
          by (unfold Js.set_add; rewrite Ee; reflexivity).
        apply IH; assumption.
      * apply IH; simpl.
        -- rewrite obj_set_keys, Hk. unfold Js.set_add. reflexivity.
        -- rewrite obj_set_fresh.
           ++ apply Forall_app. split; [exact Hn|]. repeat constructor.
           ++ rewrite Hk. apply existsb_eqb_false, Ee.
    + apply IH; assumption.
Qed.

Lemma generateTags_names (controllers : list ControllerMetadata) (st : State) :
  tags st = [] ->
  map tag_name (map snd (tags (generateTags controllers st))) =
  distinctCategories controllers.
Proof.
  intros Ht. unfold generateTags, distinctCategories.
  destruct (addTag_fold controllers [] st) as (Hk & Hn & Hs).
  - rewrite Ht. reflexivity.
  - rewrite Ht. constructor.
  - rewrite <- Hs, <- Hk. clear Hk Hs.
    induction Hn as [|[k t] l Ht' _ IH]; simpl; [reflexivity|].
    simpl in Ht'. rewrite Ht', IH. reflexivity.
Qed.

Lemma distinct_fold_elem_of (controllers : list ControllerMetadata)
    (set : list string) (name : string) :
  name ∈ fold_left
           (fun categories controller =>
              if Js.truthy (c_category controller)
              then Js.set_add (c_category controller) categories
              else categories)
           controllers set <->
  name ∈ set
  \/ (name <> "" /\ exists c, c ∈ controllers /\ c_category c = name).
Proof.
  revert set. induction controllers as [|c cs IH]; intros set; simpl.
  - split; [tauto|]. intros [H|(_ & c & Hc & _)]; [exact H | inversion Hc].
  - rewrite IH. destruct (Js.truthy (c_category c)) eqn:Et.
    + rewrite set_add_elem_of. split.
      * intros [[->|H]|(Hne & c' & Hc' & E)].
        -- right. split; [destruct (c_category c); [discriminate Et | discriminate]|].
           exists c. split; [left | reflexivity].
        -- left. exact H.
        -- right. split; [exact Hne|]. exists c'. split; [right; exact Hc' | exact E].
      * intros [H|(Hne & c' & Hc' & E)]; [left; right; exact H|].
        apply elem_of_cons in Hc' as [->|Hc'].
        -- left. left. symmetry. exact E.
        -- right. split; [exact Hne|]. exists c'. split; assumption.
    + split.
      * intros [H|(Hne & c' & Hc' & E)]; [left; exact H|].
        right. split; [exact Hne|]. exists c'. split; [right; exact Hc' | exact E].
      * intros [H|(Hne & c' & Hc' & E)]; [left; exact H|].
        apply elem_of_cons in Hc' as [->|Hc'].
        -- rewrite E in Et. destruct name; [congruence | discriminate Et].
        -- right. split; [exact Hne|]. exists c'. split; assumption.
Qed.

Lemma distinct_fold_NoDup (controllers : list ControllerMetadata)
    (set : list string) :
  NoDup set ->
  NoDup (fold_left
           (fun categories controller =>
              if Js.truthy (c_category controller)
              then Js.set_add (c_category controller) categories
              else categories)
           controllers set).
Proof.
  revert set. induction controllers as [|c cs IH]; intros set H; simpl; [exact H|].
  apply IH. destruct (Js.truthy (c_category c)); [apply set_add_NoDup|]; exact H.
Qed.

(** X1: the tag list of the document has one tag per distinct non-empty
    category of the controllers and no other tag, whatever comparison
    the host uses for sorting; it lists the same names as
    [getCategories]. *)
Theorem tags_are_the_distinct_categories
    (localeCompare : string -> string -> Z)
    (controllers : list ControllerMetadata) (options : AutoDocsOptions)
    (st : State) :
  NoDup (map tag_name
           (spec_tags (fst (generate localeCompare controllers options st))))
  /\ (forall name,
        name ∈ map tag_name
                 (spec_tags (fst (generate localeCompare controllers options st)))
        <-> name <> "" /\ exists c, c ∈ controllers /\ c_category c = name)
  /\ map tag_name
       (spec_tags (fst (generate localeCompare controllers options st)))
     ≡ₚ CategoryGenerator.getCategories controllers.
Proof.
  assert (Hperm :
    map tag_name
      (spec_tags (fst (generate localeCompare controllers options st)))
    ≡ₚ distinctCategories controllers).
  { simpl. rewrite sort_by_perm.
    rewrite (generateTags_names controllers
               {| schemas := []; tags := []; added := added st |} eq_refl).
    reflexivity. }
  split; [|split].
  - rewrite Hperm. apply distinct_fold_NoDup, NoDup_nil_2.
  - intros name. rewrite Hperm. unfold distinctCategories.
    rewrite distinct_fold_elem_of. split.
    + intros [H|H]; [inversion H | exact H].
    + intros H. right. exact H.
  - rewrite Hperm. unfold CategoryGenerator.getCategories.
    rewrite sort_by_perm. reflexivity.
Qed.

Lemma obj_get_elem_of {V : Type} (k : string) (v : V) (o : list (string * V)) :
  Js.obj_get k o = Some v -> v ∈ map snd o.
Proof.
  induction o as [|[k' v'] o IH]; simpl; [discriminate|].
  destruct (String.eqb k k').
  - intros [= ->]. left.
  - intros H. right. apply IH, H.
Qed.

Lemma addTag_fold_get (controllers : list ControllerMetadata)
    (set : list string) (st : State) (category : string) :
  map fst (tags st) = set -> category ∈ set ->
  Js.obj_get category (tags (snd (fold_left addTag controllers (set, st)))) =
  Js.obj_get category (tags st).
Proof.
  revert set st. induction controllers as [|c cs IH]; intros set st Hk Hin;
    cbn [fold_left]; [reflexivity|].
  unfold addTag at 2.
  destruct (Js.truthy (c_category c) &&
            negb (existsb (String.eqb (c_category c)) set)) eqn:E.
  - apply andb_prop in E as [_ E]. apply negb_true_iff in E.
    rewrite IH; simpl.
    + apply obj_get_set_ne. intros Heq. apply existsb_eqb_false in E.
      rewrite Heq in E. contradiction.
    + rewrite obj_set_keys, Hk. unfold Js.set_add. reflexivity.
    + apply set_add_elem_of. right. exact Hin.
  - apply IH; assumption.
Qed.

(** X2: the tag of a category is described by the first controller of
    that category: by its description when it has one, by the default
    text otherwise.  Later controllers of the category do not change
    it. *)
Theorem tag_description_from_first_controller
    (localeCompare : string -> string -> Z)
    (before after : list ControllerMetadata) (c : ControllerMetadata)
    (options : AutoDocsOptions) (st : State) :
  c_category c <> "" ->
  (forall c', c' ∈ before -> c_category c' <> c_category c) ->
  {| tag_name := c_category c;
     tag_description :=
       Js.or_default (c_description c)
         (c_category c +:+ " related endpoints") |}
  ∈ spec_tags (fst (generate localeCompare (before ++ c :: after) options st)).
Proof.
  intros Hne Hfirst. simpl. rewrite sort_by_perm.
  apply (obj_get_elem_of (c_category c)).
  unfold generateTags. rewrite fold_left_app. cbn [fold_left].
  set (st0 := {| schemas := []; tags := []; added := added st |}).
  destruct (addTag_fold before [] st0 eq_refl (Forall_nil_2 _)) as (Hk & _ & Hs).
  destruct (fold_left addTag before ([], st0)) as [set1 st1] eqn:E1.
  simpl in Hk, Hs.
  assert (Hnot : c_category c ∉ set1).
  { rewrite Hs. intros Hin. apply distinct_fold_elem_of in Hin as [Hin|(_ & c' & Hc' & E)].
    - inversion Hin.
    - apply (Hfirst c' Hc' E). }
  assert (Ht : Js.truthy (c_category c) = true)
    by (destruct (c_category c); [congruence | reflexivity]).
  apply existsb_eqb_false in Hnot.
  assert (Hadd : addTag (set1, st1) c =
            (Js.set_add (c_category c) set1,
             {| schemas := schemas st1;
                tags := Js.obj_set (c_category c)
                          {| tag_name := c_category c;
                             tag_description :=
                               Js.or_default (c_description c)
                                 (c_category c +:+ " related endpoints") |}
                          (tags st1);
                added := added st1 |})).
  { unfold addTag. rewrite Ht, Hnot. reflexivity. }
  rewrite Hadd, addTag_fold_get.
  - apply obj_get_set_eq.
  - cbn [tags]. rewrite obj_set_keys, Hk. unfold Js.set_add. reflexivity.
  - apply set_add_elem_of. left. reflexivity.
Qed.

Lemma tag_description_from_first_controller_witness :
  {| tag_name := "Admin"; tag_description := "Admin related endpoints" |}
  ∈ spec_tags (fst (generate Js.compare_strings
                      ([] ++ Examples.adminController :: [Examples.authController])
                      Examples.versionedOptions initial)).
Proof.
  apply (tag_description_from_first_controller Js.compare_strings []
           [Examples.authController] Examples.adminController
           Examples.versionedOptions initial).
  - discriminate.
  - intros c' Hc'. inversion Hc'.
Defined.

(** *** Servers *)

Lemma versions_fold_elem_of (controllers : list ControllerMetadata)
    (set : list string) (v : string) :
  v ∈ fold_left
        (fun versions controller =>
           if Js.truthy_opt (c_version controller)
           then Js.set_add (default "" (c_version controller)) versions
           else versions)
        controllers set <->
  v ∈ set \/ (v <> "" /\ exists c, c ∈ controllers /\ c_version c = Some v).
Proof.
  revert set. induction controllers as [|c cs IH]; intros set; simpl.
  - split; [tauto|]. intros [H|(_ & c & Hc & _)]; [exact H | inversion Hc].
  - rewrite IH. destruct (c_version c) as [[|x w]|] eqn:Ev; simpl.
    + split.
      * intros [H|(Hne & c' & Hc' & E)]; [left; exact H|].
        right. split; [exact Hne|]. exists c'. split; [right; exact Hc' | exact E].
      * intros [H|(Hne & c' & Hc' & E)]; [left; exact H|].
        apply elem_of_cons in Hc' as [->|Hc'].
        -- rewrite Ev in E. injection E as <-. congruence.
        -- right. split; [exact Hne|]. exists c'. split; assumption.
    + rewrite set_add_elem_of. split.
      * intros [[->|H]|(Hne & c' & Hc' & E)].
        -- right. split; [discriminate|]. exists c. split; [left | exact Ev].
        -- left. exact H.
        -- right. split; [exact Hne|]. exists c'. split; [right; exact Hc' | exact E].
      * intros [H|(Hne & c' & Hc' & E)]; [left; right; exact H|].
        apply elem_of_cons in Hc' as [->|Hc'].
        -- left. left. rewrite Ev in E. injection E as <-. reflexivity.
        -- right. split; [exact Hne|]. exists c'. split; assumption.
    + split.
      * intros [H|(Hne & c' & Hc' & E)]; [left; exact H|].
        right. split; [exact Hne|]. exists c'. split; [right; exact Hc' | exact E].
      * intros [H|(Hne & c' & Hc' & E)]; [left; exact H|].
        apply elem_of_cons in Hc' as [->|Hc'].
        -- rewrite Ev in E. discriminate E.
        -- right. split; [exact Hne|]. exists c'. split; assumption.
Qed.

Lemma versions_fold_NoDup (controllers : list ControllerMetadata)
    (set : list string) :
  NoDup set ->
  NoDup (fold_left
           (fun versions controller =>
              if Js.truthy_opt (c_version controller)
              then Js.set_add (default "" (c_version controller)) versions
              else versions)
           controllers set).
Proof.
  revert set. induction controllers as [|c cs IH]; intros set H; simpl; [exact H|].
  apply IH. destruct (Js.truthy_opt (c_version c)); [apply set_add_NoDup|]; exact H.
Qed.

(** X3: the inferred server list is never empty; with versioning enabled
    and a version detected it has one server per distinct detected
    version, in ascending order of the version text, each at
    [prefix/version]; a configured server list is used as it is. *)
Theorem default_servers
    (options : AutoDocsOptions) (controllers : list ControllerMetadata) :
  generateDefaultServers options controllers <> []
  /\ (versioning_enabled options = true ->
      (exists c version, c ∈ controllers /\ c_version c = Some version
                         /\ version <> "") ->
      exists versions,
        Sorted String.le versions /\ NoDup versions
        /\ (forall v, v ∈ versions <->
                      v <> "" /\ exists c, c ∈ controllers /\ c_version c = Some v)
        /\ generateDefaultServers options controllers =
           map (fun v =>
                  {| srv_url :=
                       Js.or_default (o_versioning options ≫= vg_prefix) "/api"
                         +:+ "/" +:+ v;
                     srv_description := Some ("API " +:+ Js.toUpperCase v) |})
               versions)
  /\ (forall localeCompare st servers,
        o_servers options = Some servers ->
        spec_servers (fst (generate localeCompare controllers options st))
          = servers).
Proof.
  split; [|split].
  - unfold generateDefaultServers.
    destruct (versioning_enabled options).
    + destruct (detectedVersions controllers) as [|v vs] eqn:Ev.
      * destruct (Js.truthy_opt _); discriminate.
      * assert (Hp : Js.sort_by Js.compare_strings (v :: vs) ≡ₚ v :: vs)
          by apply sort_by_perm.
        destruct (Js.sort_by Js.compare_strings (v :: vs)) as [|w ws];
          [apply Permutation_nil_l in Hp; discriminate Hp | discriminate].
    + destruct (Js.truthy_opt (o_globalPrefix options)); discriminate.
  - intros Hen (c & version & Hc & Hv & Hne).
    exists (Js.sort_by Js.compare_strings (detectedVersions controllers)).
    assert (Hmem : forall v,
              v ∈ detectedVersions controllers <->
              v <> "" /\ exists c, c ∈ controllers /\ c_version c = Some v).
    { intros v. unfold detectedVersions. rewrite versions_fold_elem_of.
      split; [intros [H|H]; [inversion H | exact H] | intros H; right; exact H]. }
    split; [apply sort_strings_sorted|]. split; [|split].
    + rewrite sort_by_perm. apply versions_fold_NoDup, NoDup_nil_2.
    + intros v. rewrite sort_by_perm. apply Hmem.
    + unfold generateDefaultServers. rewrite Hen.
      destruct (detectedVersions controllers) as [|v vs] eqn:Ev.
      * exfalso. assert (Hin : version ∈ @nil string).
        { apply Hmem. split; [exact Hne|]. exists c. split; assumption. }
        inversion Hin.
      * assert (Hp : Js.sort_by Js.compare_strings (v :: vs) ≡ₚ v :: vs)
          by apply sort_by_perm.
        destruct (Js.sort_by Js.compare_strings (v :: vs)) as [|w ws] eqn:Es;
          [apply Permutation_nil_l in Hp; discriminate Hp | reflexivity].
  - intros localeCompare st servers Hs. simpl. rewrite Hs. reflexivity.
Qed.

Lemma default_servers_witness :
  exists versions,
    versions = ["v1"; "v2"]
    /\ map srv_url
         (generateDefaultServers Examples.versionedOptions
            [Examples.controller (Some "v2") []; Examples.adminController;
             Examples.controller None []])
       = map (fun v => "/api/" +:+ v) versions.
Proof.
  destruct (default_servers Examples.versionedOptions
              [Examples.controller (Some "v2") []; Examples.adminController;
               Examples.controller None []]) as (_ & H & _).
  destruct H as (versions & _ & _ & _ & E).
  - reflexivity.
  - exists Examples.adminController, "v1".
    split; [right; left | split; [reflexivity | discriminate]].
  - exists ["v1"; "v2"]. split; [reflexivity|]. reflexivity.
Defined.

(** *** Operations of the paths map *)

(** X4: at a path template that plain objects do not inherit as the
    name of a property when the loops end, the operation the paths
    object holds under a verb is the operation of the last route, in the
    order of the controllers and of their routes, that has this path
    template and this verb; there is none when no route has them.  So
    of two routes with the same path template and verb only the later
    one is documented.  Only the names of the members of
    [Object.prototype] and of the verbs can be inherited; a name that is
    inherited before the loops is no key of the paths object, whatever
    the routes are. *)
Theorem last_route_documents_the_operation
    (controllers : list ControllerMetadata) (options : AutoDocsOptions)
    (added : ObjectPrototype.Added) (key : string) (m : HttpMethod) :
  (ObjectPrototype.inherits
     (snd (generatePaths controllers options added)) key = false ->
   lookupOperation (fst (generatePaths controllers options added)) key m =
     (fun cr => createOperation (snd cr) (fst cr))
       <$> last (List.filter (documentedAt options key m)
                   (routeList controllers))
   /\ (forall before c r after,
         routeList controllers = before ++ (c, r) :: after ->
         Forall (fun cr => documentedAt options key m cr = false) after ->
         routeFullPath options c r = key -> r_httpMethod r = m ->
         lookupOperation (fst (generatePaths controllers options added)) key m
           = Some (createOperation r c)))
  /\ (reserved key = false ->
      ObjectPrototype.inherits
        (snd (generatePaths controllers options added)) key = false)
  /\ (ObjectPrototype.inherits added key = true ->
      fst (generatePaths controllers options added) !! key = None).
Proof.
  split; [|split].
  - intros Hfree. split; [apply PathsMap.generatePaths_lookup, Hfree|].
    intros before c r after E Hafter Hk Hm.
    assert (Hdoc : documentedAt options key m (c, r) = true).
    { unfold documentedAt. apply bool_decide_eq_true_2. split; assumption. }
    assert (Hnil : List.filter (documentedAt options key m) after = []).
    { clear E. induction Hafter as [|x l Hx _ IH]; [reflexivity|].
      cbn [List.filter]. rewrite Hx. exact IH. }
    rewrite (PathsMap.generatePaths_lookup _ _ _ _ _ Hfree), E, List.filter_app.
    cbn [List.filter]. rewrite Hdoc, Hnil, last_snoc. reflexivity.
  - apply PathsMap.not_reserved.
  - apply PathsMap.generatePaths_absent.
Qed.

Lemma last_route_documents_the_operation_witness :
  lookupOperation
    (fst (generatePaths
            [Examples.controller None
               [Examples.getProfile; Examples.route "second" GET "profile" None]]
            Examples.prefixOptions []))
    "api/v1/admin/profile" GET
  = Some (createOperation (Examples.route "second" GET "profile" None)
            (Examples.controller None
               [Examples.getProfile;
                Examples.route "second" GET "profile" None]))
  /\ fst (generatePaths [Examples.constructorController]
            Examples.plainOptions []) !! "constructor" = None.
Proof.
  split.
  - destruct (last_route_documents_the_operation
                [Examples.controller None
                   [Examples.getProfile; Examples.route "second" GET "profile" None]]
                Examples.prefixOptions [] "api/v1/admin/profile" GET)
      as (H1 & H2 & _).
    destruct (H1 (H2 eq_refl)) as [_ H].
    apply (H [(Examples.controller None
                 [Examples.getProfile;
                  Examples.route "second" GET "profile" None],
               Examples.getProfile)] _ _ []).
    + reflexivity.
    + constructor.
    + reflexivity.
    + reflexivity.
  - destruct (last_route_documents_the_operation
                [Examples.constructorController] Examples.plainOptions []
                "constructor" GET) as (_ & _ & H3).
    apply H3. reflexivity.
Defined.




Lemma last_In {A : Type} (l : list A) (x : A) : last l = Some x -> In x l.
Proof.
  intros H. apply last_Some in H as [l' ->]. apply List.in_or_app. right. left.
  reflexivity.
Qed.

(** X5: every operation of the paths map was built from a route that has
    its path template and its verb.  It has the four responses 200, 400,
    401 and 500 and no other; it has a request body only under POST, PUT
    or PATCH and only when the route has one; it carries the security
    requirement exactly when the route is not public, and a tag exactly
    when the controller has a non-empty category. *)
Theorem operations_of_the_document
    (controllers : list ControllerMetadata) (options : AutoDocsOptions)
    (added : ObjectPrototype.Added)
    (key : string) (m : HttpMethod) (op : OperationObject) :
  lookupOperation (fst (generatePaths controllers options added)) key m
    = Some op ->
  exists c r,
    In c controllers /\ In r (c_routes c)
    /\ r_httpMethod r = m /\ routeFullPath options c r = key
    /\ op = createOperation r c
    /\ map fst (op_responses op) = ["200"; "400"; "401"; "500"]
    /\ (is_Some (op_requestBody op) <->
        (m = POST \/ m = PUT \/ m = PATCH) /\ is_Some (r_requestBody r))
    /\ (op_security op = None <-> r_isPublic r = true)
    /\ (op_tags op = None <-> c_category c = "").
Proof.
  intros Hop.
  apply PathsMap.generatePaths_operation in Hop as (c & r & Hc & Hr & Hkey & Hm & ->).
  exists c, r. split; [exact Hc|]. split; [exact Hr|]. split; [exact Hm|].
  split; [exact Hkey|]. split; [reflexivity|]. split; [reflexivity|].
  split; [|split].
  - simpl. rewrite Hm. split.
    + intros Hb. destruct m; try (destruct Hb as [x Hx]; discriminate Hx);
        (split; [tauto|]); destruct (r_requestBody r); eauto;
        destruct Hb as [x Hx]; discriminate Hx.
    + intros [[-> | [-> | ->]] [b ->]]; eauto.
  - simpl. destruct (r_isPublic r); split; congruence.
  - simpl. destruct (c_category c); simpl; split; congruence.
Qed.

Lemma operations_of_the_document_witness :
  exists c r,
    In c [Examples.adminController] /\ In r (c_routes c)
    /\ r_httpMethod r = GET
    /\ createOperation Examples.getProfile Examples.adminController
       = createOperation r c.
Proof.
  destruct (operations_of_the_document [Examples.adminController]
              Examples.versionedOptions [] "api/v1/admin/profile" GET
              (createOperation Examples.getProfile Examples.adminController))
    as (c & r & Hc & Hr & Hm & _ & E & _).
  - vm_compute. reflexivity.
  - exists c, r. repeat split; assumption.
Defined.

(** *** Shape of the path templates *)

Lemma ends_with_cons (p : ascii -> bool) (c : ascii) (s : string) :
  Js.ends_with p (String c s) =
  match s with EmptyString => p c | _ => Js.ends_with p s end.
Proof. destruct s; reflexivity. Qed.

Lemma ends_with_app (p : ascii -> bool) (a b : string) :
  Js.ends_with p (a +:+ b) =
  match b with EmptyString => Js.ends_with p a | _ => Js.ends_with p b end.
Proof.
  induction a as [|c a IH].
  - rewrite JsFacts.app_nil_l. destruct b; reflexivity.
  - rewrite JsFacts.app_cons, ends_with_cons, IH.
    destruct b as [|d b].
    + rewrite JsFacts.app_nil_r, ends_with_cons. reflexivity.
    + destruct a; reflexivity.
Qed.

Lemma replace_params_from_empty (s : string) (inside : bool) :
  Js.replace_params_from inside s = "" -> s = "" /\ inside = false.
Proof.
  destruct s as [|c r]; simpl.
  - destruct inside; [discriminate | tauto].
  - destruct (inside && Js.is_word c); [discriminate|].
    destruct (Js.is_colon c && Js.starts_with Js.is_word r), inside; discriminate.
Qed.

Lemma replace_params_from_ends (s : string) (inside : bool) :
  Js.ends_with Js.is_slash s = false ->
  Js.ends_with Js.is_slash (Js.replace_params_from inside s) = false.
Proof.
  revert inside. induction s as [|c r IH]; intros inside Hs.
  - destruct inside; reflexivity.
  - rewrite ends_with_cons in Hs.
    assert (Hr : forall b, Js.ends_with Js.is_slash
                             (String c (Js.replace_params_from b r)) = false
                           \/ (r = "" /\ b = false)).
    { intros b. destruct (Js.replace_params_from b r) as [|d t] eqn:E.
      - right. apply replace_params_from_empty, E.
      - left. rewrite ends_with_cons, <- E. apply IH. destruct r; [reflexivity | exact Hs]. }
    assert (Hbrace : forall t, Js.ends_with Js.is_slash (String "{" t) = false ->
                               Js.ends_with Js.is_slash (String "}" (String "{" t)) = false).
    { intros t H. exact H. }
    simpl. destruct (inside && Js.is_word c) eqn:Hw.
    + apply andb_prop in Hw as [-> Hw].
      rewrite ends_with_cons.
      destruct (Js.replace_params_from true r) as [|d t] eqn:E.
      * apply replace_params_from_empty in E as [_ E]. discriminate E.
      * rewrite <- E. apply IH. destruct r; [reflexivity | exact Hs].
    + assert (Hnext : Js.ends_with Js.is_slash
                (if Js.is_colon c && Js.starts_with Js.is_word r
                 then String "{" (Js.replace_params_from true r)
                 else String c (Js.replace_params_from false r)) = false).
      { destruct (Js.is_colon c && Js.starts_with Js.is_word r) eqn:Hc.
        - rewrite ends_with_cons.
          destruct (Js.replace_params_from true r) as [|d t] eqn:E.
          + apply replace_params_from_empty in E as [_ E]. discriminate E.
          + rewrite <- E. apply IH. destruct r; [reflexivity | exact Hs].
        - destruct (Hr false) as [H|[-> _]]; [exact H|]. simpl. exact Hs. }
      destruct inside; [|exact Hnext].
      rewrite ends_with_cons.
      destruct (if Js.is_colon c && Js.starts_with Js.is_word r
                then String "{" (Js.replace_params_from true r)
                else String c (Js.replace_params_from false r));
        [reflexivity | exact Hnext].
Qed.

Lemma replace_params_starts (s : string) :
  Js.starts_with Js.is_slash s = false ->
  Js.starts_with Js.is_slash (Js.replace_params s) = false.
Proof.
  destruct s as [|c r]; [reflexivity|]. unfold Js.replace_params. simpl.
  intros Hc. destruct (Js.is_colon c && Js.starts_with Js.is_word r);
    [reflexivity | exact Hc].
Qed.

Lemma combinePaths_no_trailing_separator (segments : list string) :
  Js.ends_with Js.is_slash (combinePaths segments) = false.
Proof.
  unfold combinePaths. rewrite JsFacts.filter_truthy_strip.
  unfold Js.filter_truthy, Js.join.
  induction segments as [|s l IH]; simpl; [reflexivity|].
  destruct (Js.truthy (Js.strip_slashes s)) eqn:Et; [|exact IH].
  simpl.
  destruct (List.filter Js.truthy (map Js.strip_slashes l)) as [|x xs] eqn:E.
  - apply JsFacts.strip_slashes_ends.
  - rewrite ends_with_app. change ("/" +:+ String.concat "/" (x :: xs))
      with (String "/" (String.concat "/" (x :: xs))).
    cbv iota. rewrite ends_with_cons.
    destruct (String.concat "/" (x :: xs)) as [|d t] eqn:Ec; [|exact IH].
    exfalso.
    assert (Hin : In x (List.filter Js.truthy (map Js.strip_slashes l)))
      by (rewrite E; left; reflexivity).
    apply List.filter_In in Hin as [_ Hx'].
    simpl in Ec. destruct xs; [subst x; discriminate Hx'|].
    destruct x; [discriminate Hx' | discriminate Ec].
Qed.

(** X6: no path template of the paths map starts or ends with a
    separator (so none has the leading separator of an absolute path). *)
Theorem path_templates_are_relative
    (controllers : list ControllerMetadata) (options : AutoDocsOptions)
    (added : ObjectPrototype.Added) (key : string) :
  is_Some (fst (generatePaths controllers options added) !! key) ->
  Js.starts_with Js.is_slash key = false
  /\ Js.ends_with Js.is_slash key = false.
Proof.
  intros H. apply PathsMap.generatePaths_keys in H
    as (c & r & _ & _ & ->).
  unfold routeFullPath. split.
  - apply replace_params_starts, PathCombination.combinePaths_no_leading_separator.
  - apply replace_params_from_ends, combinePaths_no_trailing_separator.
Qed.

Lemma path_templates_are_relative_witness :
  Js.starts_with Js.is_slash "api/v1/admin/profile" = false
  /\ Js.ends_with Js.is_slash "api/v1/admin/profile" = false.
Proof.
  apply (path_templates_are_relative [Examples.adminController]
           Examples.versionedOptions []).
  vm_compute. eexists. reflexivity.
Defined.

(** *** Composition of path combination and of placeholder rewriting *)

Lemma join_cons (sep x : string) (xs : list string) :
  Js.join sep (x :: xs) =
  match xs with [] => x | _ => x +:+ sep +:+ Js.join sep xs end.
Proof. destruct xs; reflexivity. Qed.

Lemma join_app (sep : string) (a b : list string) :
  a <> [] -> b <> [] ->
  Js.join sep (a ++ b) = Js.join sep a +:+ sep +:+ Js.join sep b.
Proof.
  intros Ha Hb. induction a as [|x a IH]; [congruence|].
  destruct a as [|y a].
  - simpl app. rewrite join_cons. destruct b; [congruence | reflexivity].
  - change ((x :: y :: a) ++ b) with (x :: ((y :: a) ++ b)).
    rewrite (join_cons sep x ((y :: a) ++ b)), (join_cons sep x (y :: a)).
    rewrite IH by discriminate. simpl app.
    rewrite !JsFacts.app_assoc. reflexivity.
Qed.

Lemma combinePaths_pieces (segments : list string) :
  combinePaths segments =
  Js.join "/" (Js.filter_truthy (map Js.strip_slashes segments)).
Proof. unfold combinePaths. rewrite JsFacts.filter_truthy_strip. reflexivity. Qed.

Lemma combinePaths_stripped (segments : list string) :
  Js.strip_slashes (combinePaths segments) = combinePaths segments.
Proof.
  unfold Js.strip_slashes.
  rewrite (JsFacts.drop_leading_id _ _
             (PathCombination.combinePaths_no_leading_separator segments)).
  apply JsFacts.drop_trailing_id, combinePaths_no_trailing_separator.
Qed.

Lemma combinePaths_truthy (segments : list string) :
  Js.filter_truthy (map Js.strip_slashes segments) <> [] ->
  Js.truthy (combinePaths segments) = true.
Proof.
  rewrite combinePaths_pieces. unfold Js.filter_truthy.
  destruct (List.filter Js.truthy (map Js.strip_slashes segments)) as [|x xs] eqn:E;
    [congruence|]. intros _.
  assert (Hx : Js.truthy x = true).
  { assert (Hin : In x (List.filter Js.truthy (map Js.strip_slashes segments)))
      by (rewrite E; left; reflexivity).
    apply List.filter_In in Hin as [_ Hx]. exact Hx. }
  rewrite join_cons. destruct x as [|c x]; [discriminate Hx|].
  destruct xs; reflexivity.
Qed.

(** X7: path combination composes: combining two runs of segments at
    once gives the same text as combining each run and then combining
    the two results; in particular a prefix can be applied to an already
    combined path, and combining a combined path again changes
    nothing. *)
Theorem combinePaths_composes (a b : list string) :
  combinePaths (a ++ b) = combinePaths [combinePaths a; combinePaths b]
  /\ combinePaths [combinePaths a] = combinePaths a.
Proof.
  assert (Hone : forall l, combinePaths [combinePaths l] = combinePaths l).
  { intros l. rewrite (combinePaths_pieces [combinePaths l]). simpl.
    rewrite combinePaths_stripped.
    destruct (Js.truthy (combinePaths l)) eqn:Et; [reflexivity|].
    destruct (combinePaths l); [reflexivity | discriminate Et]. }
  split; [|apply Hone].
  rewrite (combinePaths_pieces [combinePaths a; combinePaths b]). simpl.
  rewrite !combinePaths_stripped.
  rewrite (combinePaths_pieces (a ++ b)), map_app.
  unfold Js.filter_truthy at 1. rewrite List.filter_app.
  fold (Js.filter_truthy (map Js.strip_slashes a)).
  fold (Js.filter_truthy (map Js.strip_slashes b)).
  destruct (Js.filter_truthy (map Js.strip_slashes a)) as [|x xs] eqn:Ea.
  - assert (Hea : combinePaths a = "") by (rewrite combinePaths_pieces, Ea; reflexivity).
    rewrite Hea. simpl.
    destruct (Js.truthy (combinePaths b)) eqn:Et.
    + rewrite (combinePaths_pieces b). reflexivity.
    + rewrite <- combinePaths_pieces.
      destruct (combinePaths b); [reflexivity | discriminate Et].
  - assert (Hta : Js.truthy (combinePaths a) = true)
      by (apply combinePaths_truthy; rewrite Ea; discriminate).
    rewrite Hta.
    destruct (Js.filter_truthy (map Js.strip_slashes b)) as [|y ys] eqn:Eb.
    + assert (Heb : combinePaths b = "") by (rewrite combinePaths_pieces, Eb; reflexivity).
      rewrite Heb, List.app_nil_r. simpl.
      rewrite combinePaths_pieces, Ea. reflexivity.
    + assert (Htb : Js.truthy (combinePaths b) = true)
        by (apply combinePaths_truthy; rewrite Eb; discriminate).
      rewrite Htb, join_app by discriminate.
      rewrite (combinePaths_pieces a), (combinePaths_pieces b), Ea, Eb.
      reflexivity.
Qed.

Lemma replace_params_fixed (s : string) :
  Js.has_colon_token s = false -> Js.replace_params s = s.
Proof.
  unfold Js.replace_params. induction s as [|c r IH]; simpl; [reflexivity|].
  intros H. apply orb_false_elim in H as [Hc Hr].
  rewrite Hc, (IH Hr). reflexivity.
Qed.

(** X8: placeholder rewriting is idempotent and leaves a text without a
    colon-prefixed name unchanged; every path template of the paths map
    is a fixed point of it. *)
Theorem replace_params_idempotent :
  (forall s, Js.replace_params (Js.replace_params s) = Js.replace_params s)
  /\ (forall s, Js.has_colon_token s = false -> Js.replace_params s = s)
  /\ (forall controllers options added key,
        is_Some (fst (generatePaths controllers options added) !! key) ->
        Js.replace_params key = key).
Proof.
  split; [|split].
  - intros s. apply replace_params_fixed, JsFacts.replace_params_from_no_token.
  - apply replace_params_fixed.
  - intros controllers options added key H.
    apply PathsMap.generatePaths_keys in H as (c & r & _ & _ & ->).
    apply replace_params_fixed, JsFacts.replace_params_from_no_token.
Qed.

Lemma replace_params_idempotent_witness :
  Js.replace_params "admin/{id}/x:" = "admin/{id}/x:"
  /\ Js.replace_params "api/v1/admin/profile" = "api/v1/admin/profile".
Proof.
  destruct replace_params_idempotent as (_ & H2 & H3).
  split.
  - apply H2. reflexivity.
  - apply (H3 [Examples.adminController] Examples.versionedOptions []).
    vm_compute. eexists. reflexivity.
Defined.

End GeneratorExtras.

(* ===================================================================== *)
(** ** Further properties of the category generator                      *)
(* ===================================================================== *)

Module CategoryExtras.
Import CategoryGenerator Derived CollectionFacts.

(** *** What the paths object and the servers depend on *)

Lemma addRoute_agree (options : AutoDocsOptions) (c c' : ControllerMetadata)
    (r : RouteMetadata)
    (acc acc' : gmap string PathItemObject * ObjectPrototype.Added) :
  OpenApiGenerator.routeFullPath options c r
    = OpenApiGenerator.routeFullPath options c' r ->
  dom (fst acc) = dom (fst acc') -> snd acc = snd acc' ->
  dom (fst (OpenApiGenerator.addRoute options c acc r))
  = dom (fst (OpenApiGenerator.addRoute options c' acc' r))
  /\ snd (OpenApiGenerator.addRoute options c acc r)
     = snd (OpenApiGenerator.addRoute options c' acc' r).
Proof.
  intros Hkey Hd Ha. unfold OpenApiGenerator.addRoute. rewrite <- Hkey, <- Ha.
  set (key := OpenApiGenerator.routeFullPath options c r).
  assert (Hk : is_Some (fst acc !! key) <-> is_Some (fst acc' !! key))
    by (rewrite <- !elem_of_dom, Hd; reflexivity).
  destruct (fst acc !! key) as [item|] eqn:E1;
    destruct (fst acc' !! key) as [item'|] eqn:E2.
  - cbn [fst snd]. rewrite !dom_insert_L, Hd. split; reflexivity.
  - exfalso. destruct (proj1 Hk (ex_intro _ _ eq_refl)) as [x Hx]. discriminate Hx.
  - exfalso. destruct (proj2 Hk (ex_intro _ _ eq_refl)) as [x Hx]. discriminate Hx.
  - destruct (ObjectPrototype.inherits (snd acc) key); cbn [fst snd].
    + split; [exact Hd | reflexivity].
    + rewrite !dom_insert_L, Hd. split; reflexivity.
Qed.

Lemma routeFullPath_agree (options : AutoDocsOptions)
    (c c' : ControllerMetadata) (r : RouteMetadata) :
  c_path c = c_path c' -> c_version c = c_version c' ->
  OpenApiGenerator.routeFullPath options c r
  = OpenApiGenerator.routeFullPath options c' r.
Proof.
  intros Hp Hv.
  unfold OpenApiGenerator.routeFullPath, OpenApiGenerator.routeSegments.
  rewrite Hp, Hv. reflexivity.
Qed.

Lemma addController_agree (options : AutoDocsOptions)
    (c c' : ControllerMetadata) :
  c_path c = c_path c' -> c_version c = c_version c' ->
  c_routes c = c_routes c' ->
  forall acc acc',
    dom (fst acc) = dom (fst acc') -> snd acc = snd acc' ->
    dom (fst (OpenApiGenerator.addController options acc c))
    = dom (fst (OpenApiGenerator.addController options acc' c'))
    /\ snd (OpenApiGenerator.addController options acc c)
       = snd (OpenApiGenerator.addController options acc' c').
Proof.
  intros Hp Hv Hr. unfold OpenApiGenerator.addController. rewrite <- Hr.
  generalize (c_routes c) as routes.
  induction routes as [|r routes IH]; intros acc acc' Hd Ha; cbn [fold_left].
  - split; assumption.
  - destruct (addRoute_agree options c c' r acc acc'
                (routeFullPath_agree options c c' r Hp Hv) Hd Ha) as [Hd' Ha'].
    apply IH; assumption.
Qed.

Lemma generatePaths_agree (options : AutoDocsOptions)
    (controllers controllers' : list ControllerMetadata)
    (added : ObjectPrototype.Added) :
  map (fun c => (c_path c, c_version c, c_routes c)) controllers'
  = map (fun c => (c_path c, c_version c, c_routes c)) controllers ->
  dom (fst (OpenApiGenerator.generatePaths controllers' options added))
  = dom (fst (OpenApiGenerator.generatePaths controllers options added))
  /\ snd (OpenApiGenerator.generatePaths controllers' options added)
     = snd (OpenApiGenerator.generatePaths controllers options added).
Proof.
  unfold OpenApiGenerator.generatePaths.
  assert (G : forall cs cs' acc acc',
            map (fun c => (c_path c, c_version c, c_routes c)) cs'
            = map (fun c => (c_path c, c_version c, c_routes c)) cs ->
            dom (fst acc') = dom (fst acc) -> snd acc' = snd acc ->
            dom (fst (fold_left (OpenApiGenerator.addController options) cs' acc'))
            = dom (fst (fold_left (OpenApiGenerator.addController options) cs acc))
            /\ snd (fold_left (OpenApiGenerator.addController options) cs' acc')
               = snd (fold_left (OpenApiGenerator.addController options) cs acc)).
  { induction cs as [|c cs IH]; intros [|c' cs'] acc acc' Hm Hd Ha;
      try discriminate Hm; cbn [fold_left].
    - split; assumption.
    - cbn [map] in Hm. injection Hm as Hp Hv Hr Hm.
      destruct (addController_agree options c' c Hp Hv Hr acc' acc Hd Ha)
        as [Hd' Ha'].
      apply IH; assumption. }
  intros Hm. apply G; [exact Hm | reflexivity | reflexivity].
Qed.

Lemma detectedVersions_agree (controllers controllers' : list ControllerMetadata) :
  map c_version controllers' = map c_version controllers ->
  OpenApiGenerator.detectedVersions controllers'
  = OpenApiGenerator.detectedVersions controllers.
Proof.
  unfold OpenApiGenerator.detectedVersions. generalize (@nil string).
  revert controllers'.
  induction controllers as [|c cs IH]; intros [|c' cs'] acc Hm;
    try discriminate Hm; [reflexivity|].
  cbn [map] in Hm. injection Hm as Hv Hm. cbn [fold_left].
  rewrite Hv. apply IH, Hm.
Qed.

(** X9: applying a category mapping changes categories only: the
    controllers it returns keep their number, order, names, paths,
    versions and routes.  And the path templates of the paths object,
    what is added to [Object.prototype] and the inferred server list
    depend on the paths, versions and routes of the controllers alone,
    so they are the same before and after the mapping, whatever the
    categories become. *)
Theorem category_mapping_changes_categories_only :
  (forall controllers mapped mapping added,
      applyCategoryMapping controllers mapping added = Some mapped ->
      map (fun c => (c_name c, c_path c, c_version c, c_routes c)) mapped
      = map (fun c => (c_name c, c_path c, c_version c, c_routes c))
          controllers)
  /\ (forall controllers controllers' options added,
        map (fun c => (c_path c, c_version c, c_routes c)) controllers'
        = map (fun c => (c_path c, c_version c, c_routes c)) controllers ->
        dom (fst (OpenApiGenerator.generatePaths controllers' options added))
        = dom (fst (OpenApiGenerator.generatePaths controllers options added))
        /\ snd (OpenApiGenerator.generatePaths controllers' options added)
           = snd (OpenApiGenerator.generatePaths controllers options added)
        /\ OpenApiGenerator.generateDefaultServers options controllers'
           = OpenApiGenerator.generateDefaultServers options controllers).
Proof.
  split.
  - intros controllers mapped mapping added H.
    destruct (CategoryFacts.applyCategoryMapping_Some _ _ _ _ H) as [f ->].
    rewrite map_map. reflexivity.
  - intros controllers controllers' options added Hm.
    destruct (generatePaths_agree options controllers controllers' added Hm)
      as [Hd Ha].
    split; [exact Hd|]. split; [exact Ha|].
    unfold OpenApiGenerator.generateDefaultServers.
    rewrite (detectedVersions_agree controllers controllers'); [reflexivity|].
    apply (f_equal (map (fun t => snd (fst t)))) in Hm.
    rewrite !map_map in Hm. exact Hm.
Qed.

Lemma category_mapping_changes_categories_only_witness :
  map c_name
    (default []
       (applyCategoryMapping [Examples.authController]
          (Some Examples.categoryMapping) []))
  = ["AuthController"]
  /\ dom (fst (OpenApiGenerator.generatePaths
                 [withCategory Examples.adminController "Administration"]
                 Examples.versionedOptions []))
     = dom (fst (OpenApiGenerator.generatePaths [Examples.adminController]
                   Examples.versionedOptions [])).
Proof.
  destruct category_mapping_changes_categories_only as [H1 H2].
  split.
  - destruct (applyCategoryMapping [Examples.authController]
                (Some Examples.categoryMapping) []) as [mapped|] eqn:E;
      [|discriminate E].
    pose proof (H1 _ _ _ _ E) as H.
    apply (f_equal (map (fun t => fst (fst (fst t))))) in H.
    rewrite !map_map in H. exact H.
  - apply (H2 [Examples.adminController]
              [withCategory Examples.adminController "Administration"]
              Examples.versionedOptions []).
    reflexivity.
Defined.

(** X10: [getCategories] returns the distinct non-empty categories of
    the controllers, each once, in ascending order. *)
Theorem getCategories_sorted_distinct (controllers : list ControllerMetadata) :
  Sorted String.le (getCategories controllers)
  /\ NoDup (getCategories controllers)
  /\ (forall name,
        name ∈ getCategories controllers <->
        name <> "" /\ exists c, c ∈ controllers /\ c_category c = name).
Proof.
  unfold getCategories. split; [apply sort_strings_sorted|]. split.
  - rewrite sort_by_perm. apply GeneratorExtras.distinct_fold_NoDup, NoDup_nil_2.
  - intros name. rewrite sort_by_perm, GeneratorExtras.distinct_fold_elem_of.
    split; [intros [H|H]; [inversion H | exact H] | intros H; right; exact H].
Qed.

(** *** Grouping *)

(** X11: [groupByCategory] raises a [TypeError] exactly when some
    controller is filed under a name that plain objects inherit from
    [Object.prototype]; otherwise it partitions the controllers: under
    a key it holds exactly the controllers of that category (of the
    empty category for [Uncategorized]) in their order, and a key
    without controller is absent. *)
Theorem groupByCategory_partitions (controllers : list ControllerMetadata)
    (added : ObjectPrototype.Added) :
  (groupByCategory controllers added = TypeError <->
   exists c, In c controllers
             /\ ObjectPrototype.inherits added (groupKey c) = true)
  /\ (forall message, groupByCategory controllers added <> Throw message)
  /\ (forall grouped,
        groupByCategory controllers added = Ok grouped ->
        (forall key,
            grouped !! key =
            OpenApiGenerator.nonempty_list
              (List.filter (fun c => String.eqb (groupKey c) key) controllers))
        /\ (forall key members,
              grouped !! key = Some members ->
              members <> []
              /\ Forall (fun c => if String.eqb key "Uncategorized"
                                  then c_category c = "" \/ c_category c = key
                                  else c_category c = key) members)).
Proof.
  split; [apply Grouping.groupByCategory_TypeError|].
  split; [intros message; apply Grouping.groupFrom_no_message|].
  intros grouped Hok.
  assert (Hget : forall key,
      grouped !! key =
      OpenApiGenerator.nonempty_list
        (List.filter (fun c => String.eqb (groupKey c) key) controllers)).
  { intros key. rewrite (Grouping.groupFrom_Ok _ _ _ _ key Hok), lookup_empty.
    destruct (List.filter _ controllers); reflexivity. }
  split; [exact Hget|].
  intros key members Hk. rewrite Hget in Hk.
  destruct (List.filter _ controllers) as [|x l] eqn:Ef; [discriminate|].
  injection Hk as <-. split; [discriminate|].
  apply List.Forall_forall. intros c Hc. rewrite <- Ef in Hc.
  apply List.filter_In in Hc as [_ Hc]. apply String.eqb_eq in Hc.
  unfold groupKey in Hc.
  destruct (Js.truthy (c_category c)) eqn:Et.
  - subst key. destruct (String.eqb _ "Uncategorized"); [right|]; reflexivity.
  - subst key. simpl. left. destruct (c_category c); [reflexivity | discriminate Et].
Qed.

Lemma groupByCategory_partitions_witness :
  (exists grouped,
      groupByCategory
        [Examples.adminController; Examples.authController;
         Examples.adminController] [] = Ok grouped
      /\ grouped !! "Admin"
         = Some [Examples.adminController; Examples.adminController])
  /\ groupByCategory [Examples.controllerAt "x" "__proto__"] [] = TypeError.
Proof.
  split.
  - destruct (groupByCategory
                [Examples.adminController; Examples.authController;
                 Examples.adminController] []) as [grouped| |] eqn:E;
      [|discriminate E|discriminate E].
    exists grouped. split; [reflexivity|].
    destruct (groupByCategory_partitions
                [Examples.adminController; Examples.authController;
                 Examples.adminController] []) as (_ & _ & H).
    destruct (H grouped E) as [Hget _]. rewrite Hget. reflexivity.
  - apply (groupByCategory_partitions [Examples.controllerAt "x" "__proto__"] []).
    exists (Examples.controllerAt "x" "__proto__").
    split; [left; reflexivity | reflexivity].
Defined.

End CategoryExtras.

(* ===================================================================== *)
(** ** Further properties of the route scanner                           *)
(* ===================================================================== *)

Module RouteScannerExtras.
Import RouteScanner Derived.

Lemma collapse_slashes_starts (s : string) :
  Js.starts_with Js.is_slash (Js.collapse_slashes s) =
  Js.starts_with Js.is_slash s.
Proof.
  induction s as [|c r IH]; simpl; [reflexivity|].
  destruct (Js.is_slash c) eqn:Ec; simpl.
  - destruct (Js.starts_with Js.is_slash r) eqn:Er; simpl.
    + exact IH.
    + exact Ec.
  - exact Ec.
Qed.

Lemma collapse_slashes_no_double (s : string) :
  has_double_slash (Js.collapse_slashes s) = false.
Proof.
  induction s as [|c r IH]; simpl; [reflexivity|].
  destruct (Js.is_slash c && Js.starts_with Js.is_slash r) eqn:E; [exact IH|].
  simpl. rewrite collapse_slashes_starts, E, IH. reflexivity.
Qed.

Lemma starts_with_slash (s : string) :
  Js.starts_with Js.is_slash s = true -> exists t, s = String "/" t.
Proof.
  destruct s as [|c t]; simpl; [discriminate|]. unfold Js.is_slash.
  intros H. apply Ascii.eqb_eq in H. subst. eauto.
Qed.

Lemma collapse_rooted (s : string) :
  exists t, Js.collapse_slashes ("/" +:+ s) = String "/" t
            /\ has_double_slash t = false.
Proof.
  destruct (starts_with_slash (Js.collapse_slashes ("/" +:+ s))) as [t Ht].
  - rewrite collapse_slashes_starts. reflexivity.
  - exists t. split; [exact Ht|].
    pose proof (collapse_slashes_no_double ("/" +:+ s)) as H.
    rewrite Ht in H. simpl in H. apply orb_false_elim in H as [_ H]. exact H.
Qed.

Lemma combinePaths_rooted (base path : string) :
  exists t, combinePaths base path = String "/" t
            /\ has_double_slash t = false.
Proof.
  unfold combinePaths.
  destruct (negb (Js.truthy base) && negb (Js.truthy path)).
  - exists "". split; reflexivity.
  - destruct (negb (Js.truthy base)); [apply collapse_rooted|].
    destruct (negb (Js.truthy path)); [apply collapse_rooted|].
    eexists. split; [reflexivity|]. apply collapse_slashes_no_double.
Qed.

(** X12: the full path the route scanner builds always starts with a
    separator, and after that first character it has no two adjacent
    separators. *)
Theorem scanner_paths_are_rooted (base path : string) :
  exists t, combinePaths base path = String "/" t
            /\ has_double_slash t = false.
Proof. apply combinePaths_rooted. Qed.

(** X13: the schema documented for a parameter the scanner extracted is
    the bare type text when the declared type is string, number or
    boolean, and the empty schema in every other case: an array or
    enumeration parameter gets no [array] or [enum] schema. *)
Theorem scanned_parameter_schema
    (param : ParameterDecl) (decorator : DecoratorDecl) (name : string)
    (pm : ParamMetadata) :
  buildParamMetadata param decorator name = Some pm ->
  po_schema (OpenApiGenerator.parameterObject pm) =
  if pd_isString param || pd_isNumber param || pd_isBoolean param
  then {| s_type := Some (pd_typeText param); s_format := None;
          s_items := None; s_enum := None; s_properties := None;
          s_required := None; s_description := None; s_minLength := None;
          s_maxLength := None; s_pattern := None; s_minimum := None;
          s_maximum := None; s_minItems := None; s_maxItems := None |}
  else empty_schema.
Proof.
  unfold buildParamMetadata. intros [= <-]. simpl.
  destruct (pd_isString param || pd_isNumber param || pd_isBoolean param);
    [reflexivity|].
  destruct (pd_isArray param), (pd_isEnum param); reflexivity.
Qed.

Lemma scanned_parameter_schema_witness :
  po_schema (OpenApiGenerator.parameterObject
               {| pm_name := "id"; pm_in := InPath;
                  pm_type :=
                    Some {| t_type := "string"; t_isPrimitive := true;
                            t_isArray := false; t_isEnum := false;
                            t_isOptional := true; t_format := None;
                            t_elementType := None; t_enumValues := None;
                            t_properties := None |};
                  pm_required := true; pm_description := None |})
  = {| s_type := Some "string"; s_format := None;
       s_items := None; s_enum := None; s_properties := None;
       s_required := None; s_description := None; s_minLength := None;
       s_maxLength := None; s_pattern := None; s_minimum := None;
       s_maximum := None; s_minItems := None; s_maxItems := None |}.
Proof.
  apply (scanned_parameter_schema Examples.optionalIdDecl
           Examples.paramDecorator "Param").
  reflexivity.
Defined.

Lemma fold_no_constraints (vs : list ValidatorMetadata) (schema : SchemaObject) :
  Forall (fun v => v_constraints v = None) vs ->
  fold_left OpenApiGenerator.applyValidatorConstraints vs schema = schema.
Proof.
  intros H. revert schema. induction H as [|v vs Hv _ IH]; intros schema; simpl;
    [reflexivity|].
  unfold OpenApiGenerator.applyValidatorConstraints at 2. rewrite Hv. apply IH.
Qed.

Lemma extractPropertyValidators_constraints (decorators : list DecoratorDecl) :
  Forall (fun v => v_constraints v = None) (extractPropertyValidators decorators).
Proof.
  unfold extractPropertyValidators. apply List.Forall_forall. intros v Hin.
  apply List.in_flat_map in Hin as (d & _ & Hin).
  destruct (existsb _ validatorNames); [|inversion Hin].
  destruct Hin as [<-|[]]. reflexivity.
Qed.

(** X14: the validators the scanner extracts from property decorators
    are the decorators with a known validator name, in order, and carry
    no constraints; so they leave the schema of the property as it is
    without validators. *)
Theorem scanned_validators_do_not_change_the_schema
    (decorators : list DecoratorDecl) (name : string)
    (type : option TypeMetadata) (required : bool)
    (description : option string) :
  map v_name (extractPropertyValidators decorators) =
    List.filter (fun n => existsb (String.eqb n) validatorNames)
      (map d_name decorators)
  /\ OpenApiGenerator.convertPropertyToSchema
       {| p_name := name; p_type := type; p_required := required;
          p_description := description;
          p_validators := Some (extractPropertyValidators decorators) |}
     = OpenApiGenerator.convertPropertyToSchema
         {| p_name := name; p_type := type; p_required := required;
            p_description := description; p_validators := None |}.
Proof.
  split.
  - unfold extractPropertyValidators.
    induction decorators as [|d ds IH]; [reflexivity|].
    cbn [flat_map map List.filter]. rewrite map_app, IH.
    destruct (existsb (String.eqb (d_name d)) validatorNames); reflexivity.
  - unfold OpenApiGenerator.convertPropertyToSchema,
      OpenApiGenerator.convertPropertyWith. simpl.
    rewrite fold_no_constraints by apply extractPropertyValidators_constraints.
    reflexivity.
Qed.

(** X15: a parameter the scanner extracts is located in the path, the
    query or a header (never the body) according to its decorator, and
    is flagged required exactly when it is a path parameter: query and
    header parameters are never flagged required.  One parameter is
    extracted per [Param], [Query] or [Headers] decorator. *)
Theorem scanned_parameters
    (parameters : list (ParameterDecl * list DecoratorDecl)) :
  Forall (fun pm => pm_in pm <> InBody
                    /\ pm_required pm = location_eqb (pm_in pm) InPath)
    (extractParameters parameters)
  /\ map pm_in (extractParameters parameters) =
     flat_map
       (fun pd =>
          flat_map
            (fun d =>
               if String.eqb (d_name d) "Param" then [InPath]
               else if String.eqb (d_name d) "Query" then [InQuery]
               else if String.eqb (d_name d) "Headers" then [InHeader]
               else [])
            (snd pd))
       parameters.
Proof.
  split.
  - apply List.Forall_forall. intros pm Hin.
    unfold extractParameters in Hin.
    apply List.in_flat_map in Hin as ([param decorators] & _ & Hin).
    apply List.in_flat_map in Hin as (decorator & _ & Hin).
    destruct (String.eqb (d_name decorator) "Body"); [inversion Hin|].
    destruct (existsb _ _); [|inversion Hin].
    simpl in Hin. destruct Hin as [<-|[]]. simpl.
    destruct (String.eqb (d_name decorator) "Param"); [split; [discriminate | reflexivity]|].
    destruct (String.eqb (d_name decorator) "Headers");
      split; (discriminate || reflexivity).
  - unfold extractParameters.
    induction parameters as [|[param decorators] ps IH]; [reflexivity|].
    cbn [flat_map snd]. rewrite map_app, IH. f_equal.
    induction decorators as [|d ds IHd]; [reflexivity|].
    cbn [flat_map]. rewrite map_app, IHd. f_equal.
    unfold buildParamMetadata. cbn [existsb].
    destruct (String.eqb (d_name d) "Body") eqn:Eb;
      destruct (String.eqb (d_name d) "Param") eqn:Ep;
      destruct (String.eqb (d_name d) "Query") eqn:Eq;
      destruct (String.eqb (d_name d) "Headers") eqn:Eh;
      try reflexivity;
      repeat match goal with
             | H : String.eqb _ _ = true |- _ => apply String.eqb_eq in H
             end;
      congruence.
Qed.

Lemma remove_chars_has_char (p : ascii -> bool) (s : string) :
  Js.has_char p (Js.remove_chars p s) = false.
Proof.
  induction s as [|c r IH]; simpl; [reflexivity|].
  destruct (p c) eqn:E; [exact IH|]. simpl. rewrite E, IH. reflexivity.
Qed.

(** X16: the base path read from a [Controller] decorator is never
    empty: without argument, with an argument that is not a literal, or
    with an empty literal it is the root path.  The path read from a
    string literal contains no quote character and the path read from a
    template contains no backtick. *)
Theorem decorator_paths (decorator : DecoratorNode) :
  ControllerScanner.extractControllerPath decorator <> ""
  /\ (dn_args decorator = [] ->
      ControllerScanner.extractControllerPath decorator = "/"
      /\ extractRoutePath decorator = "")
  /\ (forall firstArg rest,
        dn_args decorator = firstArg :: rest ->
        arg_kind firstArg = StringLiteral ->
        Js.has_char is_quote (extractRoutePath decorator) = false
        /\ Js.has_char is_quote
             (ControllerScanner.extractControllerPath decorator) = false)
  /\ (forall firstArg rest,
        dn_args decorator = firstArg :: rest ->
        arg_kind firstArg <> StringLiteral ->
        Js.has_char is_backtick (extractRoutePath decorator) = false).
Proof.
  unfold ControllerScanner.extractControllerPath, extractRoutePath.
  split; [|split; [|split]].
  - destruct (dn_args decorator) as [|a rest]; [discriminate|].
    destruct (arg_kind a); try discriminate;
      unfold Js.or_default;
      match goal with |- context [Js.truthy ?x] => destruct x end;
      discriminate.
  - intros ->. split; reflexivity.
  - intros a rest -> ->. split; [apply remove_chars_has_char|].
    unfold Js.or_default.
    destruct (unquote (arg_text a)) eqn:E; [reflexivity|].
    simpl Js.truthy. cbv iota. rewrite <- E. apply remove_chars_has_char.
  - intros a rest -> Hk.
    destruct (arg_kind a); try congruence; try reflexivity;
      apply remove_chars_has_char.
Qed.

Lemma decorator_paths_witness :
  ControllerScanner.extractControllerPath
    {| dn_name := "Controller"; dn_args := [] |} = "/"
  /\ Js.has_char is_quote
       (extractRoutePath
          {| dn_name := "Get";
             dn_args := [{| arg_kind := StringLiteral;
                            arg_text := "':id'" |}] |}) = false
  /\ Js.has_char is_backtick
       (extractRoutePath
          {| dn_name := "Get";
             dn_args := [{| arg_kind := NoSubstitutionTemplateLiteral;
                            arg_text := "`list`" |}] |}) = false.
Proof.
  split; [|split].
  - apply (decorator_paths {| dn_name := "Controller"; dn_args := [] |}).
    reflexivity.
  - destruct (decorator_paths
                {| dn_name := "Get";
                   dn_args := [{| arg_kind := StringLiteral;
                                  arg_text := "':id'" |}] |})
      as (_ & _ & H & _).
    apply (H _ [] eq_refl eq_refl).
  - destruct (decorator_paths
                {| dn_name := "Get";
                   dn_args := [{| arg_kind := NoSubstitutionTemplateLiteral;
                                  arg_text := "`list`" |}] |})
      as (_ & _ & _ & H).
    apply (H _ [] eq_refl). discriminate.
Defined.

Lemma http_name_method (name : string) :
  existsb (String.eqb name) httpMethods = true ->
  exists m, methodOfText (Js.toUpperCase name) = Some m
            /\ method_text m = Js.toUpperCase name.
Proof.
  unfold httpMethods. cbn [existsb]. intros H.
  repeat (apply orb_prop in H as [H|H]);
    try discriminate H;
    apply String.eqb_eq in H; subst name; eexists; split; reflexivity.
Qed.

Section ScanRoutes.

Variable extractRequestBody : MethodDecl -> option DtoMetadata.
Variable extractResponseType : MethodDecl -> option DtoMetadata.

Lemma extractRoute_Some (method : MethodDecl) (controllerPath : string)
    (dec : DecoratorNode) :
  findHttpDecorator (m_decorators method) = Some dec ->
  exists route,
    extractRoute extractRequestBody extractResponseType method controllerPath
      = Some route
    /\ r_name route = m_name method
    /\ method_text (r_httpMethod route) = Js.toUpperCase (dn_name dec)
    /\ r_path route = extractRoutePath dec
    /\ r_fullPath route = combinePaths controllerPath (extractRoutePath dec).
Proof.
  intros Hf. unfold extractRoute. rewrite Hf.
  apply List.find_some in Hf as [_ Hn].
  destruct (http_name_method _ Hn) as (m & -> & Hm).
  eexists. split; [reflexivity|]. repeat split. exact Hm.
Qed.

(** X17: [scanRoutes] yields one route per method that carries an HTTP
    verb decorator, in the order of the methods, and skips the other
    methods.  The route has the name of the method, the verb of the
    first such decorator in upper case, the path read from that
    decorator, and as full path the combination of the controller
    path with it. *)
Theorem scanRoutes_one_route_per_http_method
    (methods : list MethodDecl) (controllerPath : string) :
  map r_name
    (scanRoutes extractRequestBody extractResponseType methods controllerPath)
  = map m_name
      (List.filter
         (fun m => bool_decide (is_Some (findHttpDecorator (m_decorators m))))
         methods)
  /\ Forall
       (fun route =>
          exists method dec,
            In method methods
            /\ findHttpDecorator (m_decorators method) = Some dec
            /\ r_name route = m_name method
            /\ method_text (r_httpMethod route) = Js.toUpperCase (dn_name dec)
            /\ r_path route = extractRoutePath dec
            /\ r_fullPath route = combinePaths controllerPath (r_path route)
            /\ Js.starts_with Js.is_slash (r_fullPath route) = true)
       (scanRoutes extractRequestBody extractResponseType methods
          controllerPath).
Proof.
  split.
  - unfold scanRoutes. induction methods as [|m ms IH]; [reflexivity|].
    cbn [flat_map List.filter]. rewrite map_app, IH.
    destruct (findHttpDecorator (m_decorators m)) as [dec|] eqn:Ef.
    + destruct (extractRoute_Some m controllerPath dec Ef)
        as (route & -> & Hn & _).
      rewrite bool_decide_eq_true_2 by eauto. simpl. rewrite Hn. reflexivity.
    + unfold extractRoute. rewrite Ef.
      rewrite bool_decide_eq_false_2 by (intros [x Hx]; discriminate Hx).
      reflexivity.
  - apply List.Forall_forall. intros route Hin. unfold scanRoutes in Hin.
    apply List.in_flat_map in Hin as (method & Hm & Hin).
    destruct (findHttpDecorator (m_decorators method)) as [dec|] eqn:Ef.
    + destruct (extractRoute_Some method controllerPath dec Ef)
        as (route' & E & Hn & Hv & Hp & Hfull).
      rewrite E in Hin. destruct Hin as [<-|[]].
      exists method, dec. repeat split; try assumption.
      * rewrite Hfull, Hp. reflexivity.
      * rewrite Hfull.
        destruct (combinePaths_rooted controllerPath (extractRoutePath dec))
          as (t & -> & _).
        reflexivity.
    + unfold extractRoute in Hin. rewrite Ef in Hin. inversion Hin.
Qed.

End ScanRoutes.

End RouteScannerExtras.

(* ===================================================================== *)
(** ** Properties of the controller scanner                              *)
(* ===================================================================== *)

Module ControllerScannerExtras.
Import ControllerScanner JsText.

Lemma take_drop (p : ascii -> bool) (s : string) :
  s = take_while p s +:+ Js.drop_leading p s.
Proof.
  induction s as [|c r IH]; simpl; [reflexivity|].
  destruct (p c); [|reflexivity].
  rewrite JsFacts.app_cons, <- IH. reflexivity.
Qed.

Lemma take_while_all (p : ascii -> bool) (s : string) :
  all_chars p (take_while p s) = true.
Proof.
  induction s as [|c r IH]; simpl; [reflexivity|].
  destruct (p c) eqn:E; [|reflexivity]. simpl. rewrite E, IH. reflexivity.
Qed.

Lemma take_while_app (p : ascii -> bool) (ds rest : string) :
  all_chars p ds = true -> Js.starts_with p rest = false ->
  take_while p (ds +:+ rest) = ds
  /\ Js.drop_leading p (ds +:+ rest) = rest.
Proof.
  intros Hd Hr. induction ds as [|c ds IH].
  - rewrite JsFacts.app_nil_l. destruct rest as [|d rest]; [split; reflexivity|].
    simpl in *. rewrite Hr. split; reflexivity.
  - simpl in Hd. apply andb_prop in Hd as [Hc Hd].
    rewrite JsFacts.app_cons. simpl. rewrite Hc.
    destruct (IH Hd) as [-> ->]. split; reflexivity.
Qed.

Lemma prefix_app (x y : string) : String.prefix x (x +:+ y) = true.
Proof.
  induction x as [|a x IH]; [destruct y; reflexivity|].
  rewrite JsFacts.app_cons. simpl. destruct (ascii_dec a a); [exact IH | congruence].
Qed.

Lemma prefix_inv (x s : string) :
  String.prefix x s = true -> exists rest, s = x +:+ rest.
Proof.
  revert s. induction x as [|a x IH]; intros s H.
  - exists s. reflexivity.
  - destruct s as [|b s]; [discriminate H|]. simpl in H.
    destruct (ascii_dec a b) as [->|]; [|discriminate H].
    destruct (IH s H) as [rest ->]. exists rest. reflexivity.
Qed.

Lemma includes_app (sub pre rest : string) :
  includes sub (pre +:+ sub +:+ rest) = true.
Proof.
  induction pre as [|c pre IH].
  - rewrite JsFacts.app_nil_l.
    assert (H : String.prefix sub (sub +:+ rest) = true) by apply prefix_app.
    destruct (sub +:+ rest); cbn [includes]; rewrite H; reflexivity.
  - rewrite JsFacts.app_cons. cbn [includes]. rewrite IH. apply orb_true_r.
Qed.

Lemma includes_inv (sub s : string) :
  includes sub s = true -> exists pre rest, s = pre +:+ sub +:+ rest.
Proof.
  induction s as [|c r IH]; cbn [includes].
  - rewrite orb_false_r. intros H. apply prefix_inv in H as [rest E].
    exists "", rest. exact E.
  - intros H. apply orb_prop in H as [H|H].
    + apply prefix_inv in H as [rest ->]. exists "", rest. reflexivity.
    + destruct (IH H) as (pre & rest & ->). exists (String c pre), rest. reflexivity.
Qed.

Lemma versionAt_Some (s version : string) :
  versionAt s = Some version ->
  exists digits rest,
    version = String "v" digits /\ digits <> ""
    /\ all_chars is_digit digits = true
    /\ s = "/" +:+ version +:+ "/" +:+ rest.
Proof.
  destruct s as [|c1 [|c2 r]]; simpl; try discriminate.
  destruct (Js.is_slash c1) eqn:E1; [|discriminate].
  destruct (Ascii.eqb c2 "v") eqn:E2; [|discriminate].
  destruct (Js.truthy (take_while is_digit r)) eqn:Et; [|discriminate].
  destruct (Js.starts_with Js.is_slash (Js.drop_leading is_digit r)) eqn:Es;
    [|discriminate].
  simpl. intros [= <-].
  apply Ascii.eqb_eq in E1, E2. subst c1 c2.
  destruct (Js.drop_leading is_digit r) as [|c rest] eqn:Ed; [discriminate Es|].
  simpl in Es. apply Ascii.eqb_eq in Es. subst c.
  exists (take_while is_digit r), rest.
  split; [reflexivity|]. split; [|split].
  - intros E. rewrite E in Et. discriminate Et.
  - apply take_while_all.
  - change ("/" +:+ String "v" (take_while is_digit r) +:+ "/" +:+ rest)
      with (String "/" (String "v" (take_while is_digit r +:+ String "/" rest))).
    do 2 f_equal. rewrite <- Ed. apply take_drop.
Qed.

Lemma firstVersion_Some (s version : string) :
  firstVersion s = Some version ->
  exists pre, versionAt pre = Some version /\ exists before, s = before +:+ pre.
Proof.
  induction s as [|c r IH]; cbn [firstVersion].
  - simpl. discriminate.
  - destruct (versionAt (String c r)) as [v|] eqn:Ev.
    + intros [= <-]. exists (String c r). split; [exact Ev|]. exists "". reflexivity.
    + intros H. destruct (IH H) as (pre & Hp & before & ->).
      exists pre. split; [exact Hp|]. exists (String c before). reflexivity.
Qed.

Lemma firstVersion_app (before s : string) :
  is_Some (versionAt s) -> is_Some (firstVersion (before +:+ s)).
Proof.
  intros [v Hv]. induction before as [|c before IH].
  - rewrite JsFacts.app_nil_l. destruct s as [|d s]; [discriminate Hv|].
    cbn [firstVersion]. rewrite Hv. eauto.
  - rewrite JsFacts.app_cons. cbn [firstVersion].
    destruct (versionAt (String c (before +:+ s))); [eauto | exact IH].
Qed.

(** X18: a detected version is the letter v followed by a non-empty run
    of digits, and occurs between two separators in the path with
    backslashes read as separators; a version is detected exactly when
    the path has such a segment. *)
Theorem detected_version_shape (filePath : string) :
  (forall version,
      detectVersionFromPath filePath = Some version ->
      exists digits,
        version = String "v" digits /\ digits <> ""
        /\ all_chars is_digit digits = true
        /\ includes ("/" +:+ version +:+ "/")
             (normalizeSeparators filePath) = true)
  /\ (is_Some (detectVersionFromPath filePath) <->
      exists digits,
        digits <> "" /\ all_chars is_digit digits = true
        /\ includes ("/v" +:+ digits +:+ "/")
             (normalizeSeparators filePath) = true).
Proof.
  assert (Hshape : forall version,
      detectVersionFromPath filePath = Some version ->
      exists digits,
        version = String "v" digits /\ digits <> ""
        /\ all_chars is_digit digits = true
        /\ includes ("/" +:+ version +:+ "/")
             (normalizeSeparators filePath) = true).
  { intros version H. unfold detectVersionFromPath in H.
    apply firstVersion_Some in H as (pre & Hp & before & E).
    apply versionAt_Some in Hp as (digits & rest & -> & Hne & Hd & ->).
    exists digits. repeat split; try assumption.
    rewrite E.
    replace ("/" +:+ String "v" digits +:+ "/" +:+ rest)
      with (("/" +:+ String "v" digits +:+ "/") +:+ rest)
      by (rewrite !JsFacts.app_assoc; reflexivity).
    apply includes_app. }
  split; [exact Hshape|]. split.
  - intros [version H]. destruct (Hshape version H) as (digits & -> & Hne & Hd & Hi).
    exists digits. repeat split; assumption.
  - intros (digits & Hne & Hd & Hi). unfold detectVersionFromPath.
    apply includes_inv in Hi as (before & rest & ->).
    assert (E : ("/v" +:+ digits +:+ "/") +:+ rest =
                String "/" (String "v" (digits +:+ String "/" rest))).
    { change ("/v" +:+ digits +:+ "/")
        with (String "/" (String "v" (digits +:+ "/"))).
      rewrite !JsFacts.app_cons, JsFacts.app_assoc. reflexivity. }
    rewrite E. apply firstVersion_app. unfold versionAt.
    destruct (take_while_app is_digit digits (String "/" rest) Hd eq_refl)
      as [Ht Hdrop].
    rewrite Ht, Hdrop.
    destruct digits; [congruence|]. simpl. eauto.
Qed.

Lemma detected_version_shape_witness :
  (exists digits, "v1" = String "v" digits /\ digits <> "")
  /\ is_Some (detectVersionFromPath "src/api/v22/user/user.controller.ts").
Proof.
  destruct (detected_version_shape "src/api/v1/admin/admin.controller.ts")
    as [H1 _].
  destruct (detected_version_shape "src/api/v22/user/user.controller.ts")
    as [_ H2].
  split.
  - destruct (H1 "v1" eq_refl) as (digits & E & Hne & _).
    exists digits. split; assumption.
  - apply H2. exists "22". split; [discriminate|]. split; reflexivity.
Defined.

(** *** Category parts *)

Lemma deduplicateFrom_adjacent (previous other : string) (parts : list string) :
  normalizePart other = normalizePart previous ->
  adjacentFrom other (deduplicateFrom previous parts) = false.
Proof.
  revert previous other. induction parts as [|p ps IH]; intros previous other E;
    simpl; [reflexivity|].
  destruct (String.eqb_spec (normalizePart p) (normalizePart previous)) as [Ep|Hne].
  - apply IH. congruence.
  - simpl. rewrite (IH p p eq_refl), orb_false_r.
    apply String.eqb_neq. congruence.
Qed.

Lemma deduplicateFrom_fixed (previous : string) (parts : list string) :
  adjacentFrom previous parts = false -> deduplicateFrom previous parts = parts.
Proof.
  revert previous. induction parts as [|p ps IH]; intros previous H; simpl;
    [reflexivity|].
  simpl in H. apply orb_false_elim in H as [Hp Hps].
  rewrite Hp, (IH p Hps). reflexivity.
Qed.

Lemma deduplicateFrom_sublist (previous : string) (parts : list string) :
  sublist (deduplicateFrom previous parts) parts.
Proof.
  revert previous. induction parts as [|p ps IH]; intros previous; simpl.
  - constructor.
  - destruct (String.eqb _ _); [apply sublist_cons | apply sublist_skip]; apply IH.
Qed.

(** X19: after [deduplicateCategoryParts] no part equals, up to case,
    white space and hyphens, the part before it; the first part is kept,
    the result is a sub-list of the input in the same order, the
    function changes nothing when applied again, and nothing at all when
    the input has no such adjacent parts. *)
Theorem deduplicateCategoryParts_no_adjacent_duplicates (parts : list string) :
  adjacentDuplicates (deduplicateCategoryParts parts) = false
  /\ head (deduplicateCategoryParts parts) = head parts
  /\ sublist (deduplicateCategoryParts parts) parts
  /\ deduplicateCategoryParts (deduplicateCategoryParts parts)
     = deduplicateCategoryParts parts
  /\ (adjacentDuplicates parts = false ->
      deduplicateCategoryParts parts = parts).
Proof.
  destruct parts as [|p ps]; simpl.
  - split; [reflexivity|]. split; [reflexivity|]. split; [constructor|].
    split; [reflexivity | intros _; reflexivity].
  - pose proof (deduplicateFrom_adjacent p p ps eq_refl) as H.
    split; [exact H|]. split; [reflexivity|].
    split; [apply sublist_skip, deduplicateFrom_sublist|]. split.
    + rewrite (deduplicateFrom_fixed _ _ H). reflexivity.
    + intros Hp. rewrite (deduplicateFrom_fixed _ _ Hp). reflexivity.
Qed.

Lemma deduplicateCategoryParts_no_adjacent_duplicates_witness :
  deduplicateCategoryParts ["Admin"; "Auth"; "Admin"] = ["Admin"; "Auth"; "Admin"].
Proof.
  apply (deduplicateCategoryParts_no_adjacent_duplicates
           ["Admin"; "Auth"; "Admin"]).
  reflexivity.
Defined.

Lemma split_from_nonempty (sep : string) (skip : nat) (s : string) :
  split_from sep skip s <> [].
Proof.
  revert skip. induction s as [|c r IH]; intros skip; cbn [split_from];
    [discriminate|].
  destruct skip; [|apply IH].
  destruct (String.prefix sep (String c r)); [discriminate|].
  destruct (split_from sep 0 r); discriminate.
Qed.

Lemma join_head_truthy (sep x : string) (xs : list string) :
  Js.truthy x = true -> Js.truthy (Js.join sep (x :: xs)) = true.
Proof.
  intros H. rewrite GeneratorExtras.join_cons.
  destruct x; [discriminate H|]. destruct xs; reflexivity.
Qed.

Lemma humanize_truthy (segment : string) :
  Js.truthy segment = true -> Js.truthy (humanizeCategoryName segment) = true.
Proof.
  destruct segment as [|c r]; [discriminate|]. intros _.
  unfold humanizeCategoryName, split. cbn [split_from].
  destruct (String.prefix "-" (String c r)).
  - pose proof (split_from_nonempty "-" (String.length "-" - 1) r) as Hne.
    destruct (split_from "-" (String.length "-" - 1) r) as [|y ys]; [congruence|].
    reflexivity.
  - pose proof (split_from_nonempty "-" 0 r) as Hne.
    destruct (split_from "-" 0 r) as [|y ys]; [congruence|].
    cbn [map capitalize]. apply join_head_truthy. reflexivity.
Qed.

Lemma pathParts_truthy (filePath : string) :
  Forall (fun part => Js.truthy part = true) (pathParts filePath).
Proof.
  unfold pathParts. apply List.Forall_forall. intros part Hin.
  apply List.filter_In in Hin as [_ H].
  apply andb_prop in H as [H _]. apply andb_prop in H as [H _]. exact H.
Qed.

(** X20: the category inferred from a file path is never empty: it is
    [Uncategorized] when no directory segment is left, and otherwise
    starts with the humanized first segment. *)
Theorem detectCategoryFromPath_never_empty (filePath : string) :
  detectCategoryFromPath filePath <> ""
  /\ (pathParts filePath = [] ->
      detectCategoryFromPath filePath = "Uncategorized")
  /\ (forall first rest,
        pathParts filePath = first :: rest ->
        String.prefix (humanizeCategoryName first)
          (detectCategoryFromPath filePath) = true).
Proof.
  unfold detectCategoryFromPath.
  pose proof (pathParts_truthy filePath) as Ht.
  destruct (pathParts filePath) as [|p ps].
  - split; [discriminate|]. split; [reflexivity | discriminate].
  - apply Forall_cons in Ht as [Hp _].
    pose proof (humanize_truthy p Hp) as Hh.
    cbn [map deduplicateCategoryParts].
    assert (Hjoin : forall xs,
              Js.join " - " (humanizeCategoryName p :: xs) =
              humanizeCategoryName p +:+
                match xs with [] => "" | _ => " - " +:+ Js.join " - " xs end).
    { intros xs. rewrite GeneratorExtras.join_cons. destruct xs;
        [rewrite JsFacts.app_nil_r|]; reflexivity. }
    split; [|split; [discriminate|]].
    + destruct (deduplicateFrom (humanizeCategoryName p)
                  (map humanizeCategoryName ps)) as [|x xs].
      * intros E. rewrite E in Hh. discriminate Hh.
      * intros E.
        pose proof (join_head_truthy " - " (humanizeCategoryName p) (x :: xs) Hh)
          as Hj.
        rewrite E in Hj. discriminate Hj.
    + intros first rest [= <- <-].
      destruct (deduplicateFrom (humanizeCategoryName p)
                  (map humanizeCategoryName ps)) as [|x xs].
      * pose proof (prefix_app (humanizeCategoryName p) "") as H.
        rewrite JsFacts.app_nil_r in H. exact H.
      * rewrite Hjoin. apply prefix_app.
Qed.

Lemma detectCategoryFromPath_never_empty_witness :
  detectCategoryFromPath "a/src/" = "Uncategorized"
  /\ String.prefix "Admin"
       (detectCategoryFromPath "src/api/v1/admin/auth/auth.controller.ts") = true.
Proof.
  split.
  - apply (detectCategoryFromPath_never_empty "a/src/"). reflexivity.
  - destruct (detectCategoryFromPath_never_empty
                "src/api/v1/admin/auth/auth.controller.ts") as (_ & _ & H).
    apply (H "admin" ["auth"; "auth"]). reflexivity.
Defined.

End ControllerScannerExtras.

(* ===================================================================== *)
(** ** Escaping of text placed in the documentation page                 *)
(* ===================================================================== *)

Module EscapeExtras.
Import ScalarController JsText.

Lemma replace_char_app (c : ascii) (by_ a b : string) :
  replace_char c by_ (a +:+ b) = replace_char c by_ a +:+ replace_char c by_ b.
Proof.
  induction a as [|d a IH]; [reflexivity|].
  rewrite JsFacts.app_cons. simpl. rewrite IH, JsFacts.app_assoc. reflexivity.
Qed.

Ltac case_char c :=
  destruct (Ascii.eqb_spec c "&") as [->|?];
  [|destruct (Ascii.eqb_spec c "<") as [->|?];
    [|destruct (Ascii.eqb_spec c ">") as [->|?];
      [|destruct (Ascii.eqb_spec c double_quote) as [->|?];
        [|destruct (Ascii.eqb_spec c single_quote) as [->|?]]]]].

Lemma escapeHtml_cons (c : ascii) (r : string) :
  escapeHtml (String c r) = entityOf c +:+ escapeHtml r.
Proof.
  unfold escapeHtml. cbn [replace_char]. rewrite !replace_char_app.
  f_equal. unfold entityOf.
  case_char c; try reflexivity.
  cbn [replace_char].
  repeat match goal with
         | H : ?x <> ?y |- context [Ascii.eqb ?x ?y] =>
             rewrite (proj2 (Ascii.eqb_neq x y) H)
         end.
  rewrite !JsFacts.app_nil_r. cbn [replace_char].
  repeat match goal with
         | H : ?x <> ?y |- context [Ascii.eqb ?x ?y] =>
             rewrite (proj2 (Ascii.eqb_neq x y) H)
         end.
  repeat (rewrite ?JsFacts.app_nil_r; cbn [replace_char];
          repeat match goal with
                 | H : ?x <> ?y |- context [Ascii.eqb ?x ?y] =>
                     rewrite (proj2 (Ascii.eqb_neq x y) H)
                 end).
  reflexivity.
Qed.

Lemma escapeHtml_app (a b : string) :
  escapeHtml (a +:+ b) = escapeHtml a +:+ escapeHtml b.
Proof.
  induction a as [|c a IH]; [reflexivity|].
  rewrite JsFacts.app_cons, !escapeHtml_cons, IH, JsFacts.app_assoc. reflexivity.
Qed.

Lemma has_char_app (p : ascii -> bool) (a b : string) :
  Js.has_char p (a +:+ b) = Js.has_char p a || Js.has_char p b.
Proof.
  induction a as [|c a IH]; [reflexivity|].
  rewrite JsFacts.app_cons. simpl. rewrite IH, orb_assoc. reflexivity.
Qed.

Lemma entityOf_no_markup (c : ascii) : Js.has_char is_markup (entityOf c) = false.
Proof.
  unfold entityOf. case_char c; try reflexivity.
  repeat match goal with
         | H : ?x <> ?y |- context [Ascii.eqb ?x ?y] =>
             rewrite (proj2 (Ascii.eqb_neq x y) H)
         end.
  simpl. unfold is_markup.
  repeat match goal with
         | H : ?x <> ?y |- context [Ascii.eqb ?x ?y] =>
             rewrite (proj2 (Ascii.eqb_neq x y) H)
         end.
  reflexivity.
Qed.

Lemma entity_prefix_free (c1 c2 : ascii) (x y : string) :
  entityOf c1 +:+ x = entityOf c2 +:+ y -> c1 = c2 /\ x = y.
Proof.
  unfold entityOf. case_char c1; case_char c2;
    repeat match goal with
           | H : ?a <> ?b |- context [Ascii.eqb ?a ?b] =>
               rewrite (proj2 (Ascii.eqb_neq a b) H)
           end;
    intros H; vm_compute in H;
    try (injection H; intros; subst; split; congruence);
    try congruence.
Qed.

(** X21: [escapeHtml] leaves no angle bracket and no quote character in
    its result, is the identity on text without ampersand, angle
    bracket or quote, distributes over concatenation, and maps
    different texts to different results. *)
Theorem escapeHtml_safe :
  (forall s, Js.has_char is_markup (escapeHtml s) = false)
  /\ (forall s,
        Js.has_char (fun c => Ascii.eqb c "&" || is_markup c) s = false ->
        escapeHtml s = s)
  /\ (forall a b, escapeHtml (a +:+ b) = escapeHtml a +:+ escapeHtml b)
  /\ (forall s1 s2, escapeHtml s1 = escapeHtml s2 -> s1 = s2).
Proof.
  split; [|split; [|split]].
  - induction s as [|c r IH]; [reflexivity|].
    rewrite escapeHtml_cons, has_char_app, entityOf_no_markup, IH. reflexivity.
  - induction s as [|c r IH]; [reflexivity|]. simpl. intros H.
    apply orb_false_elim in H as [Hc Hr].
    rewrite escapeHtml_cons, (IH Hr).
    apply orb_false_elim in Hc as [H1 Hc]. unfold is_markup in Hc.
    apply orb_false_elim in Hc as [Hc H5]. apply orb_false_elim in Hc as [Hc H4].
    apply orb_false_elim in Hc as [H2 H3].
    unfold entityOf. rewrite H1, H2, H3, H4, H5. reflexivity.
  - apply escapeHtml_app.
  - induction s1 as [|c1 r1 IH]; intros [|c2 r2].
    + reflexivity.
    + rewrite escapeHtml_cons. unfold entityOf.
      case_char c2; intros H; vm_compute in H; discriminate H.
    + rewrite escapeHtml_cons. unfold entityOf.
      case_char c1; intros H; vm_compute in H; discriminate H.
    + rewrite !escapeHtml_cons. intros H.
      apply entity_prefix_free in H as [-> H]. f_equal. apply IH, H.
Qed.

Lemma escapeHtml_safe_witness :
  escapeHtml "https://api.example.com" = "https://api.example.com".
Proof.
  destruct escapeHtml_safe as (_ & H & _). apply H. reflexivity.
Defined.

End EscapeExtras.

(* ===================================================================== *)
(** ** Further properties of the documentation service                   *)
(* ===================================================================== *)

Module ServiceExtras.
Import AutoDocsService.

Section Service.

Variable options : AutoDocsOptions.
Variable localeCompare : string -> string -> Z.

(** A scan reads the state it starts from only through what
    [Object.prototype] has been given. *)
Lemma scan_replaces scanned now st1 st2 :
  objectPrototype st1 = objectPrototype st2 ->
  match scan options localeCompare scanned now st1,
        scan options localeCompare scanned now st2 with
  | Some (Ok u1, st1'), Some (Ok u2, st2') => st1' = st2'
  | Some (Ok _, _), _ | _, Some (Ok _, _) => False
  | _, _ => True
  end.
Proof.
  unfold objectPrototype. intros H.
  destruct scanned as [found|e|]; cbn [scan]; try exact I.
  unfold mapped, objectPrototype. rewrite H.
  destruct (match o_categoryMapping options with
            | Some mapping => _ | None => _ end) as [found'|];
    [|exact I].
  unfold OpenApiGenerator.generate. rewrite H. reflexivity.
Qed.

Lemma runFrom_unchanged trace st st' :
  existsb completedScan trace = false ->
  runFrom options localeCompare st trace = Some st' -> st' = st.
Proof.
  revert st. induction trace as [|req trace IH]; intros st H.
  - intros [= <-]. reflexivity.
  - cbn [existsb] in H. apply orb_false_elim in H as [Hr Ht].
    rewrite ServiceFacts.runFrom_cons.
    destruct (ServiceFacts.call_unchanged options localeCompare req st Hr)
      as [r E].
    rewrite E. apply IH, Ht.
Qed.

End Service.

(** X22: the state of the service is determined by its last completed
    scan and by what [Object.prototype] had been given before it:
    whatever was called before, and whatever accessors or failed scans
    come after, the service is in the state that scan left.  The stored
    controllers are the scanned controllers with the category mapping
    applied, the stored specification is the one generated from them,
    and the scan time is the time of that scan.  When
    [Object.prototype] had been given nothing, this is the state the
    scan leaves a fresh service in; and a scan gives it nothing when no
    route has the path template [__proto__]. *)
Theorem state_is_the_last_completed_scan
    (options : AutoDocsOptions) (localeCompare : string -> string -> Z)
    (before after : list Request) (found : list ControllerMetadata) (now : Z)
    (st : State) :
  run options localeCompare (before ++ Scan (Ok found) now :: after)
    = Some st ->
  existsb completedScan after = false ->
  exists st0,
    run options localeCompare before = Some st0
    /\ scan options localeCompare (Ok found) now st0 = Some (Ok tt, st)
    /\ CategoryGenerator.applyCategoryMapping found (o_categoryMapping options)
         (objectPrototype st0) = Some (controllers st)
    /\ openApiSpec st =
       Some (fst (OpenApiGenerator.generate localeCompare (controllers st)
                    options (openApiGenerator st0)))
    /\ lastScanTime st = Some now
    /\ objectPrototype st =
       snd (OpenApiGenerator.generatePaths (controllers st) options
              (objectPrototype st0))
    /\ ((forall c r, In c (controllers st) -> In r (c_routes c) ->
                     OpenApiGenerator.routeFullPath options c r <> "__proto__") ->
        objectPrototype st = objectPrototype st0)
    /\ (objectPrototype st0 = [] ->
        scan options localeCompare (Ok found) now initial = Some (Ok tt, st)).
Proof.
  intros Hrun Hafter. unfold run in Hrun.
  rewrite ServiceFacts.runFrom_app in Hrun.
  destruct (runFrom options localeCompare initial before) as [st0|] eqn:E0;
    [|discriminate].
  rewrite ServiceFacts.runFrom_cons in Hrun. cbn [call] in Hrun.
  destruct (scan options localeCompare (Ok found) now st0) as [[r st1]|] eqn:Es;
    [|discriminate].
  cbn [fmap option_fmap option_map] in Hrun.
  assert (Est : st = st1).
  { destruct r; cbn [reply] in Hrun;
      apply (runFrom_unchanged options localeCompare after _ _ Hafter Hrun). }
  subst st1. clear Hrun.
  destruct (ServiceFacts.scan_completes options localeCompare _ _ _ _ _ Es)
    as (found' & spec & gen & Hm & Hg & -> & Hst).
  exists st0. split; [exact E0|]. split; [exact Es|].
  assert (Hc : controllers st = found') by (rewrite Hst; reflexivity).
  assert (Hp : objectPrototype st =
               snd (OpenApiGenerator.generatePaths (controllers st) options
                      (objectPrototype st0))).
  { rewrite Hc, Hst. unfold objectPrototype. cbn [openApiGenerator].
    unfold OpenApiGenerator.generate in Hg. injection Hg as _ <-. reflexivity. }
  split; [|split; [|split; [|split; [|split]]]].
  - rewrite Hc. unfold mapped in Hm.
    destruct (o_categoryMapping options); exact Hm.
  - rewrite Hc, Hst. cbn [openApiSpec]. rewrite Hg. reflexivity.
  - rewrite Hst. reflexivity.
  - exact Hp.
  - intros Hclean. rewrite Hp.
    apply PathsMap.generatePaths_added, Hclean.
  - intros Hempty.
    pose proof (scan_replaces options localeCompare (Ok found) now st0 initial
                  Hempty) as H.
    rewrite Es in H.
    destruct (scan options localeCompare (Ok found) now initial)
      as [[[u|e|] st2]|]; try contradiction.
    subst st2. destruct u. reflexivity.
Qed.

Lemma state_is_the_last_completed_scan_witness :
  lastScanTime
    (default initial
       (run Examples.versionedOptions Js.compare_strings
          ([Scan (Ok []) 1%Z; GetStats]
             ++ Scan (Ok [Examples.adminController]) 2%Z
             :: [Scan (Throw "ENOENT") 3%Z; GetOpenApiSpec])))
  = Some 2%Z.
Proof.
  destruct (run Examples.versionedOptions Js.compare_strings
              ([Scan (Ok []) 1%Z; GetStats]
                 ++ Scan (Ok [Examples.adminController]) 2%Z
                 :: [Scan (Throw "ENOENT") 3%Z; GetOpenApiSpec]))
    as [st|] eqn:E; [|discriminate E].
  destruct (state_is_the_last_completed_scan Examples.versionedOptions
              Js.compare_strings [Scan (Ok []) 1%Z; GetStats]
              [Scan (Throw "ENOENT") 3%Z; GetOpenApiSpec]
              [Examples.adminController] 2%Z st E eq_refl)
    as (st0 & _ & _ & _ & _ & H & _).
  exact H.
Defined.

Lemma distinct_fold_length (controllers : list ControllerMetadata)
    (set : list string) :
  length (fold_left
            (fun categories controller =>
               if Js.truthy (c_category controller)
               then Js.set_add (c_category controller) categories
               else categories)
            controllers set)
  <= length set + length controllers.
Proof.
  revert set. induction controllers as [|c cs IH]; intros set; simpl; [lia|].
  etransitivity; [apply IH|].
  destruct (Js.truthy (c_category c)); [|lia].
  unfold Js.set_add. destruct (existsb _ set); [lia|].
  rewrite length_app. simpl. lia.
Qed.

Lemma totalRoutes_fold (controllers : list ControllerMetadata) (n : nat) :
  fold_left (fun sum ctrl => sum + length (c_routes ctrl)) controllers n
  = n + length (Derived.routeList controllers).
Proof.
  revert n. unfold Derived.routeList.
  induction controllers as [|c cs IH]; intros n; simpl; [lia|].
  rewrite IH, length_app, length_map. lia.
Qed.

(** X23: the statistics agree with the stored controllers: the number of
    controllers, the number of routes over all controllers, and the
    distinct non-empty categories in ascending order, of which there are
    never more than controllers.  Asking for them changes nothing. *)
Theorem getStats_counts (st : State) :
  exists stats,
    getStats st = (Ok stats, st)
    /\ totalControllers stats = length (controllers st)
    /\ totalRoutes stats = length (Derived.routeList (controllers st))
    /\ categories stats = CategoryGenerator.getCategories (controllers st)
    /\ totalCategories stats = length (categories stats)
    /\ totalCategories stats <= totalControllers stats
    /\ statsLastScanTime stats = lastScanTime st.
Proof.
  eexists. split; [reflexivity|]. simpl.
  split; [reflexivity|]. split; [apply (totalRoutes_fold _ 0)|].
  split; [reflexivity|]. split; [reflexivity|]. split; [|reflexivity].
  unfold CategoryGenerator.getCategories.
  rewrite (Permutation_length (CollectionFacts.sort_by_perm _ _)).
  apply (distinct_fold_length (controllers st) []).
Qed.

End ServiceExtras.

(* ===================================================================== *)
(** ** Validator constraints                                             *)
(* ===================================================================== *)

Module SchemaExtras.
Import OpenApiGenerator.

Lemma or_else_last {A B : Type} (f : A -> option B) (v : A) (vs : list A)
    (x a : option B) :
  f v = x ->
  or_else (last (omap f vs)) (or_else x a) =
  or_else (last (omap f (v :: vs))) a.
Proof.
  intros <-. cbn. destruct (f v) as [y|]; [|reflexivity]. rewrite last_cons.
  destruct (last (omap f vs)); reflexivity.
Qed.

Ltac later_wins vs :=
  let v := fresh "v" in
  let IH := fresh "IH" in
  let c := fresh "c" in
  let Ec := fresh "Ec" in
  induction vs as [|v vs IH]; intros schema; [reflexivity|];
  cbn [fold_left]; rewrite IH;
  unfold applyValidatorConstraints;
  destruct (v_constraints v) as [c|] eqn:Ec;
  cbn [assign s_type s_format s_minLength s_maxLength s_pattern s_minimum
       s_maximum s_minItems s_maxItems s_enum];
  (refine (eq_trans _ (or_else_last _ v vs _ _ _));
   [ | rewrite Ec; reflexivity ]; reflexivity).

Lemma fold_type (vs : list ValidatorMetadata) :
  forall schema,
    s_type (fold_left applyValidatorConstraints vs schema) =
    or_else (last (omap (fun v => v_constraints v ≫= (fun c => if_truthy (vc_type c))) vs))
      (s_type schema).
Proof. later_wins vs. Qed.

Lemma fold_format (vs : list ValidatorMetadata) :
  forall schema,
    s_format (fold_left applyValidatorConstraints vs schema) =
    or_else (last (omap (fun v => v_constraints v ≫= (fun c => if_truthy (vc_format c))) vs))
      (s_format schema).
Proof. later_wins vs. Qed.

Lemma fold_minLength (vs : list ValidatorMetadata) :
  forall schema,
    s_minLength (fold_left applyValidatorConstraints vs schema) =
    or_else (last (omap (fun v => v_constraints v ≫= vc_minLength) vs))
      (s_minLength schema).
Proof. later_wins vs. Qed.

Lemma fold_maxLength (vs : list ValidatorMetadata) :
  forall schema,
    s_maxLength (fold_left applyValidatorConstraints vs schema) =
    or_else (last (omap (fun v => v_constraints v ≫= vc_maxLength) vs))
      (s_maxLength schema).
Proof. later_wins vs. Qed.

Lemma fold_minimum (vs : list ValidatorMetadata) :
  forall schema,
    s_minimum (fold_left applyValidatorConstraints vs schema) =
    or_else (last (omap (fun v => v_constraints v ≫= vc_minimum) vs))
      (s_minimum schema).
Proof. later_wins vs. Qed.

Lemma fold_maximum (vs : list ValidatorMetadata) :
  forall schema,
    s_maximum (fold_left applyValidatorConstraints vs schema) =
    or_else (last (omap (fun v => v_constraints v ≫= vc_maximum) vs))
      (s_maximum schema).
Proof. later_wins vs. Qed.

Lemma fold_pattern (vs : list ValidatorMetadata) :
  forall schema,
    s_pattern (fold_left applyValidatorConstraints vs schema) =
    or_else (last (omap (fun v => v_constraints v ≫= (fun c => if_truthy (vc_pattern c))) vs))
      (s_pattern schema).
Proof. later_wins vs. Qed.

Lemma fold_minItems (vs : list ValidatorMetadata) :
  forall schema,
    s_minItems (fold_left applyValidatorConstraints vs schema) =
    or_else (last (omap (fun v => v_constraints v ≫= vc_minItems) vs))
      (s_minItems schema).
Proof. later_wins vs. Qed.

Lemma fold_maxItems (vs : list ValidatorMetadata) :
  forall schema,
    s_maxItems (fold_left applyValidatorConstraints vs schema) =
    or_else (last (omap (fun v => v_constraints v ≫= vc_maxItems) vs))
      (s_maxItems schema).
Proof. later_wins vs. Qed.

Lemma fold_enum (vs : list ValidatorMetadata) :
  forall schema,
    s_enum (fold_left applyValidatorConstraints vs schema) =
    or_else (last (omap (fun v => v_constraints v ≫= vc_enum) vs))
      (s_enum schema).
Proof. later_wins vs. Qed.

Lemma fold_structure (vs : list ValidatorMetadata) :
  forall schema,
    s_items (fold_left applyValidatorConstraints vs schema) = s_items schema
    /\ s_properties (fold_left applyValidatorConstraints vs schema)
       = s_properties schema
    /\ s_required (fold_left applyValidatorConstraints vs schema)
       = s_required schema
    /\ s_description (fold_left applyValidatorConstraints vs schema)
       = s_description schema.
Proof.
  induction vs as [|v vs IH]; intros schema; [repeat split|].
  cbn [fold_left]. destruct (IH (applyValidatorConstraints schema v))
    as (-> & -> & -> & ->).
  unfold applyValidatorConstraints. destruct (v_constraints v); repeat split.
Qed.

(** X24: the constraints of the validators of a property are applied in
    order and, field by field, the last validator that sets a field
    decides it; a field no validator sets keeps the value given by the
    type of the property.  Validators never change the items, the
    properties or the required list of the schema. *)
Theorem later_validator_wins (property : PropertyMetadata)
    (vs : list ValidatorMetadata) :
  p_validators property = Some vs ->
  let base :=
    match p_type property with
    | Some t => convertTypeToSchema (Some t)
    | None => empty_schema
    end in
  let schema := convertPropertyToSchema property in
  s_type schema =
    or_else (last (omap (fun v => v_constraints v ≫= (fun c => if_truthy (vc_type c))) vs))
      (s_type base)
  /\ s_format schema =
     or_else (last (omap (fun v => v_constraints v ≫= (fun c => if_truthy (vc_format c))) vs))
       (s_format base)
  /\ s_minLength schema =
     or_else (last (omap (fun v => v_constraints v ≫= vc_minLength) vs))
       (s_minLength base)
  /\ s_maxLength schema =
     or_else (last (omap (fun v => v_constraints v ≫= vc_maxLength) vs))
       (s_maxLength base)
  /\ s_minimum schema =
     or_else (last (omap (fun v => v_constraints v ≫= vc_minimum) vs))
       (s_minimum base)
  /\ s_maximum schema =
     or_else (last (omap (fun v => v_constraints v ≫= vc_maximum) vs))
       (s_maximum base)
  /\ s_enum schema =
     or_else (last (omap (fun v => v_constraints v ≫= vc_enum) vs))
       (s_enum base)
  /\ s_pattern schema =
     or_else (last (omap (fun v => v_constraints v ≫= (fun c => if_truthy (vc_pattern c))) vs))
       (s_pattern base)
  /\ s_minItems schema =
     or_else (last (omap (fun v => v_constraints v ≫= vc_minItems) vs))
       (s_minItems base)
  /\ s_maxItems schema =
     or_else (last (omap (fun v => v_constraints v ≫= vc_maxItems) vs))
       (s_maxItems base)
  /\ s_items schema = s_items base
  /\ s_properties schema = s_properties base
  /\ s_required schema = s_required base.
Proof.
  intros Hvs base schema.
  assert (Hbase : forall s : SchemaObject, assign empty_schema s = s).
  { intros [ty fmt it en pr rq ds a b c d e f g]. unfold assign. simpl.
    f_equal; match goal with |- or_else ?x None = ?x => destruct x; reflexivity end. }
  assert (E : exists desc,
             schema = assign (fold_left applyValidatorConstraints vs base) desc
             /\ s_type desc = None /\ s_format desc = None
             /\ s_minLength desc = None /\ s_maxLength desc = None
             /\ s_minimum desc = None /\ s_maximum desc = None
             /\ s_enum desc = None /\ s_pattern desc = None
             /\ s_minItems desc = None /\ s_maxItems desc = None
             /\ s_items desc = None
             /\ s_properties desc = None /\ s_required desc = None).
  { subst schema base. unfold convertPropertyToSchema, convertPropertyWith.
    rewrite Hvs.
    assert (Hb : match p_type property with
                 | Some t => assign empty_schema (convertDefinedType t)
                 | None => empty_schema
                 end =
                 match p_type property with
                 | Some t => convertTypeToSchema (Some t)
                 | None => empty_schema
                 end).
    { destruct (p_type property); [apply Hbase | reflexivity]. }
    rewrite Hb.
    destruct (Js.truthy_opt (p_description property)).
    - eexists. split; [reflexivity|]. repeat split.
    - exists empty_schema. split; [|repeat split].
      destruct (fold_left _ vs _). reflexivity. }
  destruct E as (desc & -> & H1 & H2 & H3 & H4 & H5 & H6 & H7 & H11 & H12
                 & H13 & H8 & H9 & H10).
  destruct (fold_structure vs base) as (Ei & Ep & Er & _).
  unfold assign at 1 2 3 4 5 6 7 8 9 10 11 12 13.
  cbn [s_type s_format s_minLength s_maxLength s_pattern s_minItems
    s_maxItems s_minimum s_maximum s_enum s_items s_properties s_required].
  rewrite H1, H2, H3, H4, H5, H6, H7, H8, H9, H10, H11, H12, H13.
  cbn [or_else].
  rewrite fold_type, fold_format, fold_minLength, fold_maxLength,
    fold_minimum, fold_maximum, fold_enum, fold_pattern, fold_minItems,
    fold_maxItems, Ei, Ep, Er.
  repeat split.
Qed.

Lemma later_validator_wins_witness :
  s_minLength
    (convertPropertyToSchema
       {| p_name := "password"; p_type := Some Examples.stringType;
          p_required := true; p_description := None;
          p_validators :=
            Some [{| v_name := "MinLength"; v_args := ["8"];
                     v_constraints :=
                       Some {| vc_type := None; vc_format := None;
                               vc_minLength := Some 8%Z; vc_maxLength := None;
                               vc_pattern := None; vc_minimum := None;
                               vc_maximum := None; vc_minItems := None;
                               vc_maxItems := None; vc_enum := None;
                               vc_required := None |} |};
                  {| v_name := "IsString"; v_args := [];
                     v_constraints := None |};
                  {| v_name := "MinLength"; v_args := ["12"];
                     v_constraints :=
                       Some {| vc_type := None; vc_format := None;
                               vc_minLength := Some 12%Z; vc_maxLength := None;
                               vc_pattern := None; vc_minimum := None;
                               vc_maximum := None; vc_minItems := None;
                               vc_maxItems := None; vc_enum := None;
                               vc_required := None |} |}] |})
  = Some 12%Z.
Proof.
  match goal with
  | |- s_minLength (convertPropertyToSchema ?p) = _ =>
      destruct (later_validator_wins p _ eq_refl) as (_ & _ & H & _)
  end.
  rewrite H. reflexivity.
Defined.

End SchemaExtras.
